(** * Bundle curation in [bin/dipy_streamlines_viz.py]

    A shallow embedding of the [Bundle] and [StreamlinesVizu] classes of
    the streamlines visualisation script, and of the QuickBundles
    clustering they call, followed by the properties of the curation
    workflow (clustering preview, accept / reject / undo, selection
    cycling, the key list of the registry). *)

From Stdlib Require Import QArith Qabs ZArith Ascii String List.
From Stdlib Require Import DecimalString DecimalNat DecimalFacts.
From stdpp Require Import gmap strings list sorting.

Local Open Scope nat_scope.

(** ** Python exceptions and the state-and-exception monad

    A method mutates [self] and either returns or raises. What was
    mutated before a [raise] stays mutated: the handlers run inside the
    toolkit's event loop, which goes on with the next event. *)

Inductive exn : Type :=
  | KeyError | ValueError | IndexError | NameError | TypeError.

Inductive Res (S A : Type) : Type :=
  | Ok (a : A) (s : S)
  | Raise (e : exn) (s : S).
Arguments Ok {S A} a s.
Arguments Raise {S A} e s.

Definition M (S A : Type) : Type := S -> Res S A.

Definition ret {S A} (a : A) : M S A := fun s => Ok a s.
Definition bind {S A B} (m : M S A) (k : A -> M S B) : M S B :=
  fun s => match m s with
           | Ok a s' => k a s'
           | Raise e s' => Raise e s'
           end.
Definition raise {S A} (e : exn) : M S A := fun s => Raise e s.
Definition get {S} : M S S := fun s => Ok s s.
Definition gets {S A} (f : S -> A) : M S A := fun s => Ok (f s) s.
Definition modify {S} (f : S -> S) : M S unit := fun s => Ok tt (f s).

Global Instance M_ret {S} : MRet (M S) := fun A a => ret a.
Global Instance M_bind {S} : MBind (M S) := fun A B k m => bind m k.

(** [for x in xs: body x] *)
Fixpoint for_each {S A} (xs : list A) (body : A -> M S unit) : M S unit :=
  match xs with
  | [] => ret tt
  | x :: xs' => body x ;; for_each xs' body
  end.

(** The state a call leaves behind, whether it returned or raised. *)
Definition state_of {S A} (r : Res S A) : S :=
  match r with Ok _ s => s | Raise _ s => s end.

(** ** Streamlines, thresholds, clusters *)

Definition Point : Type := Q * Q * Q.
Definition Streamline : Type := list Point.
Definition Color : Type := Q * Q * Q.

(** A clustering threshold is a float; [np.inf] is its own constructor. *)
Inductive Threshold : Type :=
  | Finite (t : Q)
  | Infinity.

(** [d <= threshold] *)
Definition within (d : Q) (threshold : Threshold) : bool :=
  match threshold with
  | Finite t => Qle_bool d t
  | Infinity => true
  end.

(** [t1 < t2] on thresholds *)
Definition Threshold_lt (t1 t2 : Threshold) : Prop :=
  match t1, t2 with
  | Finite a, Finite b => (a < b)%Q
  | Finite _, Infinity => True
  | Infinity, _ => False
  end.

(** [t1 != t2] on floats *)
Definition Threshold_neqb (t1 t2 : Threshold) : bool :=
  match t1, t2 with
  | Finite a, Finite b => negb (Qeq_bool a b)
  | Infinity, Infinity => false
  | _, _ => true
  end.

Module Cluster.
Record t : Type := mk {
  centroid : Streamline;
  indices : list nat
}.
(** [len(cluster)] *)
Definition size (c : t) : nat := length (indices c).
End Cluster.

(** ** The clustering engine

  [dipy.segment.clustering.QuickBundles] and the metric of
  [dipy.segment.metric] are imported by the script; their code is not
  part of the sources at hand. The metric is an interface here. *)

Class Metric : Type := {
  (** the feature of a streamline ([ResampleFeature(nb_points=30)]):
      the streamline resampled to a fixed number of points *)
  extract : Streamline -> Streamline;
  (** distance between two features ([AveragePointwiseEuclideanMetric]) *)
  dist : Streamline -> Streamline -> Q;
  (** [merge c n f]: the centroid [c] of [n] members after one more
      member of feature [f] has joined *)
  merge : Streamline -> nat -> Streamline -> Streamline
}.

Module QuickBundles.
Section Engine.
Context `{Metric}.

(** Modelled from the spec: the comparison of a streamline against the
    existing centroids (section 4.1), part of the missing
    [QuickBundles]. Position and distance of the centroid nearest to
    [f], the first one when several are equally near; [None] when there
    is no cluster yet. *)
Fixpoint nearest_from (f : Streamline) (cs : list Cluster.t) (k : nat)
    (best : option (nat * Q)) : option (nat * Q) :=
  match cs with
  | [] => best
  | c :: cs' =>
      let d := dist f (Cluster.centroid c) in
      let best' := match best with
                   | None => Some (k, d)
                   | Some (_, bd) =>
                       if Qle_bool bd d then best else Some (k, d)
                   end in
      nearest_from f cs' (S k) best'
  end.

(** Modelled from the spec: the nearest centroid among all those of the
    missing [QuickBundles] so far. *)
Definition nearest (f : Streamline) (cs : list Cluster.t) : option (nat * Q) :=
  nearest_from f cs 0 None.

(** Modelled from the spec: the update of a cluster of the missing
    [QuickBundles] when streamline number [i] of feature [f] joins it;
    the centroid follows. *)
Definition join (i : nat) (f : Streamline) (c : Cluster.t) : Cluster.t :=
  Cluster.mk (merge (Cluster.centroid c) (Cluster.size c) f)
             (Cluster.indices c ++ [i]).

(** Modelled from the spec: one step of the single pass of the missing
    [QuickBundles]. Streamline number [i] joins the nearest cluster when
    that one is within the threshold, and founds a new cluster
    otherwise. *)
Definition assign (threshold : Threshold) (cs : list Cluster.t)
    (i : nat) (s : Streamline) : list Cluster.t :=
  let f := extract s in
  match nearest f cs with
  | Some (k, d) =>
      if within d threshold then alter (join i f) k cs
      else cs ++ [Cluster.mk f [i]]
  | None => cs ++ [Cluster.mk f [i]]
  end.

(** Modelled from the spec: the single pass of the missing
    [QuickBundles] over the streamlines, in input order. *)
Fixpoint pass (threshold : Threshold) (cs : list Cluster.t) (i : nat)
    (todo : list Streamline) : list Cluster.t :=
  match todo with
  | [] => cs
  | s :: todo' => pass threshold (assign threshold cs i s) (S i) todo'
  end.

(** Modelled from the spec: the body of [QuickBundles.cluster], which
    the script calls and whose code is missing here. Section 4.1: an
    agglomerative, single-pass, greedy nearest-centroid assignment;
    each streamline is compared against the existing centroids, joins
    the nearest one when the minimum distance is at most the threshold
    (the centroid being updated), and founds a new cluster otherwise;
    clusters come in creation order; an empty collection yields zero
    clusters. *)
Definition cluster (threshold : Threshold) (streamlines : list Streamline)
    : list Cluster.t :=
  pass threshold [] 0 streamlines.
End Engine.
End QuickBundles.

(** ** Collaborators of the script that are not modelled in detail

    The colour helpers of [dipy.viz.colormap], the VTK actor of a bundle
    and the threshold slider of the 2D widget toolkit. *)

Class Toolkit : Type := {
  (** [distinguishable_colormap(bg=..., exclude=...)] is a generator;
      the last argument is the position in the generated sequence *)
  distinguishable_colormap : Color -> list Color -> nat -> Color;
  (** [line_colors(streamlines)]: one colour for each streamline *)
  line_colors : list Streamline -> list Color;
  (** [bundle.actor.GetLength()] of the line actor of the streamlines *)
  actor_length : list Streamline -> Q;
  (** [slider.value] after [max_value] was set and [set_ratio(ratio)] *)
  slider_ratio_value : Q -> Q -> Threshold;
  (** [slider.value] after [max_value] was set and [set_value(v)] *)
  slider_set_value : Q -> Threshold -> Threshold
}.

Definition darkcolors : list Color :=
  [(1#10, 0, 0); (1#10, 1#10, 0); (1#10, 1#10, 1#10);
   (0, 1#10, 0); (0, 1#10, 1#10);
   (0, 0, 1#10); (1#10, 0, 1#10)]%Q.

(** [l[indices]] with a list of positions: the rows at these positions,
    [IndexError] ([None]) when one of them is out of range. *)
Definition rows {A} (l : list A) (indices : list nat) : option (list A) :=
  mapM (fun i => l !! i) indices.

(** [a[indices] = v] on an array: every listed row becomes [v]. *)
Definition assign_rows {A} (l : list A) (indices : list nat) (v : A) : list A :=
  foldl (fun acc i => <[i := v]> acc) l indices.

(** ** class Bundle

    The renderer ([self.ren]) is not part of the state: a bundle is
    taken as registered with the scene, as it is whenever the session
    calls its methods. Of the VTK actors the model keeps what the script
    itself sets: visibility, and the colour array named "Colors".
    [print] calls are left out. *)

Module Bundle.

(** A streamtube actor built by [update] for one cluster; [ca_size] is
    the [len(cluster)] from which the line width is computed. *)
Record CentroidActor : Type := mkCentroidActor {
  ca_centroid : Streamline;
  ca_color : option Color;
  ca_size : nat;
  ca_visible : bool
}.

Definition SetVisibility (v : bool) (a : CentroidActor) : CentroidActor :=
  mkCentroidActor (ca_centroid a) (ca_color a) (ca_size a) v.

Record t : Type := mk {
  streamlines : list Streamline;
  color : option Color;
  centroid : option Streamline;
  clusters : option (list Cluster.t);
  clusters_colors : list (option Color);
  streamlines_colors : list Color;
  threshold_used : option Threshold;
  last_threshold : option Threshold;
  centroid_actors : list CentroidActor;
  has_changed : bool;
  centroids_visible : bool;
  streamlines_visible : bool;
  original_colors : list Color;
  colors : list Color;
  scalars : list Color;
  actor_visible : bool
}.

Definition set_clusters (v : option (list Cluster.t)) (b : t) : t :=
  mk (streamlines b) (color b) (centroid b) v (clusters_colors b)
     (streamlines_colors b) (threshold_used b) (last_threshold b)
     (centroid_actors b) (has_changed b) (centroids_visible b)
     (streamlines_visible b) (original_colors b) (colors b) (scalars b)
     (actor_visible b).
Definition set_clusters_colors (v : list (option Color)) (b : t) : t :=
  mk (streamlines b) (color b) (centroid b) (clusters b) v
     (streamlines_colors b) (threshold_used b) (last_threshold b)
     (centroid_actors b) (has_changed b) (centroids_visible b)
     (streamlines_visible b) (original_colors b) (colors b) (scalars b)
     (actor_visible b).
Definition set_streamlines_colors (v : list Color) (b : t) : t :=
  mk (streamlines b) (color b) (centroid b) (clusters b) (clusters_colors b)
     v (threshold_used b) (last_threshold b) (centroid_actors b)
     (has_changed b) (centroids_visible b) (streamlines_visible b)
     (original_colors b) (colors b) (scalars b) (actor_visible b).
Definition set_last_threshold (v : option Threshold) (b : t) : t :=
  mk (streamlines b) (color b) (centroid b) (clusters b) (clusters_colors b)
     (streamlines_colors b) (threshold_used b) v (centroid_actors b)
     (has_changed b) (centroids_visible b) (streamlines_visible b)
     (original_colors b) (colors b) (scalars b) (actor_visible b).
Definition set_centroid_actors (v : list CentroidActor) (b : t) : t :=
  mk (streamlines b) (color b) (centroid b) (clusters b) (clusters_colors b)
     (streamlines_colors b) (threshold_used b) (last_threshold b) v
     (has_changed b) (centroids_visible b) (streamlines_visible b)
     (original_colors b) (colors b) (scalars b) (actor_visible b).
Definition set_has_changed (v : bool) (b : t) : t :=
  mk (streamlines b) (color b) (centroid b) (clusters b) (clusters_colors b)
     (streamlines_colors b) (threshold_used b) (last_threshold b)
     (centroid_actors b) v (centroids_visible b) (streamlines_visible b)
     (original_colors b) (colors b) (scalars b) (actor_visible b).
Definition set_centroids_visible (v : bool) (b : t) : t :=
  mk (streamlines b) (color b) (centroid b) (clusters b) (clusters_colors b)
     (streamlines_colors b) (threshold_used b) (last_threshold b)
     (centroid_actors b) (has_changed b) v (streamlines_visible b)
     (original_colors b) (colors b) (scalars b) (actor_visible b).
Definition set_streamlines_visible (v : bool) (b : t) : t :=
  mk (streamlines b) (color b) (centroid b) (clusters b) (clusters_colors b)
     (streamlines_colors b) (threshold_used b) (last_threshold b)
     (centroid_actors b) (has_changed b) (centroids_visible b) v
     (original_colors b) (colors b) (scalars b) (actor_visible b).
Definition set_colors (v : list Color) (b : t) : t :=
  mk (streamlines b) (color b) (centroid b) (clusters b) (clusters_colors b)
     (streamlines_colors b) (threshold_used b) (last_threshold b)
     (centroid_actors b) (has_changed b) (centroids_visible b)
     (streamlines_visible b) (original_colors b) v (scalars b)
     (actor_visible b).
Definition set_scalars (v : list Color) (b : t) : t :=
  mk (streamlines b) (color b) (centroid b) (clusters b) (clusters_colors b)
     (streamlines_colors b) (threshold_used b) (last_threshold b)
     (centroid_actors b) (has_changed b) (centroids_visible b)
     (streamlines_visible b) (original_colors b) (colors b) v
     (actor_visible b).
Definition set_actor_visible (v : bool) (b : t) : t :=
  mk (streamlines b) (color b) (centroid b) (clusters b) (clusters_colors b)
     (streamlines_colors b) (threshold_used b) (last_threshold b)
     (centroid_actors b) (has_changed b) (centroids_visible b)
     (streamlines_visible b) (original_colors b) (colors b) (scalars b) v.

Section Methods.
Context `{Metric} `{Toolkit}.

Definition update : M t unit :=
  b ← get;
  if negb (has_changed b) then ret tt
  else
    modify (set_has_changed false) ;;
    modify (set_centroid_actors []) ;;
    match clusters b with
    | None => raise TypeError
    | Some cs =>
        modify (set_centroid_actors
          ((fun '(cluster, color) =>
              mkCentroidActor (Cluster.centroid cluster) color
                              (Cluster.size cluster) (centroids_visible b))
           <$> zip cs (clusters_colors b)))
    end.

Definition show_centroids : M t unit :=
  update ;;
  modify (set_centroids_visible true) ;;
  b ← get;
  modify (set_centroid_actors (SetVisibility true <$> centroid_actors b)).

Definition hide_centroids : M t unit :=
  modify (set_centroids_visible false) ;;
  b ← get;
  modify (set_centroid_actors (SetVisibility false <$> centroid_actors b)).

Definition show_streamlines : M t unit :=
  modify (set_streamlines_visible true) ;;
  modify (set_actor_visible true).

Definition hide_streamlines : M t unit :=
  modify (set_streamlines_visible false) ;;
  modify (set_actor_visible false).

(** [scalars] is the array named "Colors" that the actor is given; the
    colours are kept as the script has them before it scales them by 255
    for VTK. The [cluster.indices] that [QuickBundles.cluster] returns
    are positions of [self.streamlines] (lemma [cluster_indices]), so
    the assignment by positions never meets one out of range. *)
Definition _cluster (threshold : Threshold) : M t unit :=
  b ← get;
  modify (set_last_threshold (Some threshold)) ;;
  let cs := QuickBundles.cluster threshold (streamlines b) in
  modify (set_clusters (Some cs)) ;;
  let generated :=
    distinguishable_colormap (0, 0, 0)%Q darkcolors <$> seq 0 (length cs) in
  modify (set_clusters_colors (Some <$> generated)) ;;
  modify (set_has_changed true) ;;
  if decide (length cs = 1) then
    modify (set_clusters_colors
              [match color b with
               | Some c => Some c
               | None => Some (0, 0, 1)%Q
               end]) ;;
    modify (set_scalars (original_colors b))
  else
    let streamlines_colors' :=
      foldl (fun acc '(cluster, color) =>
               assign_rows acc (Cluster.indices cluster) color)
            (streamlines_colors b) (zip cs generated) in
    modify (set_streamlines_colors streamlines_colors') ;;
    let colors' :=
      flat_map (fun '(color, streamline) => replicate (length streamline) color)
               (zip streamlines_colors' (streamlines b)) in
    modify (set_colors colors') ;;
    modify (set_scalars colors').

Definition preview (threshold : Threshold) : M t nat :=
  _cluster threshold ;;
  update ;;
  b ← get;
  match clusters b with
  | Some cs => ret (length cs)
  | None => raise TypeError
  end.

Definition reset : M t unit :=
  _cluster Infinity ;;
  update.

(** Lines 106 to 130 of the constructor: the attributes as they are
    first assigned. [clusters] is the empty list of line 109, and no
    clustering has run yet. *)
Definition before_clustering (streamlines : list Streamline)
    (centroid : option Streamline) (threshold_used : option Threshold)
    (color : option Color) : t :=
  let per_line :=
    flat_map (fun '(c, streamline) => replicate (length streamline) c)
             (zip (line_colors streamlines) streamlines) in
  let original_colors :=
    match color with
    | Some c => (fun _ => c) <$> per_line
    | None => per_line
    end in
  mk streamlines color centroid (Some []) [None]
     (replicate (length streamlines) (1, 1, 1)%Q)
     threshold_used None [] true false true original_colors [] [] true.

(** [Bundle(streamlines, centroid, threshold_used, color)]: the
    attributes, then [self._cluster(np.inf)] of line 132. Without
    streamlines the constructor raises: [np.repeat] of the empty
    [lines_range] (line 127) is an empty array of floats, which line 128
    refuses as an index, [IndexError], here [None]. *)
Definition __init__ (streamlines : list Streamline)
    (centroid : option Streamline) (threshold_used : option Threshold)
    (color : option Color) : option t :=
  match streamlines with
  | [] => None
  | _ :: _ =>
      Some (state_of (_cluster Infinity
              (before_clustering streamlines centroid threshold_used color)))
  end.

(** The body of both loops of [get_cluster_as_bundles]:
    [Bundle(self.streamlines[cluster.indices], cluster.centroid,
            self.last_threshold, color)];
    [IndexError] ([None]) from the indexing when a position is out of
    range, and from the constructor when the cluster lists no position. *)
Definition bundle_of_cluster (b : t) (cluster : Cluster.t)
    (color : option Color) : option t :=
  sl ← rows (streamlines b) (Cluster.indices cluster);
  __init__ sl (Some (Cluster.centroid cluster)) (last_threshold b) color.

Definition get_cluster_as_bundles : M t (list t) :=
  b ← get;
  match clusters b with
  | None => raise NameError
  | Some cs =>
      if decide (length cs = 1) then
        match cs !! 0 with
        | None => raise IndexError
        | Some c0 =>
            match bundle_of_cluster b c0 (color b) with
            | None => raise IndexError
            | Some bundle => ret [bundle]
            end
        end
      else
        match mapM (fun '(cluster, color) => bundle_of_cluster b cluster color)
                   (zip cs (clusters_colors b)) with
        | None => raise IndexError
        | Some bundles => ret bundles
        end
  end.

(** [ren.add(self.actor)]: nothing of the modelled state changes. *)
Definition add_to_renderer : M t unit := ret tt.

Definition remove_from_renderer : M t unit :=
  modify (set_centroid_actors []).

End Methods.
End Bundle.

(** ** [collections.deque(maxlen=...)]

    The right end of the deque is the end of the list. *)

Record deque (A : Type) : Type := mkdeque {
  maxlen : option nat;
  items : list A
}.
Arguments mkdeque {A} maxlen items.
Arguments maxlen {A} d.
Arguments items {A} d.

(** [deque(maxlen=n)]: [ValueError] ([None]) for a negative [n]. *)
Definition deque_new {A} (n : option Z) : option (deque A) :=
  match n with
  | None => Some (mkdeque None [])
  | Some z => if (z <? 0)%Z then None else Some (mkdeque (Some (Z.to_nat z)) [])
  end.

(** [d.append(x)]: the item goes to the right end; a deque that is then
    longer than [maxlen] drops its leftmost item. *)
Definition deque_append {A} (x : A) (d : deque A) : deque A :=
  let l := items d ++ [x] in
  match maxlen d with
  | Some m => mkdeque (Some m) (if decide (m < length l) then tail l else l)
  | None => mkdeque None l
  end.

(** [d.pop()]: the rightmost item, [IndexError] ([None]) when empty. *)
Definition deque_pop {A} (d : deque A) : option (A * deque A) :=
  match last (items d) with
  | Some x => Some (x, mkdeque (maxlen d) (removelast (items d)))
  | None => None
  end.

Definition deque_clear {A} (d : deque A) : deque A :=
  mkdeque (maxlen d) [].

(** ** Small pieces of Python and numpy *)

(** [l[:-n]] for a length [n]; [-0] is [0], so [l[:-0]] is [l[:0]]. *)
Definition slice_to_minus {A} (l : list A) (n : nat) : list A :=
  if decide (n = 0) then [] else take (length l - n) l.

(** [l.index(x)]: the first position of [x]. *)
Definition index {A} `{EqDecision A} (l : list A) (x : A) : option nat :=
  fst <$> list_find (fun y => y = x) l.

(** [l.remove(x)]: the list without the first [x]. *)
Fixpoint remove {A} `{EqDecision A} (l : list A) (x : A) : option (list A) :=
  match l with
  | [] => None
  | y :: l' => if decide (y = x) then Some l'
               else cons y <$> remove l' x
  end.

(** [sorted(keys)] on strings. *)
Definition sorted (l : list string) : list string :=
  merge_sort String.le l.

(** The order [np.lexsort((keys, sizes))] sorts positions by: the last
    array is the primary key, the first one the secondary key, and the
    sort is stable. An entry is (size, key, position). *)
Definition lexsort_le (x y : nat * string * nat) : Prop :=
  let '(sx, kx, ix) := x in
  let '(sy, ky, iy) := y in
  sx < sy \/
  (sx = sy /\ ((kx <> ky /\ String.le kx ky) \/ (kx = ky /\ ix <= iy))).

Global Instance lexsort_le_dec : RelDecision lexsort_le.
Proof. intros [[sx kx] ix] [[sy ky] iy]. unfold lexsort_le. apply _. Defined.

(** [np.lexsort((keys, sizes)).tolist()] *)
Definition lexsort (keys : list string) (sizes : list nat) : list nat :=
  snd <$> merge_sort lexsort_le
            (imap (fun i '(size, key) => (size, key, i)) (zip sizes keys)).

(** ["{}{}/".format(parent, i)] *)
Definition child_name (parent : string) (i : nat) : string :=
  parent +:+ NilZero.string_of_uint (Nat.to_uint i) +:+ "/".

(** ** class StreamlinesVizu

    Python objects are shared: the undo memory and the registry hold the
    same [Bundle] object, and a method called through one is seen
    through the other. Bundles therefore live in a store ([heap]) and
    the registry and the undo records hold references into it.

    The state is the one after [__init__] and [initialize_scene]. Files,
    the camera, the anatomy panel and the drawing mode are left out, and
    so are the opacity and the button colour that
    [_set_bundles_visibility] sets. *)

Definition ref : Type := nat.

(** An entry of [undo_memory]:
    [{"action": ..., "bundle_name": ..., "bundle": ...}] *)
Record Memory : Type := mkMemory {
  action : string;
  bundle_name : string;
  bundle : ref
}.

(** What [heap !!! r] is for a reference that is not in the store. The
    references that the registry and the undo memory of a session hold
    are all in the store ([refs_present] below, which every state
    reached from the constructor satisfies). *)
Global Instance Bundle_inhabited : Inhabited Bundle.t :=
  populate (Bundle.mk [] None None None [] [] None None [] false false true
                      [] [] [] false).

Module StreamlinesVizu.

Record t : Type := mk {
  default_clustering_threshold : option Threshold;
  inliers : list Streamline;
  outliers : list Streamline;
  undo_memory : deque Memory;
  cpt : option nat;
  bundles : gmap string ref;
  keys : list string;
  selected_bundle : option string;
  last_threshold : option Threshold;
  last_bundles_visibility_state : string;
  like_dislike_panel : bool;
  clustering_panel : bool;
  centroids_toggle_button : string;
  heap : gmap ref Bundle.t;
  next_ref : ref
}.

Definition set_inliers (v : list Streamline) (s : t) : t :=
  mk (default_clustering_threshold s) v (outliers s) (undo_memory s) (cpt s)
     (bundles s) (keys s) (selected_bundle s) (last_threshold s)
     (last_bundles_visibility_state s) (like_dislike_panel s)
     (clustering_panel s) (centroids_toggle_button s) (heap s) (next_ref s).
Definition set_outliers (v : list Streamline) (s : t) : t :=
  mk (default_clustering_threshold s) (inliers s) v (undo_memory s) (cpt s)
     (bundles s) (keys s) (selected_bundle s) (last_threshold s)
     (last_bundles_visibility_state s) (like_dislike_panel s)
     (clustering_panel s) (centroids_toggle_button s) (heap s) (next_ref s).
Definition set_undo_memory (v : deque Memory) (s : t) : t :=
  mk (default_clustering_threshold s) (inliers s) (outliers s) v (cpt s)
     (bundles s) (keys s) (selected_bundle s) (last_threshold s)
     (last_bundles_visibility_state s) (like_dislike_panel s)
     (clustering_panel s) (centroids_toggle_button s) (heap s) (next_ref s).
Definition set_cpt (v : option nat) (s : t) : t :=
  mk (default_clustering_threshold s) (inliers s) (outliers s)
     (undo_memory s) v (bundles s) (keys s) (selected_bundle s)
     (last_threshold s) (last_bundles_visibility_state s)
     (like_dislike_panel s) (clustering_panel s) (centroids_toggle_button s)
     (heap s) (next_ref s).
Definition set_bundles (v : gmap string ref) (s : t) : t :=
  mk (default_clustering_threshold s) (inliers s) (outliers s)
     (undo_memory s) (cpt s) v (keys s) (selected_bundle s)
     (last_threshold s) (last_bundles_visibility_state s)
     (like_dislike_panel s) (clustering_panel s) (centroids_toggle_button s)
     (heap s) (next_ref s).
Definition set_keys (v : list string) (s : t) : t :=
  mk (default_clustering_threshold s) (inliers s) (outliers s)
     (undo_memory s) (cpt s) (bundles s) v (selected_bundle s)
     (last_threshold s) (last_bundles_visibility_state s)
     (like_dislike_panel s) (clustering_panel s) (centroids_toggle_button s)
     (heap s) (next_ref s).
Definition set_selected_bundle (v : option string) (s : t) : t :=
  mk (default_clustering_threshold s) (inliers s) (outliers s)
     (undo_memory s) (cpt s) (bundles s) (keys s) v (last_threshold s)
     (last_bundles_visibility_state s) (like_dislike_panel s)
     (clustering_panel s) (centroids_toggle_button s) (heap s) (next_ref s).
Definition set_last_threshold (v : option Threshold) (s : t) : t :=
  mk (default_clustering_threshold s) (inliers s) (outliers s)
     (undo_memory s) (cpt s) (bundles s) (keys s) (selected_bundle s) v
     (last_bundles_visibility_state s) (like_dislike_panel s)
     (clustering_panel s) (centroids_toggle_button s) (heap s) (next_ref s).
Definition set_last_bundles_visibility_state (v : string) (s : t) : t :=
  mk (default_clustering_threshold s) (inliers s) (outliers s)
     (undo_memory s) (cpt s) (bundles s) (keys s) (selected_bundle s)
     (last_threshold s) v (like_dislike_panel s) (clustering_panel s)
     (centroids_toggle_button s) (heap s) (next_ref s).
Definition set_like_dislike_panel (v : bool) (s : t) : t :=
  mk (default_clustering_threshold s) (inliers s) (outliers s)
     (undo_memory s) (cpt s) (bundles s) (keys s) (selected_bundle s)
     (last_threshold s) (last_bundles_visibility_state s) v
     (clustering_panel s) (centroids_toggle_button s) (heap s) (next_ref s).
Definition set_clustering_panel (v : bool) (s : t) : t :=
  mk (default_clustering_threshold s) (inliers s) (outliers s)
     (undo_memory s) (cpt s) (bundles s) (keys s) (selected_bundle s)
     (last_threshold s) (last_bundles_visibility_state s)
     (like_dislike_panel s) v (centroids_toggle_button s) (heap s)
     (next_ref s).
Definition set_centroids_toggle_button (v : string) (s : t) : t :=
  mk (default_clustering_threshold s) (inliers s) (outliers s)
     (undo_memory s) (cpt s) (bundles s) (keys s) (selected_bundle s)
     (last_threshold s) (last_bundles_visibility_state s)
     (like_dislike_panel s) (clustering_panel s) v (heap s) (next_ref s).
Definition set_heap (v : gmap ref Bundle.t) (s : t) : t :=
  mk (default_clustering_threshold s) (inliers s) (outliers s)
     (undo_memory s) (cpt s) (bundles s) (keys s) (selected_bundle s)
     (last_threshold s) (last_bundles_visibility_state s)
     (like_dislike_panel s) (clustering_panel s) (centroids_toggle_button s)
     v (next_ref s).
Definition set_next_ref (v : ref) (s : t) : t :=
  mk (default_clustering_threshold s) (inliers s) (outliers s)
     (undo_memory s) (cpt s) (bundles s) (keys s) (selected_bundle s)
     (last_threshold s) (last_bundles_visibility_state s)
     (like_dislike_panel s) (clustering_panel s) (centroids_toggle_button s)
     (heap s) v.

Definition root_bundle : string := "/".

(** A method of the bundle object behind [r], run on the store. *)
Definition on_bundle {A} (r : ref) (m : M Bundle.t A) : M t A :=
  fun s =>
    match m (heap s !!! r) with
    | Ok a b => Ok a (set_heap (<[r := b]> (heap s)) s)
    | Raise e b => Raise e (set_heap (<[r := b]> (heap s)) s)
    end.

(** A newly constructed bundle object enters the store. *)
Definition new_bundle (b : Bundle.t) : M t ref :=
  s ← get;
  let r := next_ref s in
  modify (set_heap (<[r := b]> (heap s))) ;;
  modify (set_next_ref (S r)) ;;
  ret r.

(** [self.bundles[name]] *)
Definition bundles_getitem (name : option string) : M t ref :=
  s ← get;
  match name ≫= (fun k => bundles s !! k) with
  | Some r => ret r
  | None => raise KeyError
  end.

(** [list(self.bundles.values())] *)
Definition bundles_values (s : t) : list ref :=
  snd <$> map_to_list (bundles s).

Section Methods.
Context `{Metric} `{Toolkit}.

Definition _set_bundles_visibility (state : string)
    (bundles : option (list ref)) (exclude : list ref) : M t unit :=
  s ← get;
  let bundles := match bundles with
                 | Some l => l
                 | None => bundles_values s
                 end in
  visibility ←
    (if decide (state = "visible") then
       ret true
     else if decide (state = "dimmed") then
       modify (set_last_bundles_visibility_state "dimmed") ;;
       ret true
     else if decide (state = "hidden") then
       modify (set_last_bundles_visibility_state "hidden") ;;
       ret false
     else raise ValueError);
  for_each bundles (fun bundle =>
    if decide (bundle ∈ exclude) then ret tt
    else on_bundle bundle (modify (Bundle.set_actor_visible visibility))).

Definition add_bundle (bundle_name : string) (bundle : ref) : M t unit :=
  s ← get;
  modify (set_keys (keys s ++ [bundle_name])) ;;
  modify (set_keys (sorted (keys s ++ [bundle_name]))) ;;
  on_bundle bundle Bundle.add_to_renderer ;;
  modify (set_bundles (<[bundle_name := bundle]> (bundles s))).

Definition remove_bundle (bundle_name : string) : M t unit :=
  s ← get;
  match remove (keys s) bundle_name with
  | None => raise ValueError
  | Some keys' =>
      modify (set_keys keys') ;;
      modify (set_keys (sorted keys')) ;;
      bundle ← bundles_getitem (Some bundle_name);
      on_bundle bundle Bundle.remove_from_renderer ;;
      modify (set_bundles (delete bundle_name (bundles s)))
  end.

Definition select (bundle_name : option string) : M t unit :=
  s ← get;
  match selected_bundle s ≫= (fun k => bundles s !! k) with
  | Some bundle => on_bundle bundle Bundle.reset
  | None => ret tt
  end ;;
  match bundle_name with
  | None =>
      modify (set_selected_bundle None) ;;
      modify (set_like_dislike_panel false) ;;
      modify (set_clustering_panel false) ;;
      _set_bundles_visibility "visible" None [] ;;
      modify (set_cpt None)
  | Some name =>
      modify (set_selected_bundle (Some name)) ;;
      bundle ← bundles_getitem (Some name);
      b ← gets (fun s => heap s !!! bundle);
      let max_value := (actor_length (Bundle.streamlines b) / 2)%Q in
      let value :=
        match default_clustering_threshold s with
        | None => slider_ratio_value max_value 1
        | Some threshold => slider_set_value max_value threshold
        end in
      modify (set_clustering_panel true) ;;
      modify (set_like_dislike_panel true) ;;
      _set_bundles_visibility "visible" (Some [bundle]) [] ;;
      last ← gets last_bundles_visibility_state;
      _set_bundles_visibility last None [bundle] ;;
      on_bundle bundle (Bundle.preview value) ;;
      ret tt
  end.

(** [[len(self.bundles[k].streamlines) for k in self.keys]] *)
Fixpoint sizes (keys : list string) : M t (list nat) :=
  match keys with
  | [] => ret []
  | k :: keys' =>
      bundle ← bundles_getitem (Some k);
      b ← gets (fun s => heap s !!! bundle);
      rest ← sizes keys';
      ret (length (Bundle.streamlines b) :: rest)
  end.

(** [keys[indices[cpt]]] *)
Definition key_at (keys : list string) (indices : list nat) (cpt : nat)
    : M t string :=
  match indices !! cpt ≫= (fun i => keys !! i) with
  | Some k => ret k
  | None => raise IndexError
  end.

(** [indices.index(self.keys.index(self.selected_bundle))] *)
Definition position (keys : list string) (indices : list nat)
    (selected : string) : M t nat :=
  match index keys selected ≫= index indices with
  | Some cpt => ret cpt
  | None => raise ValueError
  end.

Definition select_next : M t unit :=
  s ← get;
  szs ← sizes (keys s);
  let indices := reverse (lexsort (keys s) szs) in
  cpt ← match selected_bundle s with
        | None => ret 0
        | Some selected =>
            cpt ← position (keys s) indices selected;
            ret ((cpt + 1) mod length (keys s))
        end;
  name ← key_at (keys s) indices cpt;
  select (Some name).

Definition select_previous : M t unit :=
  s ← get;
  szs ← sizes (keys s);
  let indices := reverse (lexsort (keys s) szs) in
  cpt ← match selected_bundle s with
        | None => ret 0
        | Some selected =>
            cpt ← position (keys s) indices selected;
            ret (Z.to_nat ((Z.of_nat cpt - 1) mod Z.of_nat (length (keys s))))
        end;
  name ← key_at (keys s) indices cpt;
  select (Some name).

(** The "like" action of [_make_like_dislike_panel]. *)
Definition like_bundle : M t unit :=
  s ← get;
  bundle ← bundles_getitem (selected_bundle s);
  let bundle_name := default "" (selected_bundle s) in
  b ← gets (fun s => heap s !!! bundle);
  modify (set_undo_memory
            (deque_append (mkMemory "like" bundle_name bundle) (undo_memory s))) ;;
  modify (set_inliers (inliers s ++ Bundle.streamlines b)) ;;
  select_next ;;
  remove_bundle bundle_name.

Definition dislike_bundle : M t unit :=
  s ← get;
  bundle ← bundles_getitem (selected_bundle s);
  let bundle_name := default "" (selected_bundle s) in
  b ← gets (fun s => heap s !!! bundle);
  modify (set_undo_memory
            (deque_append (mkMemory "dislike" bundle_name bundle) (undo_memory s))) ;;
  modify (set_outliers (outliers s ++ Bundle.streamlines b)) ;;
  select_next ;;
  remove_bundle bundle_name.

Definition undo : M t unit :=
  s ← get;
  match deque_pop (undo_memory s) with
  | None => ret tt
  | Some (memory, rest) =>
      modify (set_undo_memory rest) ;;
      b ← gets (fun s => heap s !!! bundle memory);
      let n := length (Bundle.streamlines b) in
      if decide (action memory = "like") then
        modify (set_inliers (slice_to_minus (inliers s) n)) ;;
        add_bundle (bundle_name memory) (bundle memory) ;;
        select (Some (bundle_name memory))
      else if decide (action memory = "dislike") then
        modify (set_outliers (slice_to_minus (outliers s) n)) ;;
        add_bundle (bundle_name memory) (bundle memory) ;;
        select (Some (bundle_name memory))
      else ret tt
  end.

(** The loop of [apply_button_callback] over [enumerate(bundles)]. *)
Fixpoint add_children (parent : string) (i : nat) (children : list Bundle.t)
    : M t unit :=
  match children with
  | [] => ret tt
  | child :: children' =>
      bundle ← new_bundle child;
      add_bundle (child_name parent i) bundle ;;
      add_children parent (S i) children'
  end.

Definition apply_button_callback : M t unit :=
  s ← get;
  bundle ← bundles_getitem (selected_bundle s);
  let parent := default "" (selected_bundle s) in
  children ← on_bundle bundle Bundle.get_cluster_as_bundles;
  add_children parent 0 children ;;
  remove_bundle parent ;;
  select None.

Definition toggle_other_bundles_visibility : M t unit :=
  s ← get;
  if decide (last_bundles_visibility_state s = "dimmed") then
    modify (set_last_bundles_visibility_state "hidden") ;;
    bundle ← bundles_getitem (selected_bundle s);
    _set_bundles_visibility "hidden" None [bundle]
  else if decide (last_bundles_visibility_state s = "hidden") then
    modify (set_last_bundles_visibility_state "dimmed") ;;
    bundle ← bundles_getitem (selected_bundle s);
    _set_bundles_visibility "dimmed" None [bundle]
  else ret tt.

(** [disk_move_callback]; [threshold] is [slider.value] once the slider
    has followed the pointer. *)
Definition disk_move_callback (threshold : Threshold) : M t unit :=
  s ← get;
  let changed := match last_threshold s with
                 | None => true
                 | Some t => Threshold_neqb t threshold
                 end in
  if changed then
    bundle ← bundles_getitem (selected_bundle s);
    on_bundle bundle (Bundle.preview threshold) ;;
    modify (set_last_threshold (Some threshold))
  else ret tt.

(** What [save_button_callback] does to the session; the files it
    writes are not modelled. *)
Definition save_button_callback : M t unit :=
  s ← get;
  modify (set_undo_memory (deque_clear (undo_memory s))).

(** [for bundle in self.bundles.values():
         bundle.show_centroids(); bundle.hide_streamlines()] *)
Definition show_all_centroids : M t unit :=
  s ← get;
  for_each (bundles_values s) (fun bundle =>
    on_bundle bundle Bundle.show_centroids ;;
    on_bundle bundle Bundle.hide_streamlines).

(** [for bundle in self.bundles.values():
         bundle.hide_centroids(); bundle.show_streamlines()] *)
Definition show_all_streamlines : M t unit :=
  s ← get;
  for_each (bundles_values s) (fun bundle =>
    on_bundle bundle Bundle.hide_centroids ;;
    on_bundle bundle Bundle.show_streamlines).

Definition centroids_toggle_button_callback : M t unit :=
  s ← get;
  if decide (centroids_toggle_button s = "streamlines") then
    modify (set_centroids_toggle_button "centroids") ;;
    show_all_centroids
  else if decide (centroids_toggle_button s = "centroids") then
    modify (set_centroids_toggle_button "streamlines") ;;
    show_all_streamlines
  else ret tt.

(** The keys the script binds. *)
Inductive key : Type :=
  | Escape | Tab | ShiftTab | Space
  | Key_c | Key_C | Key_a | Key_r | Key_u.

(** The three [CharEvent] observers; for each key at most one of them
    does something to the session. *)
Definition shortcut_keys_onchar_callback (k : key) : M t unit :=
  match k with
  | Escape => select None
  | Tab => select_next
  | ShiftTab => select_previous
  | Key_c => show_all_centroids
  | Key_C => show_all_streamlines
  | _ => ret tt
  end.

Definition like_dislike_undo_onchar_callback (k : key) : M t unit :=
  match k with Key_u => undo | _ => ret tt end ;;
  s ← get;
  match selected_bundle s with
  | None => ret tt
  | Some _ =>
      match k with
      | Key_r => dislike_bundle
      | Key_a => like_bundle
      | _ => ret tt
      end
  end.

Definition toggle_visibility_onchar_callback (k : key) : M t unit :=
  s ← get;
  match selected_bundle s with
  | None => ret tt
  | Some _ =>
      match k with
      | Space => toggle_other_bundles_visibility
      | _ => ret tt
      end
  end.

(** What the user can do. The reset ("home") button is left out: its
    handler removes entries from [self.bundles] inside a loop over
    [self.bundles.items()], and what that does depends on the
    interpreter. *)
Inductive event : Type :=
  | CharEvent (k : key)
  | LikeButton
  | DislikeButton
  | ApplyButton
  | SaveButton
  | ShowDimHideButton
  | CentroidsToggleButton
  | SliderMove (threshold : Threshold)
  | RightButtonPress (bundle_name : string).

Definition handler (e : event) : M t unit :=
  match e with
  | CharEvent k =>
      match k with
      | Space => toggle_visibility_onchar_callback k
      | Key_a | Key_r | Key_u => like_dislike_undo_onchar_callback k
      | _ => shortcut_keys_onchar_callback k
      end
  | LikeButton => like_bundle
  | DislikeButton => dislike_bundle
  | ApplyButton => apply_button_callback
  | SaveButton => save_button_callback
  | ShowDimHideButton => toggle_other_bundles_visibility
  | CentroidsToggleButton => centroids_toggle_button_callback
  | SliderMove threshold => disk_move_callback threshold
  | RightButtonPress bundle_name =>
      (* the click is on the actor of a bundle of the scene *)
      s ← get;
      if decide (is_Some (bundles s !! bundle_name))
      then select (Some bundle_name) else ret tt
  end.

(** The event loop: an exception of a handler ends that handler and
    nothing else. *)
Definition step (s : t) (e : event) : t := state_of (handler e s).

Definition run (s : t) (events : list event) : t := foldl step s events.

(** [StreamlinesVizu(tractogram, default_clustering_threshold=...,
    undo_memory_size=...)] followed by [initialize_scene()];
    [None] when the constructor raises: [ValueError] when the deque
    refuses its [maxlen] (line 253), [IndexError] when the tractogram
    has no streamline for the root bundle (line 259). *)
Definition __init__ (tractogram : list Streamline)
    (default_clustering_threshold : option Threshold)
    (undo_memory_size : option Z) : option t :=
  undo_memory ← deque_new undo_memory_size;
  root ← Bundle.__init__ tractogram None (Some Infinity) None;
  Some (mk default_clustering_threshold [] [] undo_memory None
           {[ root_bundle := 0 ]} [root_bundle] None None "dimmed"
           false false "streamlines" {[ 0 := root ]} 1).

End Methods.
End StreamlinesVizu.

(** ** A concrete metric and toolkit, to run the model on inputs

    [Demo.metric] is the average point-wise distance with the point-wise
    mean as centroid, on polylines that are already resampled. Between
    translates of one polyline along the x axis every point-wise
    Euclidean distance is the absolute difference of the offsets, which
    is what [Demo.pointwise] computes there. *)

Module Demo.

Definition pointwise (p q : Point) : Q :=
  let '(x1, y1, z1) := p in
  let '(x2, y2, z2) := q in
  (Qabs (x1 - x2) + Qabs (y1 - y2) + Qabs (z1 - z2))%Q.

Definition mean_distance (a b : Streamline) : Q :=
  (foldr Qplus 0 (zip_with pointwise a b) / inject_Z (Z.of_nat (length a)))%Q.

Definition mean_point (n : nat) (p q : Point) : Point :=
  let '(x1, y1, z1) := p in
  let '(x2, y2, z2) := q in
  let w := inject_Z (Z.of_nat n) in
  (Qred ((x1 * w + x2) / (w + 1)), Qred ((y1 * w + y2) / (w + 1)),
   Qred ((z1 * w + z2) / (w + 1)))%Q.

Definition metric : Metric :=
  {| extract := fun s => s;
     dist := mean_distance;
     merge := fun c n f => zip_with (mean_point n) c f |}.

Definition toolkit : Toolkit :=
  {| distinguishable_colormap := fun _ _ i =>
       (1, inject_Z (Z.of_nat i) / inject_Z (Z.of_nat (S i)), 0)%Q;
     line_colors := fun sl => (fun _ => (1, 0, 0)%Q) <$> sl;
     actor_length := fun _ => 100%Q;
     slider_ratio_value := fun max_value ratio => Finite (max_value * ratio);
     slider_set_value := fun _ v => v |}.

(** The segment from (x, 0, 0) to (x, 1, 0). *)
Definition segment (x : Q) : Streamline := [(x, 0, 0); (x, 1, 0)]%Q.

Definition four_segments : list Streamline :=
  [segment 0; segment 30; segment (-20); segment 50].

(** The bundle of the four segments. *)
Definition bundle : Bundle.t :=
  default inhabitant
    (@Bundle.__init__ metric toolkit four_segments None (Some Infinity) None).

(** The four segments as the slider at 25 splits them: two clusters. *)
Definition split_bundle : Bundle.t :=
  state_of (@Bundle.preview metric toolkit (Finite 25) bundle).

Definition blank : StreamlinesVizu.t :=
  StreamlinesVizu.mk None [] [] (mkdeque None []) None ∅ [] None None
                     "dimmed" false false "streamlines" ∅ 0.

(** A session on the four segments: the root bundle is selected, split
    in two at threshold 25, and the tab key selects one of the halves. *)
Definition events : list StreamlinesVizu.event :=
  [StreamlinesVizu.RightButtonPress "/";
   StreamlinesVizu.SliderMove (Finite 25);
   StreamlinesVizu.ApplyButton;
   StreamlinesVizu.CharEvent StreamlinesVizu.Tab].

Definition fresh_session (undo_memory_size : Z) : StreamlinesVizu.t :=
  default blank
    (@StreamlinesVizu.__init__ metric toolkit four_segments None
       (Some undo_memory_size)).

Definition session (undo_memory_size : Z) : StreamlinesVizu.t :=
  @StreamlinesVizu.run metric toolkit (fresh_session undo_memory_size) events.

End Demo.

(** ** Notions used in the statements *)

(** The value a call returned, if it did return. *)
Definition returned {S A} (r : Res S A) : option A :=
  match r with Ok a _ => Some a | Raise _ _ => None end.

(** What a bundle is made of for its whole life. *)
Definition contents (b : Bundle.t)
    : list Streamline * option Color * option Streamline * option Threshold :=
  (Bundle.streamlines b, Bundle.color b, Bundle.centroid b,
   Bundle.threshold_used b).

(** The two flags of the representation. *)
Definition flags (b : Bundle.t) : bool * bool :=
  (Bundle.streamlines_visible b, Bundle.centroids_visible b).

(** Exactly one of the two representations is the active one. *)
Definition exactly_one (f : bool * bool) : Prop := f.1 = negb f.2.

Definition one_representation (b : Bundle.t) : Prop := exactly_one (flags b).

(** The positions listed by the clusters of a bundle are positions of
    its streamlines. *)
Definition indices_in_range (b : Bundle.t) (cs : list Cluster.t) : Prop :=
  Forall (fun c => Forall (fun i => i < length (Bundle.streamlines b))
                          (Cluster.indices c)) cs.

(** Every cluster lists at least one position. *)
Definition no_empty_cluster (cs : list Cluster.t) : Prop :=
  Forall (fun c => Cluster.indices c <> []) cs.

(** What the script does with a bundle object once it is built: it
    calls one of its methods, or sets the visibility of its line actor
    ([bundle.actor.SetVisibility], in [_set_bundles_visibility]). *)
Inductive call : Type :=
  | call_add_to_renderer
  | call_remove_from_renderer
  | call_update
  | call_show_centroids
  | call_hide_centroids
  | call_show_streamlines
  | call_hide_streamlines
  | call_preview (threshold : Threshold)
  | call_reset
  | call__cluster (threshold : Threshold)
  | call_get_cluster_as_bundles
  | call_SetVisibility (visibility : bool).



(** A Hoare triple for the monad: from a state in [P] the call either
    returns a value and a state in [Q] or raises from a state in [E]. *)
Definition hoare {S A} (P : S -> Prop) (m : M S A)
    (Q : A -> S -> Prop) (E : S -> Prop) : Prop :=
  forall s, P s ->
    match m s with
    | Ok a s' => Q a s'
    | Raise _ s' => E s'
    end.

(** [P] holds after the call whenever it held before, whether the call
    returns or raises. *)
Definition keeps {S A} (P : S -> Prop) (m : M S A) : Prop :=
  hoare P m (fun _ => P) P.

(** The undo memory has capacity [K] and holds at most [K] entries. *)
Definition bounded (K : nat) (d : deque Memory) : Prop :=
  maxlen d = Some K /\ length (items d) <= K.

(** What the event loop maintains: a property [Θ] of the undo memory,
    the key list, the registry and the remembered background state, a
    property [ψ] of the flags of every bundle object of the store, and
    the presence in the store of the references in [R]. *)
Definition session_invariant
    (Θ : deque Memory -> list string -> gmap string ref -> string -> Prop)
    (ψ : bool * bool -> Prop) (R : ref -> Prop)
    (s : StreamlinesVizu.t) : Prop :=
  Θ (StreamlinesVizu.undo_memory s) (StreamlinesVizu.keys s)
    (StreamlinesVizu.bundles s)
    (StreamlinesVizu.last_bundles_visibility_state s) /\
  (forall r b, StreamlinesVizu.heap s !! r = Some b -> ψ (flags b)) /\
  (forall r, R r -> is_Some (StreamlinesVizu.heap s !! r)).

(** No reference in particular. *)
Definition no_ref : ref -> Prop := fun _ => False.

(** A property of the undo memory alone. *)
Definition of_memory (Φ : deque Memory -> Prop)
    : deque Memory -> list string -> gmap string ref -> string -> Prop :=
  fun d _ _ _ => Φ d.

(** The undo memory, the key list and the registry are the given ones,
    and the remembered background state is one of the two. *)
Definition registry_is (d0 : deque Memory) (ks0 : list string)
    (bs0 : gmap string ref)
    : deque Memory -> list string -> gmap string ref -> string -> Prop :=
  fun d ks bs l =>
    d = d0 /\ ks = ks0 /\ bs = bs0 /\ (l = "dimmed" \/ l = "hidden").

(** The key list of the registry is sorted, without duplicates, and
    lists exactly the names the registry maps. *)
Definition registry_consistent (s : StreamlinesVizu.t) : Prop :=
  Sorted String.le (StreamlinesVizu.keys s) /\
  NoDup (StreamlinesVizu.keys s) /\
  forall k, k ∈ StreamlinesVizu.keys s <->
            is_Some (StreamlinesVizu.bundles s !! k).

(** A registry state as the session keeps it: consistent keys, and a
    remembered background state that is one of the two the script ever
    stores. *)
Definition well_formed (s : StreamlinesVizu.t) : Prop :=
  registry_consistent s /\
  (StreamlinesVizu.last_bundles_visibility_state s = "dimmed" \/
   StreamlinesVizu.last_bundles_visibility_state s = "hidden").

(** Two states with the same registry, the same outcome collections,
    the same undo memory and the same selection, whose bundle objects
    are made of the same streamlines. *)
Definition frame (s s' : StreamlinesVizu.t) : Prop :=
  StreamlinesVizu.keys s' = StreamlinesVizu.keys s /\
  StreamlinesVizu.bundles s' = StreamlinesVizu.bundles s /\
  StreamlinesVizu.inliers s' = StreamlinesVizu.inliers s /\
  StreamlinesVizu.outliers s' = StreamlinesVizu.outliers s /\
  StreamlinesVizu.undo_memory s' = StreamlinesVizu.undo_memory s /\
  StreamlinesVizu.selected_bundle s' = StreamlinesVizu.selected_bundle s /\
  StreamlinesVizu.default_clustering_threshold s' =
    StreamlinesVizu.default_clustering_threshold s /\
  StreamlinesVizu.last_bundles_visibility_state s' =
    StreamlinesVizu.last_bundles_visibility_state s /\
  forall r, contents (StreamlinesVizu.heap s' !!! r) =
            contents (StreamlinesVizu.heap s !!! r).

(** A call that returns and stays within the frame. *)
Definition steady {A} (m : M StreamlinesVizu.t A) : Prop :=
  forall s, exists a s', m s = Ok a s' /\ frame s s'.

(** [len(self.bundles[k].streamlines)] *)
Definition size_of (s : StreamlinesVizu.t) (k : string) : nat :=
  length (Bundle.streamlines
            (StreamlinesVizu.heap s !!! (StreamlinesVizu.bundles s !!! k))).

(** The names in the order in which [select_next] visits them. *)
Definition cycle_order (s : StreamlinesVizu.t) : list string :=
  omap (fun i => StreamlinesVizu.keys s !! i)
       (reverse (lexsort (StreamlinesVizu.keys s)
                         (size_of s <$> StreamlinesVizu.keys s))).

(** [k1] comes before [k2]: it is the larger bundle, or of the same size
    with the later name. *)
Definition comes_before (s : StreamlinesVizu.t) (k1 k2 : string) : Prop :=
  size_of s k2 < size_of s k1 \/
  (size_of s k1 = size_of s k2 /\ String.le k2 k1).

(** [n] calls in a row. *)
Fixpoint times {S} (n : nat) (m : M S unit) : M S unit :=
  match n with
  | 0 => mret tt
  | S n' => m ;; times n' m
  end.

(** The part of the frame that is not the registry. *)
Definition outside_registry (s s' : StreamlinesVizu.t) : Prop :=
  StreamlinesVizu.inliers s' = StreamlinesVizu.inliers s /\
  StreamlinesVizu.outliers s' = StreamlinesVizu.outliers s /\
  StreamlinesVizu.undo_memory s' = StreamlinesVizu.undo_memory s /\
  StreamlinesVizu.selected_bundle s' = StreamlinesVizu.selected_bundle s /\
  StreamlinesVizu.default_clustering_threshold s' =
    StreamlinesVizu.default_clustering_threshold s /\
  StreamlinesVizu.last_bundles_visibility_state s' =
    StreamlinesVizu.last_bundles_visibility_state s /\
  forall r, contents (StreamlinesVizu.heap s' !!! r) =
            contents (StreamlinesVizu.heap s !!! r).

(** From a state in the frame of [X] the call returns a value in [φ] and
    a state in the frame of [X']; it does not raise. *)
Definition moves {A} (X X' : StreamlinesVizu.t) (m : M StreamlinesVizu.t A)
    (φ : A -> Prop) : Prop :=
  hoare (frame X) m (fun a s' => φ a /\ frame X' s') (fun _ => False).

(** The two verdicts on the selected bundle. *)
Inductive verdict : Type := accept | reject.

Definition act `{Metric} `{Toolkit} (v : verdict) : M StreamlinesVizu.t unit :=
  match v with
  | accept => StreamlinesVizu.like_bundle
  | reject => StreamlinesVizu.dislike_bundle
  end.

(** The entry that a verdict given in state [s] puts in the undo memory:
    the kind of action, the selected name and the bundle object
    registered under it. *)
Definition record_of (v : verdict) (s : StreamlinesVizu.t) : Memory :=
  mkMemory (match v with accept => "like" | reject => "dislike" end)
           (default "" (StreamlinesVizu.selected_bundle s))
           (default 0 (StreamlinesVizu.selected_bundle s ≫=
                       fun k => StreamlinesVizu.bundles s !! k)).

(** The entries of a run of verdicts, oldest first. *)
Fixpoint memorized `{Metric} `{Toolkit} (vs : list verdict)
    (s : StreamlinesVizu.t) : list Memory :=
  match vs with
  | [] => []
  | v :: vs' => record_of v s :: memorized vs' (state_of (act v s))
  end.

(** [n] presses of the undo key, one after the other. *)
Definition undo_times `{Metric} `{Toolkit} (n : nat) (s : StreamlinesVizu.t)
    : StreamlinesVizu.t :=
  Nat.iter n (fun s' => state_of (StreamlinesVizu.undo s')) s.

(** [k1] is the beginning of [k2]. *)
Definition begins (k1 k2 : string) : Prop := exists rest, k2 = k1 +:+ rest.

(** No name comes twice and none is the beginning of another one. *)
Definition names_apart (l : list string) : Prop :=
  NoDup l /\ forall k1 k2, k1 ∈ l -> k2 ∈ l -> begins k1 k2 -> k1 = k2.

(** The names the session knows of: those of the key list, then those
    of the entries of the undo memory, oldest first. *)
Definition known_names (s : StreamlinesVizu.t) : list string :=
  StreamlinesVizu.keys s ++
  (bundle_name <$> items (StreamlinesVizu.undo_memory s)).

(** The references the session holds: those of the registry and those
    of the entries of the undo memory. *)
Definition known_refs (s : StreamlinesVizu.t) (r : ref) : Prop :=
  (exists k, StreamlinesVizu.bundles s !! k = Some r) \/
  (exists m, m ∈ items (StreamlinesVizu.undo_memory s) /\ bundle m = r).

(** Every reference the session holds is one of a bundle object of the
    store. *)
Definition refs_present (s : StreamlinesVizu.t) : Prop :=
  forall r, known_refs s r -> is_Some (StreamlinesVizu.heap s !! r).

(** A well-formed session whose known names are apart and whose
    references are present. *)
Definition session_consistent (s : StreamlinesVizu.t) : Prop :=
  well_formed s /\ names_apart (known_names s) /\ refs_present s.

(** ** Python strings, for the widgets

    A [str] is the list of its characters. The widgets receive key names
    and file names, which are ASCII; [lower] is [str.lower] on those. *)

Definition str : Type := list ascii.

(** A string literal. *)
Definition chars (x : string) : str := list_ascii_of_string x.

Definition ascii_lower (c : ascii) : ascii :=
  let n := nat_of_ascii c in
  if decide (65 <= n <= 90) then ascii_of_nat (n + 32) else c.

(** [x.lower()] *)
Definition lower (x : str) : str := ascii_lower <$> x.

(** [len(x)] as a Python integer. *)
Definition len {A} (x : list A) : Z := Z.of_nat (length x).
Arguments len : simpl never.

(** An index of a slice of a sequence of length [n]: a negative index
    counts from the end, and either is clipped to the sequence. *)
Definition slice_index (i n : Z) : Z :=
  if decide (i < 0)%Z then Z.max (i + n) 0 else Z.min i n.

(** [x[i:j]]; [None] is a bound left out. *)
Definition slice {A} (x : list A) (i j : option Z) : list A :=
  let n := len x in
  let a := match i with Some i => slice_index i n | None => 0%Z end in
  let b := match j with Some j => slice_index j n | None => n end in
  take (Z.to_nat (b - a)) (drop (Z.to_nat a) x).

Definition newline : ascii := ascii_of_nat 10.

(** [x.rstrip(c)] for a single character [c]. *)
Fixpoint rstrip (c : ascii) (x : str) : str :=
  match x with
  | [] => []
  | a :: x' =>
      match rstrip c x' with
      | [] => if decide (a = c) then [] else [a]
      | r => a :: r
      end
  end.

(** [x.split(sep)] for a single character [sep]: the pieces between the
    separators, at least one. *)
Fixpoint split_on (sep : ascii) (x : str) : list str :=
  match x with
  | [] => [[]]
  | a :: x' =>
      if decide (a = sep) then [] :: split_on sep x'
      else match split_on sep x' with
           | piece :: pieces => (a :: piece) :: pieces
           | [] => [[a]]
           end
  end.

(** ** Widgets of [dipy/viz/ui.py]

    The VTK actors are left out but for what the methods below set on
    them: the text of a text actor, the image of a button. *)

Module ui.

(** *** class TextBox2D *)

Module TextBox2D.

Record t : Type := mk {
  text : str;
  (** [self.actor.message], the text on the screen *)
  message : str;
  width : Z;
  height : Z;
  window_left : Z;
  window_right : Z;
  caret_pos : Z;
  init : bool
}.

Definition set_text (v : str) (b : t) : t :=
  mk v (message b) (width b) (height b) (window_left b) (window_right b)
     (caret_pos b) (init b).
Definition set_actor_message (v : str) (b : t) : t :=
  mk (text b) v (width b) (height b) (window_left b) (window_right b)
     (caret_pos b) (init b).
Definition set_window_left (v : Z) (b : t) : t :=
  mk (text b) (message b) (width b) (height b) v (window_right b)
     (caret_pos b) (init b).
Definition set_window_right (v : Z) (b : t) : t :=
  mk (text b) (message b) (width b) (height b) (window_left b) v
     (caret_pos b) (init b).
Definition set_caret_pos (v : Z) (b : t) : t :=
  mk (text b) (message b) (width b) (height b) (window_left b)
     (window_right b) v (init b).
Definition set_init (v : bool) (b : t) : t :=
  mk (text b) (message b) (width b) (height b) (window_left b)
     (window_right b) (caret_pos b) v.

(** [TextBox2D(width, height, text)] *)
Definition __init__ (width height : Z) (text : str) : t :=
  mk text text width height 0 0 0 true.

Definition set_message (message : str) (b : t) : t :=
  let b := set_text message b in
  let b := set_actor_message message b in
  let b := set_init false b in
  let b := set_window_right (len (text b)) b in
  let b := set_window_left 0 b in
  set_caret_pos (window_right b) b.

(** The loop of [width_set_text] from position [i] on, [acc] being
    [multi_line_text]; [None] is the [ZeroDivisionError] of
    [(i + 1) % self.width]. *)
Fixpoint width_set_text_loop (width : Z) (i : Z) (text : str) (acc : str)
    : option str :=
  match text with
  | [] => Some acc
  | c :: text' =>
      if decide (width = 0)%Z then None
      else
        let acc := acc ++ [c] in
        let acc := if decide ((i + 1) mod width = 0)%Z
                   then acc ++ [newline] else acc in
        width_set_text_loop width (i + 1) text' acc
  end.

(** [width_set_text(text)]; [None] is [ZeroDivisionError]. *)
Definition width_set_text (text : str) (b : t) : option str :=
  rstrip newline <$> width_set_text_loop (width b) 0 text [].

Definition move_caret_right (b : t) : t :=
  set_caret_pos (Z.min (caret_pos b + 1) (len (text b))) b.

Definition move_caret_left (b : t) : t :=
  set_caret_pos (Z.max (caret_pos b - 1) 0) b.

Definition right_move_right (b : t) : t :=
  if decide (window_right b <= len (text b))%Z
  then set_window_right (window_right b + 1) b else b.

Definition right_move_left (b : t) : t :=
  if decide (window_right b > 0)%Z
  then set_window_right (window_right b - 1) b else b.

Definition left_move_right (b : t) : t :=
  if decide (window_left b <= len (text b))%Z
  then set_window_left (window_left b + 1) b else b.

Definition left_move_left (b : t) : t :=
  if decide (window_left b > 0)%Z
  then set_window_left (window_left b - 1) b else b.

(** [self.window_right - self.window_left ==
     self.height * self.width - 1] *)
Definition window_full (b : t) : bool :=
  bool_decide (window_right b - window_left b = height b * width b - 1)%Z.

Definition add_character (character : str) (b : t) : t :=
  if decide (1 < length character /\ lower character <> chars "space") then b
  else
    let character := if decide (lower character = chars "space")
                     then chars " " else character in
    let b := set_text (slice (text b) None (Some (caret_pos b)) ++
                       character ++
                       slice (text b) (Some (caret_pos b)) None) b in
    let b := move_caret_right b in
    let b := if window_full b then left_move_right b else b in
    right_move_right b.

Definition remove_character (b : t) : t :=
  if decide (caret_pos b = 0)%Z then b
  else
    let b := set_text (slice (text b) None (Some (caret_pos b - 1)%Z) ++
                       slice (text b) (Some (caret_pos b)) None) b in
    let b := move_caret_left b in
    let b := if decide (len (text b) < height b * width b - 1)%Z
             then right_move_left b else b in
    if window_full b then
      if decide (window_left b > 0)%Z
      then right_move_left (left_move_left b) else b
    else b.

Definition move_left (b : t) : t :=
  let b := move_caret_left b in
  if decide (caret_pos b = window_left b - 1)%Z then
    if window_full b then right_move_left (left_move_left b) else b
  else b.

Definition move_right (b : t) : t :=
  let b := move_caret_right b in
  if decide (caret_pos b = window_right b + 1)%Z then
    if window_full b then right_move_right (left_move_right b) else b
  else b.

Definition showable_text (show_caret : bool) (b : t) : str :=
  let ret_text :=
    if show_caret then
      slice (text b) None (Some (caret_pos b)) ++ chars "_" ++
      slice (text b) (Some (caret_pos b)) None
    else text b in
  slice ret_text (Some (window_left b)) (Some (window_right b + 1)%Z).

(** What a call that renders the text comes to: it returns a value, or
    [width_set_text] raises [ZeroDivisionError]; the box is left in a
    state either way. *)
Inductive Res (A : Type) : Type :=
  | Ok (a : A) (b : t)
  | ZeroDivisionError (b : t).
Arguments Ok {A} a b.
Arguments ZeroDivisionError {A} b.

Definition state_of {A} (r : Res A) : t :=
  match r with Ok _ b => b | ZeroDivisionError b => b end.

Definition render_text (show_caret : bool) (b : t) : Res unit :=
  let text := showable_text show_caret b in
  let text := if decide (text = []) then chars "Enter Text" else text in
  match width_set_text text b with
  | Some multi_line_text => Ok tt (set_actor_message multi_line_text b)
  | None => ZeroDivisionError b
  end.

Definition edit_mode (b : t) : Res unit :=
  let b := if init b
           then set_caret_pos 0 (set_init false (set_text [] b)) else b in
  render_text true b.

Definition handle_character (character : str) (b : t) : Res bool :=
  if decide (lower character = chars "return") then
    match render_text false b with
    | Ok _ b' => Ok true b'
    | ZeroDivisionError b' => ZeroDivisionError b'
    end
  else
    let b :=
      if decide (lower character = chars "backspace") then remove_character b
      else if decide (lower character = chars "left") then move_left b
      else if decide (lower character = chars "right") then move_right b
      else add_character character b in
    match render_text true b with
    | Ok _ b' => Ok false b'
    | ZeroDivisionError b' => ZeroDivisionError b'
    end.

(** [handle_character] on each key in turn; an exception ends the run. *)
Fixpoint handle_characters (keys : list str) (b : t) : Res unit :=
  match keys with
  | [] => Ok tt b
  | k :: keys' =>
      match handle_character k b with
      | Ok _ b' => handle_characters keys' b'
      | ZeroDivisionError b' => ZeroDivisionError b'
      end
  end.

End TextBox2D.

(** *** class Button2D

    An icon is the image that [vtkPNGReader] reads from a file, taken
    here as the name of that file. A dict is the list of its items in
    the order in which it gives them, every key once. *)

Module Button2D.

Definition icon : Type := str.

Record t : Type := mk {
  icons : list (string * icon);
  icon_names : list string;
  current_icon_id : nat;
  current_icon_name : string;
  (** what [set_icon] gave to [self.texture] *)
  texture : icon
}.

Definition set_current_icon_id (v : nat) (b : t) : t :=
  mk (icons b) (icon_names b) v (current_icon_name b) (texture b).
Definition set_current_icon_name (v : string) (b : t) : t :=
  mk (icons b) (icon_names b) (current_icon_id b) v (texture b).
Definition set_icon (v : icon) (b : t) : t :=
  mk (icons b) (icon_names b) (current_icon_id b) (current_icon_name b) v.

(** [d[key]] on a dict; [None] is [KeyError]. *)
Definition getitem {A} (d : list (string * A)) (key : string) : option A :=
  match list_find (fun item => item.1 = key) d with
  | Some (_, (_, value)) => Some value
  | None => None
  end.

(** [icon_fname.split(".")[-1] not in ["png", "PNG"]] *)
Definition not_png (icon_fname : str) : bool :=
  bool_decide (default [] (last (split_on "."%char icon_fname))
               ∉ [chars "png"; chars "PNG"]).

Fixpoint __build_icons (icon_fnames : list (string * str))
    : list (string * icon) :=
  match icon_fnames with
  | [] => []
  | (icon_name, icon_fname) :: rest =>
      if not_png icon_fname then __build_icons rest
      else (icon_name, icon_fname) :: __build_icons rest
  end.

(** [Button2D(icon_fnames)]; [None] is the [IndexError] of
    [self.icon_names[self.current_icon_id]]. *)
Definition __init__ (icon_fnames : list (string * str)) : option t :=
  let icons := __build_icons icon_fnames in
  let icon_names := fst <$> icons in
  current_icon_name ← icon_names !! 0;
  icon ← getitem icons current_icon_name;
  Some (mk icons icon_names 0 current_icon_name icon).

Definition next_icon_name : M t unit :=
  b ← get;
  modify (set_current_icon_id (current_icon_id b + 1)) ;;
  (if decide (current_icon_id b + 1 = length (icons b))
   then modify (set_current_icon_id 0) else ret tt) ;;
  b ← get;
  match icon_names b !! current_icon_id b with
  | Some name => modify (set_current_icon_name name)
  | None => raise IndexError
  end.

Definition next_icon : M t unit :=
  next_icon_name ;;
  b ← get;
  match getitem (icons b) (current_icon_name b) with
  | Some icon => modify (set_icon icon)
  | None => raise KeyError
  end.

End Button2D.

(** *** class UI: the mouse buttons

    The [on_...] callbacks are whatever the widget or its user has put
    there; a call of one is recorded by its name in [calls], latest
    last. *)

Module UI.

Record t : Type := mk {
  left_button_state : string;
  right_button_state : string;
  calls : list string
}.

Definition set_left_button_state (v : string) (u : t) : t :=
  mk v (right_button_state u) (calls u).
Definition set_right_button_state (v : string) (u : t) : t :=
  mk (left_button_state u) v (calls u).

(** [self.on_...(i_ren, obj, self)] *)
Definition call (name : string) (u : t) : t :=
  mk (left_button_state u) (right_button_state u) (calls u ++ [name]).

(** [UI()] *)
Definition __init__ : t := mk "released" "released" [].

Definition left_button_click_callback (u : t) : t :=
  let u := set_left_button_state "pressing" u in
  call "on_left_mouse_button_pressed" u.

Definition left_button_release_callback (u : t) : t :=
  let u := if decide (left_button_state u = "pressing")
           then call "on_left_mouse_button_clicked" u else u in
  let u := set_left_button_state "released" u in
  call "on_left_mouse_button_released" u.

Definition right_button_click_callback (u : t) : t :=
  let u := set_right_button_state "pressing" u in
  call "on_right_mouse_button_pressed" u.

Definition right_button_release_callback (u : t) : t :=
  let u := if decide (right_button_state u = "pressing")
           then call "on_right_mouse_button_clicked" u else u in
  let u := set_right_button_state "released" u in
  call "on_right_mouse_button_released" u.

Definition mouse_move_callback (u : t) : t :=
  if decide (left_button_state u = "pressing" \/
             left_button_state u = "dragging") then
    let u := set_left_button_state "dragging" u in
    call "on_left_mouse_button_dragged" u
  else if decide (right_button_state u = "pressing" \/
                  right_button_state u = "dragging") then
    let u := set_right_button_state "dragging" u in
    call "on_right_mouse_button_dragged" u
  else u.

Definition key_press_callback (u : t) : t := call "on_key_press" u.

(** The events that [handle_events] subscribes to. *)
Inductive event : Type :=
  | LeftButtonPressEvent | LeftButtonReleaseEvent
  | RightButtonPressEvent | RightButtonReleaseEvent
  | MouseMoveEvent | KeyPressEvent.

Global Instance event_eq_dec : EqDecision event.
Proof. solve_decision. Defined.

Definition handle (u : t) (e : event) : t :=
  match e with
  | LeftButtonPressEvent => left_button_click_callback u
  | LeftButtonReleaseEvent => left_button_release_callback u
  | RightButtonPressEvent => right_button_click_callback u
  | RightButtonReleaseEvent => right_button_release_callback u
  | MouseMoveEvent => mouse_move_callback u
  | KeyPressEvent => key_press_callback u
  end.

Definition run (u : t) (events : list event) : t := foldl handle u events.

End UI.

End ui.

(** ** More notions about the session *)

(** [slider.value] as [select] leaves it for a bundle of these
    streamlines. *)
Definition slider_value `{Toolkit} (default_clustering_threshold : option Threshold)
    (streamlines : list Streamline) : Threshold :=
  let max_value := (actor_length streamlines / 2)%Q in
  match default_clustering_threshold with
  | None => slider_ratio_value max_value 1
  | Some threshold => slider_set_value max_value threshold
  end.

(** ** Notions used in the statements about the widgets *)

(** The caret is inside the window, the window inside the text, and the
    window is as wide as the text or, for a longer text, as the box
    allows. *)
Definition window_consistent (b : ui.TextBox2D.t) : Prop :=
  (0 <= ui.TextBox2D.window_left b <= ui.TextBox2D.caret_pos b)%Z /\
  (ui.TextBox2D.caret_pos b <= ui.TextBox2D.window_right b
    <= len (ui.TextBox2D.text b))%Z /\
  (ui.TextBox2D.window_right b - ui.TextBox2D.window_left b =
     Z.min (len (ui.TextBox2D.text b))
           (ui.TextBox2D.height b * ui.TextBox2D.width b - 1))%Z.

(** Two boxes of the same size. *)
Definition same_size (b b' : ui.TextBox2D.t) : Prop :=
  ui.TextBox2D.width b' = ui.TextBox2D.width b /\
  ui.TextBox2D.height b' = ui.TextBox2D.height b.

(** A button as the constructor leaves it and [next_icon] keeps it. *)
Definition button_consistent (b : ui.Button2D.t) : Prop :=
  ui.Button2D.icon_names b = fst <$> ui.Button2D.icons b /\
  NoDup (ui.Button2D.icon_names b) /\
  ui.Button2D.icons b !! ui.Button2D.current_icon_id b =
    Some (ui.Button2D.current_icon_name b, ui.Button2D.texture b).

(** * Properties *)

(** Unfolding of the monad, for proofs by evaluation. *)
Ltac monad_unfold :=
  unfold mbind, M_bind, mret, M_ret, bind, ret, get, gets, modify, raise in *.
Ltac run_monad := repeat (monad_unfold; simpl in *).

(** ** Rules of the program logic *)

Section Hoare.
Context {S : Type}.
Implicit Types (P E : S -> Prop).

Lemma hoare_ret {A} P (a : A) (Q : A -> S -> Prop) E :
  (forall s, P s -> Q a s) -> hoare P (mret a) Q E.
Proof. intros HQ s Hs. by apply HQ. Qed.

Lemma hoare_raise {A} P e (Q : A -> S -> Prop) E :
  (forall s, P s -> E s) -> hoare P (raise e) Q E.
Proof. intros HE s Hs. by apply HE. Qed.

Lemma hoare_bind {A B} P (m : M S A) (k : A -> M S B) Q Q' E :
  hoare P m Q E -> (forall a, hoare (Q a) (k a) Q' E) ->
  hoare P (m ≫= k) Q' E.
Proof.
  intros Hm Hk s Hs. specialize (Hm s Hs). monad_unfold.
  destruct (m s) as [a s'|e s']; [by apply Hk | done].
Qed.

Lemma hoare_get_bind {B} P (k : S -> M S B) Q E :
  (forall s0, P s0 -> hoare (fun s => s = s0) (k s0) Q E) ->
  hoare P (get ≫= k) Q E.
Proof. intros Hk s Hs. monad_unfold. by apply (Hk s Hs s). Qed.

Lemma hoare_gets_bind {A B} P (f : S -> A) (k : A -> M S B) Q E :
  (forall s0, P s0 -> hoare (fun s => s = s0) (k (f s0)) Q E) ->
  hoare P (gets f ≫= k) Q E.
Proof. intros Hk s Hs. monad_unfold. by apply (Hk s Hs s). Qed.

Lemma hoare_modify P (f : S -> S) (Q : unit -> S -> Prop) E :
  (forall s, P s -> Q tt (f s)) -> hoare P (modify f) Q E.
Proof. intros HQ s Hs. by apply HQ. Qed.

Lemma hoare_consequence {A} P P' (m : M S A) (Q Q' : A -> S -> Prop) E E' :
  hoare P' m Q' E' ->
  (forall s, P s -> P' s) -> (forall a s, Q' a s -> Q a s) ->
  (forall s, E' s -> E s) ->
  hoare P m Q E.
Proof.
  intros Hm HP HQ HE s Hs. specialize (Hm s (HP s Hs)).
  destruct (m s); auto.
Qed.

Lemma hoare_pre {A} P P' (m : M S A) Q E :
  hoare P' m Q E -> (forall s, P s -> P' s) -> hoare P m Q E.
Proof. intros Hm HP. eapply hoare_consequence; eauto. Qed.

Lemma keeps_bind {A B} P (m : M S A) (k : A -> M S B) :
  keeps P m -> (forall a, keeps P (k a)) -> keeps P (m ≫= k).
Proof. intros Hm Hk. eapply hoare_bind; [exact Hm | exact Hk]. Qed.

Lemma keeps_get_bind {B} P (k : S -> M S B) :
  (forall s0, P s0 -> keeps P (k s0)) -> keeps P (get ≫= k).
Proof.
  intros Hk. apply hoare_get_bind. intros s0 Hs0.
  eapply hoare_pre; [apply (Hk s0 Hs0)|]. by intros s ->.
Qed.

Lemma keeps_gets_bind {A B} P (f : S -> A) (k : A -> M S B) :
  (forall s0, P s0 -> keeps P (k (f s0))) -> keeps P (gets f ≫= k).
Proof.
  intros Hk. apply hoare_gets_bind. intros s0 Hs0.
  eapply hoare_pre; [apply (Hk s0 Hs0)|]. by intros s ->.
Qed.

Lemma keeps_ret {A} P (a : A) : keeps P (mret a).
Proof. by apply hoare_ret. Qed.

Lemma keeps_raise {A} P e : keeps P (raise (A:=A) e).
Proof. by apply hoare_raise. Qed.

Lemma keeps_modify P (f : S -> S) :
  (forall s, P s -> P (f s)) -> keeps P (modify f).
Proof. intros Hf. by apply hoare_modify. Qed.

Lemma keeps_for_each {A} P (xs : list A) (body : A -> M S unit) :
  (forall x, x ∈ xs -> keeps P (body x)) -> keeps P (for_each xs body).
Proof.
  induction xs as [|x xs IH]; intros Hbody; simpl.
  - apply keeps_ret.
  - apply keeps_bind.
    + apply Hbody. by left.
    + intros _. apply IH. intros y Hy. apply Hbody. by right.
Qed.

Lemma keeps_state_of {A} P (m : M S A) s :
  keeps P m -> P s -> P (state_of (m s)).
Proof. intros Hm Hs. specialize (Hm s Hs). by destruct (m s). Qed.

End Hoare.

(** ** The clustering engine *)

Section QuickBundles_facts.
Context `{Metric}.

Lemma assign_first threshold i s :
  QuickBundles.assign threshold [] i s = [Cluster.mk (extract s) [i]].
Proof. reflexivity. Qed.

Lemma assign_Infinity_single c i s :
  QuickBundles.assign Infinity [c] i s = [QuickBundles.join i (extract s) c].
Proof. reflexivity. Qed.

Lemma pass_Infinity_single todo : forall c i,
  exists c', QuickBundles.pass Infinity [c] i todo = [c'] /\
             Cluster.indices c' = Cluster.indices c ++ seq i (length todo).
Proof.
  induction todo as [|s todo IH]; intros c i; simpl.
  - exists c. by rewrite app_nil_r.
  - rewrite assign_Infinity_single.
    destruct (IH (QuickBundles.join i (extract s) c) (S i)) as (c' & -> & Hc').
    exists c'. split; [done|]. rewrite Hc'. simpl. by rewrite <- app_assoc.
Qed.

(** At an infinite threshold a collection that is not empty is one
    cluster, of all positions in input order. *)
Lemma cluster_Infinity streamlines :
  streamlines <> [] ->
  exists c, QuickBundles.cluster Infinity streamlines = [c] /\
            Cluster.indices c = seq 0 (length streamlines).
Proof.
  destruct streamlines as [|s rest]; [done|]. intros _.
  unfold QuickBundles.cluster. simpl. rewrite assign_first.
  destruct (pass_Infinity_single rest (Cluster.mk (extract s) [0]) 1)
    as (c & -> & Hc).
  exists c. by rewrite Hc.
Qed.

Lemma cluster_empty threshold : QuickBundles.cluster threshold [] = [].
Proof. reflexivity. Qed.

Lemma assign_length threshold cs i s :
  length cs <= length (QuickBundles.assign threshold cs i s) /\
  1 <= length (QuickBundles.assign threshold cs i s).
Proof.
  unfold QuickBundles.assign.
  destruct (QuickBundles.nearest (extract s) cs) as [[k d]|] eqn:Hn.
  - destruct (within d threshold).
    + rewrite length_alter. split; [lia|].
      destruct cs; [discriminate Hn | simpl; lia].
    + rewrite length_app. simpl. lia.
  - rewrite length_app. simpl. lia.
Qed.

Lemma pass_length threshold todo : forall cs i,
  length cs <= length (QuickBundles.pass threshold cs i todo).
Proof.
  induction todo as [|s todo IH]; intros cs i; simpl; [lia|].
  etrans; [apply (assign_length threshold cs i s) | apply IH].
Qed.

(** A collection that is not empty has at least one cluster. *)
Lemma cluster_nonempty threshold streamlines :
  streamlines <> [] -> 1 <= length (QuickBundles.cluster threshold streamlines).
Proof.
  destruct streamlines as [|s rest]; [done|]. intros _.
  unfold QuickBundles.cluster. simpl.
  etrans; [|apply pass_length]. apply assign_length.
Qed.

Lemma assign_indices threshold cs i s :
  Forall (fun c => Forall (fun j => j < i) (Cluster.indices c)) cs ->
  Forall (fun c => Forall (fun j => j < S i) (Cluster.indices c))
         (QuickBundles.assign threshold cs i s).
Proof.
  intros Hcs.
  assert (Hweak : Forall (fun c => Forall (fun j => j < S i) (Cluster.indices c)) cs).
  { eapply Forall_impl; [exact Hcs|]. intros c Hc.
    eapply Forall_impl; [exact Hc|]. intros j Hj. simpl in Hj. lia. }
  assert (Hnew : Forall (fun c => Forall (fun j => j < S i) (Cluster.indices c))
                        (cs ++ [Cluster.mk (extract s) [i]])).
  { apply Forall_app. split; [done|]. repeat constructor. }
  unfold QuickBundles.assign.
  destruct (QuickBundles.nearest _ _) as [[k d]|]; [|done].
  destruct (within d threshold); [|done].
  apply Forall_alter; [done|]. intros c _ Hc. simpl.
  apply Forall_app. split; [done|]. repeat constructor.
Qed.

Lemma pass_indices threshold todo : forall cs i,
  Forall (fun c => Forall (fun j => j < i) (Cluster.indices c)) cs ->
  Forall (fun c => Forall (fun j => j < i + length todo) (Cluster.indices c))
         (QuickBundles.pass threshold cs i todo).
Proof.
  induction todo as [|s todo IH]; intros cs i Hcs; simpl.
  - by rewrite Nat.add_0_r.
  - replace (i + S (length todo)) with (S i + length todo) by lia.
    apply IH. by apply assign_indices.
Qed.

(** The clusters list positions of the streamlines that were clustered. *)
Lemma cluster_indices threshold streamlines :
  Forall (fun c => Forall (fun j => j < length streamlines) (Cluster.indices c))
         (QuickBundles.cluster threshold streamlines).
Proof. apply (pass_indices threshold streamlines [] 0). constructor. Qed.




End QuickBundles_facts.

(** ** Bundles *)

Section Bundle_facts.
Context `{Metric} `{Toolkit}.

Lemma _cluster_returns threshold b :
  exists b', Bundle._cluster threshold b = Ok tt b' /\
    contents b' = contents b /\ flags b' = flags b /\
    Bundle.clusters b' =
      Some (QuickBundles.cluster threshold (Bundle.streamlines b)) /\
    Bundle.last_threshold b' = Some threshold /\
    Bundle.has_changed b' = true /\
    (length (QuickBundles.cluster threshold (Bundle.streamlines b)) <> 1 ->
     Bundle.clusters_colors b' =
       Some <$> (distinguishable_colormap (0, 0, 0)%Q darkcolors <$>
                 seq 0 (length (QuickBundles.cluster threshold
                                   (Bundle.streamlines b))))).
Proof.
  unfold Bundle._cluster. run_monad.
  destruct (decide (length _ = 1)) as [Hone|Hmany]; run_monad;
    eexists; (split; [reflexivity|]); simpl; repeat split; done.
Qed.

Lemma update_returns b :
  is_Some (Bundle.clusters b) ->
  exists b', Bundle.update b = Ok tt b' /\
    contents b' = contents b /\ flags b' = flags b /\
    Bundle.clusters b' = Bundle.clusters b /\
    Bundle.clusters_colors b' = Bundle.clusters_colors b /\
    Bundle.last_threshold b' = Bundle.last_threshold b.
Proof.
  intros [cs Hcs]. unfold Bundle.update. run_monad.
  destruct (Bundle.has_changed b); run_monad.
  - rewrite Hcs. run_monad. eexists; split; [reflexivity|]. done.
  - eexists; split; [reflexivity|]. done.
Qed.

Lemma preview_returns threshold b :
  exists b', Bundle.preview threshold b =
               Ok (length (QuickBundles.cluster threshold (Bundle.streamlines b))) b' /\
    contents b' = contents b /\ flags b' = flags b /\
    Bundle.clusters b' =
      Some (QuickBundles.cluster threshold (Bundle.streamlines b)) /\
    Bundle.last_threshold b' = Some threshold /\
    (length (QuickBundles.cluster threshold (Bundle.streamlines b)) <> 1 ->
     Bundle.clusters_colors b' =
       Some <$> (distinguishable_colormap (0, 0, 0)%Q darkcolors <$>
                 seq 0 (length (QuickBundles.cluster threshold
                                   (Bundle.streamlines b))))).
Proof.
  destruct (_cluster_returns threshold b)
    as (b1 & Hc & Hcont1 & Hfl1 & Hcl1 & Hlt1 & _ & Hcol1).
  destruct (update_returns b1)
    as (b2 & Hu & Hcont2 & Hfl2 & Hcl2 & Hcol2 & Hlt2).
  { rewrite Hcl1. eauto. }
  exists b2. unfold Bundle.preview. monad_unfold.
  rewrite Hc, Hu. simpl. rewrite Hcl2, Hcl1.
  repeat split; try congruence.
  intros Hmany. rewrite Hcol2. by apply Hcol1.
Qed.

(** After [preview] the clusters list positions of the bundle's own
    streamlines. *)
Lemma preview_indices_in_range threshold b :
  indices_in_range (state_of (Bundle.preview threshold b))
    (QuickBundles.cluster threshold (Bundle.streamlines b)).
Proof.
  destruct (preview_returns threshold b) as (b' & -> & Hcont & _).
  unfold indices_in_range. simpl.
  replace (Bundle.streamlines b') with (Bundle.streamlines b)
    by (unfold contents in Hcont; congruence).
  apply cluster_indices.
Qed.

(** The constructor returns exactly when there is a streamline, and
    then with the object that its clustering leaves. *)
Lemma Bundle__init___Some sl c t col b :
  Bundle.__init__ sl c t col = Some b <->
  (sl <> []) /\
  (b = state_of (Bundle._cluster Infinity
                   (Bundle.before_clustering sl c t col))).
Proof.
  unfold Bundle.__init__. destruct sl as [|s sl].
  - split; [done | by intros [? _]].
  - split; [by intros [= <-] | by intros [_ ->]].
Qed.

Lemma Bundle__init___returns sl c t col :
  sl <> [] -> is_Some (Bundle.__init__ sl c t col).
Proof. intros Hne. eexists. by apply Bundle__init___Some. Qed.

Lemma Bundle__init___raises c t col : Bundle.__init__ [] c t col = None.
Proof. reflexivity. Qed.

(** [get_cluster_as_bundles] reads the bundle and leaves it as it is. *)
Lemma get_cluster_as_bundles_pure b :
  state_of (Bundle.get_cluster_as_bundles b) = b.
Proof.
  unfold Bundle.get_cluster_as_bundles. run_monad.
  destruct (Bundle.clusters b) as [cs|]; [|done].
  destruct (decide (length cs = 1)).
  - destruct (cs !! 0); [|done].
    destruct (Bundle.bundle_of_cluster _ _ _); done.
  - destruct (mapM _ _); done.
Qed.




End Bundle_facts.

Section Bundle_claims.
Context `{Metric} `{Toolkit}.


Lemma rows_in_range {A} (l : list A) (indices : list nat) :
  Forall (fun i => i < length l) indices -> is_Some (rows l indices).
Proof.
  intros Hin. unfold rows. apply mapM_is_Some.
  eapply Forall_impl; [exact Hin|]. intros i Hi. by apply lookup_lt_is_Some.
Qed.


(** The constructor clusters before it returns: no bundle it returns is
    without clusters. *)
Lemma __init___clustered sl c t col b :
  Bundle.__init__ sl c t col = Some b ->
  Bundle.clusters b = Some (QuickBundles.cluster Infinity sl).
Proof.
  intros (_ & ->)%Bundle__init___Some.
  destruct (_cluster_returns Infinity (Bundle.before_clustering sl c t col))
    as (b' & -> & _ & _ & Hcl & _).
  exact Hcl.
Qed.

Lemma __init___color sl c t col b :
  Bundle.__init__ sl c t col = Some b -> Bundle.color b = col.
Proof.
  intros (_ & ->)%Bundle__init___Some.
  destruct (_cluster_returns Infinity (Bundle.before_clustering sl c t col))
    as (b' & -> & Hcont & _).
  unfold contents in Hcont. simpl in *. congruence.
Qed.

Lemma __init___flags sl c t col b :
  Bundle.__init__ sl c t col = Some b -> flags b = (true, false).
Proof.
  intros (_ & ->)%Bundle__init___Some.
  destruct (_cluster_returns Infinity (Bundle.before_clustering sl c t col))
    as (b' & -> & _ & Hfl & _).
  exact Hfl.
Qed.

Lemma __init___contents sl c t col b :
  Bundle.__init__ sl c t col = Some b -> contents b = (sl, col, c, t).
Proof.
  intros (_ & ->)%Bundle__init___Some.
  destruct (_cluster_returns Infinity (Bundle.before_clustering sl c t col))
    as (b' & -> & Hcont & _).
  simpl. by rewrite Hcont.
Qed.



Lemma rows_nil {A} (l : list A) indices :
  rows l indices = Some [] -> indices = [].
Proof.
  unfold rows. intros Hrows%mapM_Some%Forall2_length. by destruct indices.
Qed.

Lemma bundle_of_cluster_color b cluster col child :
  Bundle.bundle_of_cluster b cluster col = Some child ->
  Bundle.color child = col.
Proof.
  unfold Bundle.bundle_of_cluster. intros Hchild.
  destruct (rows _ _); simplify_eq/=. by eapply __init___color.
Qed.

Lemma bundle_of_cluster_in_range b cluster col :
  Forall (fun i => i < length (Bundle.streamlines b)) (Cluster.indices cluster) ->
  Cluster.indices cluster <> [] ->
  is_Some (Bundle.bundle_of_cluster b cluster col).
Proof.
  intros Hin Hne. unfold Bundle.bundle_of_cluster.
  destruct (rows_in_range _ _ Hin) as [sl Hsl]. rewrite Hsl. simpl.
  apply Bundle__init___returns. intros ->. by apply rows_nil in Hsl.
Qed.



(** C6: with exactly one cluster, [get_cluster_as_bundles] returns one
    child whose colour is the parent's own [color]; with two clusters or
    more it returns one child for each cluster, child [i] carrying entry
    [i] of [clusters_colors], which after [preview] is colour [i] of the
    generator. The clusters are clusters of the bundle's streamlines:
    each lists positions of them, and one at least, as those of
    [QuickBundles.cluster] do (lemmas [cluster_indices] and
    [cluster_no_empty]); the constructor of a child without streamlines
    would raise. *)
Theorem get_cluster_as_bundles_colors (b : Bundle.t) (cs : list Cluster.t) :
  Bundle.clusters b = Some cs ->
  indices_in_range b cs ->
  no_empty_cluster cs ->
  (length cs = 1 ->
     exists child, Bundle.get_cluster_as_bundles b = Ok [child] b /\
                   Bundle.color child = Bundle.color b) /\
  (2 <= length cs ->
   length (Bundle.clusters_colors b) = length cs ->
     exists children, Bundle.get_cluster_as_bundles b = Ok children b /\
       length children = length cs /\
       forall i child, children !! i = Some child ->
         Bundle.clusters_colors b !! i = Some (Bundle.color child)) /\
  (forall threshold b0,
     b = state_of (Bundle.preview threshold b0) ->
     2 <= length cs ->
     exists children, Bundle.get_cluster_as_bundles b = Ok children b /\
       length children = length cs /\
       forall i child, children !! i = Some child ->
         Bundle.color child =
           Some (distinguishable_colormap (0, 0, 0)%Q darkcolors i)).
Proof.
  intros Hcs Hrange Hfull.
  assert (Hmany : 2 <= length cs ->
            length (Bundle.clusters_colors b) = length cs ->
            exists children, Bundle.get_cluster_as_bundles b = Ok children b /\
              length children = length cs /\
              forall i child, children !! i = Some child ->
                Bundle.clusters_colors b !! i = Some (Bundle.color child));
    [|split; [|split; [exact Hmany|]]].
  3: { intros threshold b0 Hb0 Hlen.
       destruct (preview_returns threshold b0)
         as (b' & Hp & _ & _ & Hcl & _ & Hcol).
       rewrite Hp in Hb0. simpl in Hb0. subst b'.
       assert (Hcs' : cs = QuickBundles.cluster threshold (Bundle.streamlines b0))
         by congruence.
       rewrite <- Hcs' in Hcol. specialize (Hcol ltac:(lia)).
       destruct Hmany as (children & Hrun & Hn & Hchildren); [done| |].
       { by rewrite Hcol, !length_fmap, length_seq. }
       exists children. split; [done|]. split; [done|].
       intros i child Hi. specialize (Hchildren i child Hi).
       rewrite Hcol, !list_lookup_fmap in Hchildren.
       destruct (seq 0 (length cs) !! i) as [j|] eqn:Hj; [|done].
       apply lookup_seq in Hj as [-> _]. simpl in Hchildren. congruence. }
  all: unfold Bundle.get_cluster_as_bundles; run_monad; rewrite Hcs.
  - intros Htwo Hlen. destruct (decide (length cs = 1)); [lia|].
    assert (Hall : Forall (fun p : Cluster.t * option Color =>
              is_Some (let '(cluster, color) := p in
                       Bundle.bundle_of_cluster b cluster color))
              (zip cs (Bundle.clusters_colors b))).
    { apply Forall_forall. intros [c col] Hin.
      apply elem_of_zip_l in Hin.
      unfold indices_in_range in Hrange. rewrite Forall_forall in Hrange.
      unfold no_empty_cluster in Hfull. rewrite Forall_forall in Hfull.
      apply bundle_of_cluster_in_range; [by apply Hrange | by apply Hfull]. }
    apply mapM_is_Some in Hall as [children Hchildren].
    rewrite Hchildren. exists children. split; [done|].
    apply mapM_Some in Hchildren.
    split.
    + apply Forall2_length in Hchildren. rewrite <- Hchildren.
      rewrite length_zip. lia.
    + intros i child Hi.
      destruct (Forall2_lookup_r _ _ _ _ _ Hchildren Hi)
        as ([c col] & Hzip & Hchild).
      apply lookup_zip_Some in Hzip as [_ Hcol].
      apply bundle_of_cluster_color in Hchild. by rewrite Hchild.
  - intros Hone. destruct cs as [|c0 [|? ?]]; simplify_eq/=.
    destruct (decide (1 = 1)); [|done]. run_monad.
    apply Forall_cons in Hrange as [Hc0 _].
    apply Forall_cons in Hfull as [Hn0 _].
    destruct (bundle_of_cluster_in_range b c0 (Bundle.color b) Hc0 Hn0)
      as [child Hchild].
    rewrite Hchild. exists child. split; [done|].
    by apply bundle_of_cluster_color in Hchild.
Qed.

End Bundle_claims.

(** ** The two representations of a bundle *)

Section Representation.
Context `{Metric} `{Toolkit}.

Lemma __init___one_representation sl c t col b :
  Bundle.__init__ sl c t col = Some b -> one_representation b.
Proof.
  intros Hinit. unfold one_representation.
  by rewrite (__init___flags _ _ _ _ _ Hinit).
Qed.

Lemma update_flags b : flags (state_of (Bundle.update b)) = flags b.
Proof.
  unfold Bundle.update. run_monad.
  destruct (Bundle.has_changed b); run_monad; [|done].
  destruct (Bundle.clusters b); run_monad; done.
Qed.

Lemma reset_flags b : flags (state_of (Bundle.reset b)) = flags b.
Proof.
  unfold Bundle.reset. monad_unfold.
  destruct (_cluster_returns Infinity b) as (b1 & -> & _ & Hfl & _).
  pose proof (update_flags b1) as Hu.
  destruct (Bundle.update b1); simpl in *; congruence.
Qed.

Lemma preview_flags threshold b :
  flags (state_of (Bundle.preview threshold b)) = flags b.
Proof.
  destruct (preview_returns threshold b) as (b' & -> & _ & Hfl & _). done.
Qed.

Lemma bundle_of_cluster_flags b cluster col child :
  Bundle.bundle_of_cluster b cluster col = Some child ->
  flags child = (true, false).
Proof.
  unfold Bundle.bundle_of_cluster. intros Hchild.
  destruct (rows _ _); simplify_eq/=. by eapply __init___flags.
Qed.

(** The children come out of the constructor: streamlines shown,
    centroids not. *)
Lemma get_cluster_as_bundles_children b children b' :
  Bundle.get_cluster_as_bundles b = Ok children b' ->
  Forall (fun child => flags child = (true, false)) children.
Proof.
  unfold Bundle.get_cluster_as_bundles. run_monad.
  destruct (Bundle.clusters b) as [cs|]; [|done].
  destruct (decide (length cs = 1)).
  - destruct (cs !! 0); [|done].
    destruct (Bundle.bundle_of_cluster _ _ _) eqn:Hchild; [|done].
    intros [= <- <-]. repeat constructor.
    by eapply bundle_of_cluster_flags.
  - destruct (mapM _ _) as [l|] eqn:Hl; [|done]. intros [= <- <-].
    apply mapM_Some in Hl. apply Forall_forall. intros child Hin.
    apply list_elem_of_lookup in Hin as [i Hi].
    destruct (Forall2_lookup_r _ _ _ _ _ Hl Hi) as ([c col] & _ & Hchild).
    by eapply bundle_of_cluster_flags.
Qed.

(** [show_centroids] either returns with the centroids flag set and
    the other flag as it was, or raises with both flags as they were. *)
Lemma show_centroids_flags b :
  match Bundle.show_centroids b with
  | Ok _ b' => flags b' = (Bundle.streamlines_visible b, true)
  | Raise _ b' => flags b' = flags b
  end.
Proof.
  unfold Bundle.show_centroids. monad_unfold.
  pose proof (update_flags b) as Hu.
  destruct (Bundle.update b) as [[] b1|e b1]; simpl in *; [|done].
  unfold flags in *. simpl. congruence.
Qed.

Lemma hide_centroids_flags b :
  exists b', Bundle.hide_centroids b = Ok tt b' /\
             flags b' = (Bundle.streamlines_visible b, false).
Proof. eexists. split; reflexivity. Qed.

Lemma show_streamlines_flags b :
  exists b', Bundle.show_streamlines b = Ok tt b' /\
             flags b' = (true, Bundle.centroids_visible b).
Proof. eexists. split; reflexivity. Qed.

Lemma hide_streamlines_flags b :
  exists b', Bundle.hide_streamlines b = Ok tt b' /\
             flags b' = (false, Bundle.centroids_visible b).
Proof. eexists. split; reflexivity. Qed.

End Representation.

(** ** What every handler maintains *)

Ltac keeps_modify_frame :=
  apply keeps_modify; intros ? (? & ? & ?); split; [|split]; simpl;
  try assumption.

Ltac keeps_step :=
  lazymatch goal with
  | |- keeps _ (mbind _ get) => apply keeps_get_bind; intros ? ?
  | |- keeps _ (mbind _ (gets _)) => apply keeps_gets_bind; intros ? ?
  | |- keeps _ (mbind _ _) => apply keeps_bind; [|intros ?]
  | |- keeps _ (mret _) => apply keeps_ret
  | |- keeps _ (ret _) => apply keeps_ret
  | |- keeps _ (raise _) => apply keeps_raise
  | |- keeps _ (modify _) => keeps_modify_frame
  | |- keeps _ (for_each _ _) => apply keeps_for_each; intros ? ?
  | |- keeps _ (match ?x with _ => _ end) => destruct x eqn:?
  | |- keeps _ (if ?x then _ else _) => destruct x
  | |- keeps _ (let _ := _ in _) => cbv zeta
  end.

(** The invariant of a state at hand, split in its three parts. *)
Ltac use_invariant :=
  repeat match goal with
         | Hinv : session_invariant _ _ _ _ |- _ =>
             destruct Hinv as (? & ? & ?)
         end.

Section Invariant.
Context `{Metric} `{Toolkit}.
Variable Θ : deque Memory -> list string -> gmap string ref -> string -> Prop.
Variable ψ : bool * bool -> Prop.
Variable R : ref -> Prop.
Hypothesis streamlines_shown : ψ (true, false).
Hypothesis centroids_shown : ψ (false, true).
Hypothesis Θ_background : forall d ks bs l l',
  l' = "dimmed" \/ l' = "hidden" -> Θ d ks bs l -> Θ d ks bs l'.
Local Abbreviation Inv := (session_invariant Θ ψ R).
Import StreamlinesVizu.

Lemma heap_insert_flags (s : t) r b :
  (forall r' b', heap s !! r' = Some b' -> ψ (flags b')) ->
  ψ (flags b) ->
  forall r' b', <[r := b]> (heap s) !! r' = Some b' -> ψ (flags b').
Proof.
  intros Hheap Hb r' b'. rewrite lookup_insert.
  case_decide; [by intros [= <-] | apply Hheap].
Qed.

Lemma heap_insert_present (s : t) r b :
  (forall r', R r' -> is_Some (heap s !! r')) ->
  forall r', R r' -> is_Some (<[r := b]> (heap s) !! r').
Proof.
  intros Hheap r' Hr'. rewrite lookup_insert.
  case_decide; [by eauto | by apply Hheap].
Qed.

Lemma lookup_total_flags (s : t) r :
  (forall r' b', heap s !! r' = Some b' -> ψ (flags b')) ->
  ψ (flags (heap s !!! r)).
Proof.
  intros Hheap. rewrite lookup_total_alt.
  destruct (heap s !! r) as [b|] eqn:Hr; simpl; [by eapply Hheap|].
  exact streamlines_shown.
Qed.

(** A bundle method that leaves the flags alone can run on any object. *)
Lemma keeps_on_bundle {A} r (m : M Bundle.t A) :
  (forall b, flags (state_of (m b)) = flags b) ->
  keeps Inv (on_bundle r m).
Proof.
  intros Hm s (Hb & Hh & Ha). unfold on_bundle.
  pose proof (Hm (heap s !!! r)) as Hfl.
  pose proof (lookup_total_flags s r Hh) as Hr.
  destruct (m (heap s !!! r)) as [a b'|e b']; simpl in *;
    (split; [done|]); simpl;
    (split; [|by apply heap_insert_present]);
    (apply heap_insert_flags; [done|]); by rewrite Hfl.
Qed.

Lemma keeps_bundles_getitem name : keeps Inv (bundles_getitem name).
Proof. unfold bundles_getitem. repeat keeps_step. Qed.

Lemma keeps__set_bundles_visibility state bundles exclude :
  keeps Inv (_set_bundles_visibility state bundles exclude).
Proof.
  unfold _set_bundles_visibility. repeat keeps_step;
    first [ by apply keeps_on_bundle
          | eapply Θ_background; [|eassumption]; auto ].
Qed.

Lemma keeps_select name : keeps Inv (select name).
Proof.
  unfold select. repeat keeps_step;
    first [ apply keeps__set_bundles_visibility
          | apply keeps_bundles_getitem
          | apply keeps_on_bundle; intros;
            first [apply reset_flags | apply preview_flags] ].
Qed.

Lemma keeps_sizes ks : keeps Inv (sizes ks).
Proof.
  induction ks as [|k ks IH]; simpl; repeat keeps_step;
    first [apply keeps_bundles_getitem | apply IH].
Qed.

Lemma keeps_key_at ks indices c : keeps Inv (key_at ks indices c).
Proof. unfold key_at. repeat keeps_step. Qed.

Lemma keeps_position ks indices selected :
  keeps Inv (position ks indices selected).
Proof. unfold position. repeat keeps_step. Qed.

Lemma keeps_select_next : keeps Inv select_next.
Proof.
  unfold select_next. repeat keeps_step;
    first [ apply keeps_sizes | apply keeps_position
          | apply keeps_key_at | apply keeps_select ].
Qed.

Lemma keeps_select_previous : keeps Inv select_previous.
Proof.
  unfold select_previous. repeat keeps_step;
    first [ apply keeps_sizes | apply keeps_position
          | apply keeps_key_at | apply keeps_select ].
Qed.

Lemma keeps_toggle_other_bundles_visibility :
  keeps Inv toggle_other_bundles_visibility.
Proof.
  unfold toggle_other_bundles_visibility. repeat keeps_step;
    first [ apply keeps_bundles_getitem | apply keeps__set_bundles_visibility
          | eapply Θ_background; [|eassumption]; auto ].
Qed.

Lemma keeps_disk_move_callback threshold :
  keeps Inv (disk_move_callback threshold).
Proof.
  unfold disk_move_callback. repeat keeps_step;
    first [ apply keeps_bundles_getitem
          | apply keeps_on_bundle; intros; apply preview_flags ].
Qed.

(** The two toggles are issued in pairs; between the two calls of a
    pair the bundle has both flags set, or none. *)
Lemma keeps_show_centroids_hide_streamlines r :
  keeps Inv (on_bundle r Bundle.show_centroids ;;
             on_bundle r Bundle.hide_streamlines).
Proof.
  intros s (Hb & Hh & Ha). monad_unfold. unfold on_bundle at 1.
  pose proof (show_centroids_flags (heap s !!! r)) as Hfl.
  pose proof (lookup_total_flags s r Hh) as Hr.
  destruct (Bundle.show_centroids (heap s !!! r)) as [[] b1|e b1].
  - unfold on_bundle. simpl. rewrite lookup_total_insert_eq. simpl.
    split; [done|]. simpl. rewrite insert_insert_eq.
    split; [|by apply heap_insert_present].
    apply heap_insert_flags; [done|].
    unfold flags in *. simpl. injection Hfl as _ ->. exact centroids_shown.
  - split; [done|]. simpl. split; [|by apply heap_insert_present].
    apply heap_insert_flags; [done|]. by rewrite Hfl.
Qed.

Lemma keeps_hide_centroids_show_streamlines r :
  keeps Inv (on_bundle r Bundle.hide_centroids ;;
             on_bundle r Bundle.show_streamlines).
Proof.
  intros s (Hb & Hh & Ha). monad_unfold. unfold on_bundle. simpl.
  rewrite lookup_total_insert_eq. simpl.
  split; [done|]. simpl. rewrite insert_insert_eq.
  split; [by apply heap_insert_flags | by apply heap_insert_present].
Qed.

Lemma keeps_show_all_centroids : keeps Inv show_all_centroids.
Proof.
  unfold show_all_centroids. apply keeps_get_bind. intros s0 _.
  apply keeps_for_each. intros r _.
  apply keeps_show_centroids_hide_streamlines.
Qed.

Lemma keeps_show_all_streamlines : keeps Inv show_all_streamlines.
Proof.
  unfold show_all_streamlines. apply keeps_get_bind. intros s0 _.
  apply keeps_for_each. intros r _.
  apply keeps_hide_centroids_show_streamlines.
Qed.

Lemma keeps_centroids_toggle_button_callback :
  keeps Inv centroids_toggle_button_callback.
Proof.
  unfold centroids_toggle_button_callback. repeat keeps_step;
    first [apply keeps_show_all_centroids | apply keeps_show_all_streamlines].
Qed.

Lemma keeps_shortcut_keys_onchar_callback k :
  keeps Inv (shortcut_keys_onchar_callback k).
Proof.
  destruct k; simpl;
    first [ apply keeps_select | apply keeps_select_next
          | apply keeps_select_previous | apply keeps_show_all_centroids
          | apply keeps_show_all_streamlines | apply keeps_ret ].
Qed.

Lemma keeps_toggle_visibility_onchar_callback k :
  keeps Inv (toggle_visibility_onchar_callback k).
Proof.
  unfold toggle_visibility_onchar_callback.
  apply keeps_get_bind. intros s0 _.
  destruct (selected_bundle s0); [|apply keeps_ret].
  destruct k;
    first [apply keeps_toggle_other_bundles_visibility | apply keeps_ret].
Qed.

(** The handlers that change the registry or the undo memory keep [Θ]
    when [Θ] looks at the undo memory only and is kept by the three
    deque operations. *)
Section Memory.
Hypothesis Θ_registry : forall d ks bs l ks' bs' l',
  Θ d ks bs l -> Θ d ks' bs' l'.
Hypothesis Θ_append : forall x d ks bs l,
  Θ d ks bs l -> Θ (deque_append x d) ks bs l.
Hypothesis Θ_pop : forall x d d' ks bs l,
  Θ d ks bs l -> deque_pop d = Some (x, d') -> Θ d' ks bs l.
Hypothesis Θ_clear : forall d ks bs l,
  Θ d ks bs l -> Θ (deque_clear d) ks bs l.

Lemma keeps_add_bundle name bundle : keeps Inv (add_bundle name bundle).
Proof.
  unfold add_bundle. repeat keeps_step;
    first [ by apply keeps_on_bundle | by eapply Θ_registry ].
Qed.

Lemma keeps_remove_bundle name : keeps Inv (remove_bundle name).
Proof.
  unfold remove_bundle. repeat keeps_step;
    first [ apply keeps_bundles_getitem | by apply keeps_on_bundle
          | by eapply Θ_registry ].
Qed.

Lemma keeps_new_bundle b :
  flags b = (true, false) -> keeps Inv (new_bundle b).
Proof.
  intros Hb. unfold new_bundle. repeat keeps_step; use_invariant.
  - apply heap_insert_flags; [done|]. by rewrite Hb.
  - by apply heap_insert_present.
Qed.

Lemma keeps_add_children parent children : forall i,
  Forall (fun child => flags child = (true, false)) children ->
  keeps Inv (add_children parent i children).
Proof.
  induction children as [|child children IH]; intros i Hall; simpl.
  - apply keeps_ret.
  - apply Forall_cons in Hall as [Hchild Hall].
    apply keeps_bind; [by apply keeps_new_bundle|]. intros r.
    apply keeps_bind; [apply keeps_add_bundle|]. intros _. by apply IH.
Qed.

Lemma keeps_apply_button_callback : keeps Inv apply_button_callback.
Proof.
  unfold apply_button_callback.
  apply keeps_get_bind. intros s0 _.
  apply keeps_bind; [apply keeps_bundles_getitem|]. intros r. cbv zeta.
  eapply hoare_bind with
    (Q := fun children s =>
            Inv s /\ Forall (fun child => flags child = (true, false)) children).
  - intros s Hs.
    pose proof (keeps_on_bundle r Bundle.get_cluster_as_bundles) as Hk.
    specialize (Hk ltac:(intros; by rewrite get_cluster_as_bundles_pure) s Hs).
    unfold on_bundle in *.
    destruct (Bundle.get_cluster_as_bundles (heap s !!! r)) eqn:Hg; [|done].
    split; [done|]. by eapply get_cluster_as_bundles_children.
  - intros children. intros s [Hs Hall]. revert s Hs.
    change (keeps Inv (add_children (default "" (selected_bundle s0)) 0 children ;;
                       remove_bundle (default "" (selected_bundle s0)) ;;
                       select None)).
    repeat keeps_step;
      first [ by apply keeps_add_children | apply keeps_remove_bundle
            | apply keeps_select ].
Qed.


Lemma keeps_like_bundle : keeps Inv like_bundle.
Proof.
  unfold like_bundle. repeat keeps_step;
    first [ apply keeps_bundles_getitem | apply keeps_select_next
          | apply keeps_remove_bundle | idtac ].
  use_invariant. eapply Θ_registry. by eapply Θ_append.
Qed.

Lemma keeps_dislike_bundle : keeps Inv dislike_bundle.
Proof.
  unfold dislike_bundle. repeat keeps_step;
    first [ apply keeps_bundles_getitem | apply keeps_select_next
          | apply keeps_remove_bundle | idtac ].
  use_invariant. eapply Θ_registry. by eapply Θ_append.
Qed.

Lemma keeps_undo : keeps Inv undo.
Proof.
  unfold undo. apply keeps_get_bind. intros s0 (Hb & Hh & Ha).
  destruct (deque_pop (undo_memory s0)) as [[memory rest]|] eqn:Hpop;
    [|apply keeps_ret].
  pose proof (Θ_pop _ _ _ _ _ _ Hb Hpop) as Hrest.
  repeat keeps_step;
    first [ apply keeps_add_bundle | apply keeps_select
          | by eapply Θ_registry ].
Qed.

Lemma keeps_save_button_callback : keeps Inv save_button_callback.
Proof.
  unfold save_button_callback. repeat keeps_step.
  use_invariant. eapply Θ_registry. by eapply Θ_clear.
Qed.

Lemma keeps_like_dislike_undo_onchar_callback k :
  keeps Inv (like_dislike_undo_onchar_callback k).
Proof.
  unfold like_dislike_undo_onchar_callback.
  apply keeps_bind; [destruct k; first [apply keeps_undo | apply keeps_ret]|].
  intros _. apply keeps_get_bind. intros s0 _.
  destruct (selected_bundle s0); [|apply keeps_ret].
  destruct k;
    first [apply keeps_dislike_bundle | apply keeps_like_bundle | apply keeps_ret].
Qed.

Lemma keeps_handler e : keeps Inv (handler e).
Proof.
  destruct e as [k| | | | | | | |name]; simpl.
  - destruct k;
      first [ apply keeps_toggle_visibility_onchar_callback
            | apply keeps_like_dislike_undo_onchar_callback
            | apply keeps_shortcut_keys_onchar_callback ].
  - apply keeps_like_bundle.
  - apply keeps_dislike_bundle.
  - apply keeps_apply_button_callback.
  - apply keeps_save_button_callback.
  - apply keeps_toggle_other_bundles_visibility.
  - apply keeps_centroids_toggle_button_callback.
  - apply keeps_disk_move_callback.
  - repeat keeps_step. apply keeps_select.
Qed.

Lemma run_invariant events : forall s, Inv s -> Inv (run s events).
Proof.
  induction events as [|e events IH]; intros s Hs; simpl; [done|].
  apply IH. unfold step. apply keeps_state_of; [apply keeps_handler | done].
Qed.

End Memory.
End Invariant.

(** ** The bound of the undo memory *)

Lemma length_removelast {A} (l : list A) :
  length (removelast l) = length l - 1.
Proof.
  induction l as [|x [|y l] IH]; simpl in *; [done..|]. rewrite IH. lia.
Qed.

Lemma bounded_append K x d : bounded K d -> bounded K (deque_append x d).
Proof.
  intros [Hmax Hlen]. unfold bounded, deque_append. rewrite Hmax. simpl.
  split; [done|]. case_decide as Hlt.
  - rewrite length_tl, length_app. simpl. lia.
  - lia.
Qed.

Lemma bounded_pop K x d d' :
  bounded K d -> deque_pop d = Some (x, d') -> bounded K d'.
Proof.
  intros [Hmax Hlen]. unfold deque_pop.
  destruct (last (items d)); [|done]. intros [= <- <-].
  split; [done|]. simpl. rewrite length_removelast. lia.
Qed.

Lemma bounded_clear K d : bounded K d -> bounded K (deque_clear d).
Proof. intros [Hmax _]. split; [done | simpl; lia]. Qed.

Section Session_facts.
Context `{Metric} `{Toolkit}.
Import StreamlinesVizu.

Lemma __init___returns tractogram threshold (K : nat) :
  tractogram <> [] ->
  exists s, __init__ tractogram threshold (Some (Z.of_nat K)) = Some s /\
    session_invariant (of_memory (bounded K)) exactly_one no_ref s.
Proof.
  intros Hne. unfold __init__, deque_new.
  destruct (Z.ltb_spec (Z.of_nat K) 0); [lia|]. simpl.
  destruct (Bundle__init___returns tractogram None (Some Infinity) None Hne)
    as [root Hroot].
  rewrite Hroot. simpl.
  eexists. split; [reflexivity|]. split; [|split]; simpl.
  - split; simpl; [by rewrite Nat2Z.id | lia].
  - intros r b. rewrite lookup_singleton. case_decide; [|done].
    intros [= <-]. by eapply __init___one_representation.
  - done.
Qed.

(** The constructor of the session raises on an empty tractogram. *)
Lemma __init___tractogram tractogram threshold size s :
  __init__ tractogram threshold size = Some s -> tractogram <> [].
Proof.
  intros Hinit ->. unfold __init__ in Hinit.
  by destruct (deque_new size).
Qed.

(** Every state the event loop reaches from the constructor. *)
Lemma reachable_invariant tractogram threshold (K : nat) s events :
  __init__ tractogram threshold (Some (Z.of_nat K)) = Some s ->
  session_invariant (of_memory (bounded K)) exactly_one no_ref (run s events).
Proof.
  intros Hinit.
  destruct (__init___returns tractogram threshold K) as (s' & Hs' & Hinv);
    [by eapply __init___tractogram|].
  assert (s' = s) as -> by congruence.
  apply run_invariant; unfold of_memory;
    eauto using bounded_append, bounded_pop, bounded_clear; reflexivity.
Qed.

End Session_facts.

(** ** Calls that stay within the frame *)

Section Frame.
Context `{Metric} `{Toolkit}.
Import StreamlinesVizu.

Lemma frame_refl s : frame s s.
Proof. by repeat split. Qed.

Lemma frame_trans s1 s2 s3 : frame s1 s2 -> frame s2 s3 -> frame s1 s3.
Proof.
  unfold frame. intros (?&?&?&?&?&?&?&?&Hh1) (?&?&?&?&?&?&?&?&Hh2).
  repeat split; first [congruence | intros r; by rewrite Hh2, Hh1].
Qed.

Lemma steady_ret {A} (a : A) : steady (ret a).
Proof. intros s. exists a, s. split; [done | apply frame_refl]. Qed.

Lemma steady_bind {A B} (m : M t A) (k : A -> M t B) :
  steady m -> (forall a, steady (k a)) -> steady (m ≫= k).
Proof.
  intros Hm Hk s. destruct (Hm s) as (a & s1 & Hms & Hf1).
  destruct (Hk a s1) as (b & s2 & Hks & Hf2).
  exists b, s2. monad_unfold. rewrite Hms, Hks.
  split; [done | by eapply frame_trans].
Qed.

Lemma steady_for_each {A} (xs : list A) (body : A -> M t unit) :
  (forall x, steady (body x)) -> steady (for_each xs body).
Proof.
  intros Hbody. induction xs as [|x xs IH]; simpl.
  - apply steady_ret.
  - apply steady_bind; [apply Hbody | intros _; apply IH].
Qed.

Lemma steady_on_bundle {A} r (m : M Bundle.t A) :
  (forall b, exists a b', m b = Ok a b' /\ contents b' = contents b) ->
  steady (on_bundle r m).
Proof.
  intros Hm s. destruct (Hm (heap s !!! r)) as (a & b' & Hmb & Hc).
  exists a, (set_heap (<[r := b']> (heap s)) s).
  unfold on_bundle. rewrite Hmb. split; [done|].
  repeat split. simpl. intros r'.
  destruct (decide (r = r')) as [<-|Hne].
  - by rewrite lookup_total_insert_eq.
  - by rewrite lookup_total_insert_ne.
Qed.

Lemma reset_contents b :
  exists a b', Bundle.reset b = Ok a b' /\ contents b' = contents b.
Proof.
  unfold Bundle.reset. monad_unfold.
  destruct (_cluster_returns Infinity b) as (b1 & -> & Hc1 & _ & Hcl & _).
  destruct (update_returns b1) as (b2 & -> & Hc2 & _); [by rewrite Hcl|].
  exists tt, b2. split; [done | congruence].
Qed.

Lemma preview_contents threshold b :
  exists a b', Bundle.preview threshold b = Ok a b' /\ contents b' = contents b.
Proof.
  destruct (preview_returns threshold b) as (b' & -> & Hc & _). eauto.
Qed.

Lemma set_actor_visible_contents v b :
  exists a b', modify (Bundle.set_actor_visible v) b = Ok a b' /\
               contents b' = contents b.
Proof. by eexists _, _. Qed.

Lemma steady_visibility_loop visibility (bs exclude : list ref) :
  steady (for_each bs (fun bundle =>
    if decide (bundle ∈ exclude) then ret tt
    else on_bundle bundle (modify (Bundle.set_actor_visible visibility)))).
Proof.
  apply steady_for_each. intros r. case_decide; [apply steady_ret|].
  apply steady_on_bundle, set_actor_visible_contents.
Qed.

Lemma _set_bundles_visibility_visible bs exclude :
  steady (_set_bundles_visibility "visible" bs exclude).
Proof.
  intros s. exact (steady_visibility_loop true _ exclude s).
Qed.

(** Setting the background state to what it already is. *)
Lemma _set_bundles_visibility_last bs exclude s :
  last_bundles_visibility_state s = "dimmed" \/
  last_bundles_visibility_state s = "hidden" ->
  exists s', _set_bundles_visibility (last_bundles_visibility_state s)
               bs exclude s = Ok tt s' /\ frame s s'.
Proof.
  intros [Hl|Hl].
  - destruct (steady_visibility_loop true
                (match bs with Some l => l | None => bundles_values s end)
                exclude (set_last_bundles_visibility_state "dimmed" s))
      as ([] & s' & Hloop & Hf).
    exists s'. split.
    + rewrite Hl. exact Hloop.
    + eapply frame_trans; [|exact Hf]. by repeat split.
  - destruct (steady_visibility_loop false
                (match bs with Some l => l | None => bundles_values s end)
                exclude (set_last_bundles_visibility_state "hidden" s))
      as ([] & s' & Hloop & Hf).
    exists s'. split.
    + rewrite Hl. exact Hloop.
    + eapply frame_trans; [|exact Hf]. by repeat split.
Qed.

Lemma frame_sym s1 s2 : frame s1 s2 -> frame s2 s1.
Proof.
  unfold frame. intros (?&?&?&?&?&?&?&?&Hh).
  repeat split; first [done | intros r; by rewrite Hh].
Qed.

Lemma moves_bind {A B} X X1 X2 (m : M t A) (k : A -> M t B) φ φ' :
  moves X X1 m φ -> (forall a, φ a -> moves X1 X2 (k a) φ') ->
  moves X X2 (m ≫= k) φ'.
Proof.
  intros Hm Hk. eapply hoare_bind; [exact Hm|].
  intros a s [Ha Hs]. by apply (Hk a Ha).
Qed.

Lemma moves_steady {A} X (m : M t A) : steady m -> moves X X m (fun _ => True).
Proof.
  intros Hm s Hs. destruct (Hm s) as (a & s' & -> & Hf).
  split; [done | by eapply frame_trans].
Qed.

Lemma moves_modify X X' (f : t -> t) :
  (forall s, frame X s -> frame X' (f s)) ->
  moves X X' (modify f) (fun _ => True).
Proof. intros Hf s Hs. split; [done | by apply Hf]. Qed.

Lemma moves_get_bind {B} X X' (k : t -> M t B) φ :
  (forall s0, frame X s0 -> moves s0 X' (k s0) φ) ->
  moves X X' (get ≫= k) φ.
Proof. intros Hk s Hs. apply (Hk s Hs s), frame_refl. Qed.

Lemma moves_gets_bind {A B} X X' (f : t -> A) (k : A -> M t B) φ :
  (forall s0, frame X s0 -> moves s0 X' (k (f s0)) φ) ->
  moves X X' (gets f ≫= k) φ.
Proof. intros Hk s Hs. apply (Hk s Hs s), frame_refl. Qed.

Lemma moves_ret {A} X (a : A) (φ : A -> Prop) : φ a -> moves X X (ret a) φ.
Proof. intros Ha s Hs. done. Qed.

Lemma moves_frame {A} X1 X2 X' (m : M t A) φ :
  frame X1 X2 -> moves X1 X' m φ -> moves X2 X' m φ.
Proof.
  intros Hf Hm s Hs. apply Hm. eapply frame_trans; [exact Hf | exact Hs].
Qed.

Lemma moves_returns {A} X' (m : M t A) φ s :
  moves s X' m φ -> exists a s', m s = Ok a s' /\ φ a /\ frame X' s'.
Proof.
  intros Hm. specialize (Hm s (frame_refl s)).
  destruct (m s) as [a s'|e s']; [|done]. by exists a, s'.
Qed.

Lemma moves_bundles_getitem X name r :
  bundles X !! name = Some r ->
  moves X X (bundles_getitem (Some name)) (fun a => a = r).
Proof.
  intros Hr s Hs. unfold bundles_getitem. run_monad.
  assert (Hb : bundles s = bundles X) by apply Hs.
  rewrite Hb, Hr. done.
Qed.

End Frame.

(** ** Sorting *)

Global Instance lexsort_le_total : Total lexsort_le.
Proof.
  intros [[sx kx] ix] [[sy ky] iy]. unfold lexsort_le.
  destruct (lt_eq_lt_dec sx sy) as [[?| ->]|?]; [by left; left| |by right; left].
  destruct (decide (kx = ky)) as [-> |Hne].
  - destruct (le_ge_dec ix iy); [left|right]; right; split; auto.
  - destruct (total String.le kx ky); [left|right]; right; split; auto.
Qed.

Global Instance lexsort_le_trans : Transitive lexsort_le.
Proof.
  intros [[sx kx] ix] [[sy ky] iy] [[sz kz] iz]. unfold lexsort_le.
  intros [?|[-> Hxy]] [?|[-> Hyz]]; [left; lia..|]. right. split; [done|].
  destruct Hxy as [[Hne1 Hle1]|[-> ?]]; destruct Hyz as [[Hne2 Hle2]|[-> ?]].
  - left. split; [|by etrans].
    intros ->. apply Hne1. by apply (anti_symm String.le).
  - by left.
  - by left.
  - right. split; [done | lia].
Qed.

Lemma sorted_Permutation l : sorted l ≡ₚ l.
Proof. apply merge_sort_Permutation. Qed.

Lemma sorted_Sorted l : Sorted String.le (sorted l).
Proof. apply Sorted_merge_sort, _. Qed.

(** A sorted list is what [sorted] returns for any rearrangement of it. *)
Lemma sorted_unique l l' :
  Sorted String.le l -> l' ≡ₚ l -> sorted l' = l.
Proof.
  intros Hl Hp. apply (Sorted_unique String.le).
  - apply sorted_Sorted.
  - done.
  - by rewrite sorted_Permutation.
Qed.

Lemma remove_Some {A} `{EqDecision A} (l l' : list A) x :
  remove l x = Some l' -> l ≡ₚ x :: l'.
Proof.
  revert l'. induction l as [|y l IH]; intros l'; simpl; [done|].
  case_decide as Hy.
  - intros [= <-]. by rewrite Hy.
  - destruct (remove l x) as [l''|]; [|done]. intros [= <-].
    rewrite (IH l'' eq_refl). apply Permutation_swap.
Qed.

Lemma remove_elem_of {A} `{EqDecision A} (l : list A) x :
  x ∈ l -> is_Some (remove l x).
Proof.
  induction l as [|y l IH]; [by intros ?%elem_of_nil|]. simpl.
  case_decide; [eauto|]. intros [?|Hin]%elem_of_cons; [congruence|].
  destruct (IH Hin) as [l' ->]. eauto.
Qed.

Lemma remove_None {A} `{EqDecision A} (l : list A) x :
  x ∉ l -> remove l x = None.
Proof.
  induction l as [|y l IH]; [done|]. simpl. intros Hnin.
  apply not_elem_of_cons in Hnin as [Hne Hnin].
  case_decide; [congruence|]. by rewrite (IH Hnin).
Qed.

Lemma index_Some {A} `{EqDecision A} (l : list A) x i :
  index l x = Some i -> l !! i = Some x.
Proof.
  unfold index. destruct (list_find _ l) as [[j y]|] eqn:Hfind; [|done].
  intros [= <-]. apply list_find_Some in Hfind as (Hj & -> & _). done.
Qed.

Lemma index_NoDup {A} `{EqDecision A} (l : list A) x i :
  NoDup l -> l !! i = Some x -> index l x = Some i.
Proof.
  intros Hnd Hi. unfold index.
  destruct (list_find (fun y => y = x) l) as [[j y]|] eqn:Hfind.
  - apply list_find_Some in Hfind as (Hj & -> & _). simpl.
    f_equal. by eapply NoDup_lookup.
  - exfalso. eapply list_find_None in Hfind.
    rewrite Forall_forall in Hfind. eapply Hfind; [|done].
    by eapply list_elem_of_lookup_2.
Qed.

(** The entries that [lexsort] sorts. *)
Lemma lexsort_entries_snd (ks : list string) (szs : list nat) :
  snd <$> imap (fun i '(size, key) => (size, key, i)) (zip szs ks) =
  seq 0 (length (zip szs ks)).
Proof.
  rewrite fmap_imap. rewrite <- (list_fmap_id (seq 0 _)).
  rewrite <- imap_seq_0. apply imap_ext. by intros i [sz k] _.
Qed.

Lemma lexsort_Permutation ks szs :
  length szs = length ks -> lexsort ks szs ≡ₚ seq 0 (length ks).
Proof.
  intros Hlen. unfold lexsort. rewrite merge_sort_Permutation.
  rewrite lexsort_entries_snd, length_zip. by rewrite Hlen, Nat.min_id.
Qed.

Lemma StronglySorted_Forall {A} (R : relation A) (P : A -> Prop) l :
  StronglySorted R l -> Forall P l ->
  StronglySorted (fun x y => R x y /\ P x /\ P y) l.
Proof.
  induction 1 as [|x l Hl IH Hx]; intros Hall; [constructor|].
  apply Forall_cons in Hall as [HPx Hall]. constructor; [by apply IH|].
  rewrite Forall_forall in *. intros y Hy. auto.
Qed.

(** ** Selection *)

Section Selection.
Context `{Metric} `{Toolkit}.
Import StreamlinesVizu.

(** Selecting a registered bundle: the selection is set, the rest stays
    within the frame. *)
Lemma moves_select X name r :
  bundles X !! name = Some r ->
  last_bundles_visibility_state X = "dimmed" \/
  last_bundles_visibility_state X = "hidden" ->
  moves X (set_selected_bundle (Some name) X) (select (Some name))
        (fun _ => True).
Proof.
  intros Hr Hlast. unfold select.
  apply moves_get_bind. intros s0 Hs0.
  apply moves_frame with (X1 := X); [done|].
  eapply moves_bind with (X1 := X).
  { destruct (_ ≫= _);
      [apply moves_steady, steady_on_bundle, reset_contents
      |apply moves_steady, steady_ret]. }
  intros _ _.
  eapply moves_bind.
  { apply moves_modify with (X' := set_selected_bundle (Some name) X).
    intros s Hs. unfold frame in *. simpl. intuition. }
  intros _ _.
  eapply moves_bind; [by apply moves_bundles_getitem|].
  intros ? ->.
  apply moves_gets_bind. intros s1 Hs1.
  apply moves_frame with (X1 := set_selected_bundle (Some name) X); [done|].
  eapply moves_bind.
  { apply moves_modify. intros s Hs. exact Hs. }
  intros _ _.
  eapply moves_bind.
  { apply moves_modify. intros s Hs. exact Hs. }
  intros _ _.
  eapply moves_bind.
  { apply moves_steady, _set_bundles_visibility_visible. }
  intros _ _.
  apply moves_gets_bind. intros s2 Hs2.
  eapply moves_bind with (X1 := s2) (φ := fun _ => True).
  { intros s Hs.
    assert (Hl2 : last_bundles_visibility_state s =
                  last_bundles_visibility_state s2)
      by (unfold frame in *; intuition congruence).
    rewrite <- Hl2.
    destruct (_set_bundles_visibility_last None [r] s) as (s' & -> & Hf).
    { unfold frame in *. simpl in *.
      destruct Hs2 as (_&_&_&_&_&_&_&Hl&_). rewrite Hl2, Hl. exact Hlast. }
    split; [exact I|]. eapply frame_trans; [exact Hs | exact Hf]. }
  intros _ _.
  apply moves_frame with (X1 := set_selected_bundle (Some name) X); [done|].
  eapply moves_bind.
  { apply moves_steady, steady_on_bundle, preview_contents. }
  intros _ _. by apply moves_ret.
Qed.

Lemma size_of_frame X s k : frame X s -> size_of s k = size_of X k.
Proof.
  intros (_ & Hb & _ & _ & _ & _ & _ & _ & Hh). unfold size_of.
  rewrite Hb. specialize (Hh (bundles X !!! k)). unfold contents in Hh.
  congruence.
Qed.

Lemma cycle_order_frame X s : frame X s -> cycle_order s = cycle_order X.
Proof.
  intros Hf. unfold cycle_order.
  assert (Hk : keys s = keys X) by apply Hf. rewrite Hk.
  f_equal. f_equal. f_equal. apply list_fmap_ext.
  intros _ k _. by apply size_of_frame.
Qed.

Lemma well_formed_frame X s : frame X s -> well_formed X -> well_formed s.
Proof.
  intros (Hk & Hb & _ & _ & _ & _ & _ & Hl & _) [(Hs & Hnd & Hdom) Hlast].
  unfold well_formed, registry_consistent. rewrite Hk, Hb, Hl. done.
Qed.

Lemma moves_sizes X ks :
  (forall k, k ∈ ks -> is_Some (bundles X !! k)) ->
  moves X X (sizes ks) (fun szs => szs = size_of X <$> ks).
Proof.
  induction ks as [|k ks IH]; intros Hks; simpl.
  - by apply moves_ret.
  - destruct (Hks k) as [r Hr]; [by left|].
    eapply moves_bind; [by apply moves_bundles_getitem|]. intros ? ->.
    apply moves_gets_bind. intros s0 Hs0.
    apply moves_frame with (X1 := X); [done|].
    eapply moves_bind; [apply IH; intros k' Hk'; apply Hks; by right|].
    intros ? ->. apply moves_ret. simpl. f_equal.
    unfold size_of. rewrite (lookup_total_correct _ _ _ Hr).
    destruct Hs0 as (_ & _ & _ & _ & _ & _ & _ & _ & Hh).
    specialize (Hh r). unfold contents in Hh. congruence.
Qed.

Lemma omap_lookup_is_Some {A B} (f : A -> option B) (l : list A) c :
  Forall (fun x => is_Some (f x)) l -> omap f l !! c = l !! c ≫= f.
Proof.
  revert c. induction l as [|x l IH]; intros c Hall; [done|].
  apply Forall_cons in Hall as [[y Hy] Hall]. simpl. rewrite Hy.
  destruct c as [|c]; simpl; [done | by apply IH].
Qed.

(** The positions that [select_next] cycles through. *)
Lemma cycle_indices X :
  let indices := reverse (lexsort (keys X) (size_of X <$> keys X)) in
  indices ≡ₚ seq 0 (length (keys X)) /\
  Forall (fun i => is_Some (keys X !! i)) indices.
Proof.
  intros indices.
  assert (Hperm : indices ≡ₚ seq 0 (length (keys X))).
  { unfold indices. rewrite reverse_Permutation.
    apply lexsort_Permutation. by rewrite length_fmap. }
  split; [done|]. rewrite Hperm. apply Forall_forall.
  intros i Hi%elem_of_seq. apply lookup_lt_is_Some. lia.
Qed.

Lemma cycle_order_lookup X c :
  cycle_order X !! c =
  reverse (lexsort (keys X) (size_of X <$> keys X)) !! c
    ≫= (fun i => keys X !! i).
Proof. apply omap_lookup_is_Some, cycle_indices. Qed.

Lemma length_omap_is_Some {A B} (f : A -> option B) (l : list A) :
  Forall (fun x => is_Some (f x)) l -> length (omap f l) = length l.
Proof.
  induction l as [|x l IH]; intros Hall; [done|].
  apply Forall_cons in Hall as [[y Hy] Hall]. cbn. rewrite Hy. cbn.
  f_equal. by apply IH.
Qed.

Lemma cycle_order_length X : length (cycle_order X) = length (keys X).
Proof.
  destruct (cycle_indices X) as [Hperm Hall].
  unfold cycle_order. rewrite length_omap_is_Some by done.
  by rewrite Hperm, length_seq.
Qed.

(** One call of [select_next] from the name at position [c] of the
    cycle selects the name at the next position, wrapping around. *)
Lemma moves_select_next X name c :
  well_formed X ->
  selected_bundle X = Some name ->
  cycle_order X !! c = Some name ->
  exists name',
    cycle_order X !! ((c + 1) mod length (keys X)) = Some name' /\
    moves X (set_selected_bundle (Some name') X) select_next (fun _ => True).
Proof.
  intros [(Hsorted & Hnd & Hdom) Hlast] Hsel Hc.
  set (indices := reverse (lexsort (keys X) (size_of X <$> keys X))).
  destruct (cycle_indices X) as [Hperm Hall]. fold indices in Hperm, Hall.
  assert (Hlen : length indices = length (keys X))
    by (by rewrite Hperm, length_seq).
  assert (Hndi : NoDup indices) by (rewrite Hperm; apply NoDup_seq).
  rewrite cycle_order_lookup in Hc. fold indices in Hc.
  destruct (indices !! c) as [i|] eqn:Hci; [|done]. simpl in Hc.
  assert (Hcn : c < length (keys X))
    by (rewrite <- Hlen; by eapply lookup_lt_Some).
  set (c' := (c + 1) mod length (keys X)).
  assert (Hc'n : c' < length (keys X)) by (apply Nat.mod_upper_bound; lia).
  destruct (lookup_lt_is_Some_2 indices c') as [j Hj]; [lia|].
  destruct (proj1 (Forall_forall _ _) Hall j) as [name' Hname'];
    [by eapply list_elem_of_lookup_2|].
  exists name'. split.
  { rewrite cycle_order_lookup. fold indices c'. by rewrite Hj. }
  destruct (proj1 (Hdom name')) as [r' Hr'];
    [by eapply list_elem_of_lookup_2|].
  unfold select_next. apply moves_get_bind. intros s0 Hs0.
  apply moves_frame with (X1 := X); [done|].
  assert (Hk0 : keys s0 = keys X) by apply Hs0.
  assert (Hsel0 : selected_bundle s0 = Some name)
    by (rewrite <- Hsel; apply Hs0).
  rewrite Hk0, Hsel0.
  eapply moves_bind.
  { apply moves_sizes. intros k Hk. by apply Hdom. }
  intros ? ->. fold indices.
  assert (Hpos : position (keys X) indices name = ret c).
  { unfold position. rewrite (index_NoDup _ _ _ Hnd Hc). simpl.
    by rewrite (index_NoDup _ _ _ Hndi Hci). }
  rewrite Hpos.
  eapply moves_bind with (X1 := X) (φ := fun a => a = c').
  { exact (moves_ret X c' (fun a => a = c') eq_refl). }
  intros ? ->.
  assert (Hkey : key_at (keys X) indices c' = ret name').
  { unfold key_at. rewrite Hj. simpl. by rewrite Hname'. }
  rewrite Hkey.
  eapply moves_bind; [by apply moves_ret with (φ := fun a => a = name')|].
  intros ? ->. by eapply moves_select.
Qed.

(** [n] calls of [select_next] advance the selection [n] places in the
    cycle. *)
Lemma select_next_times X n : forall c name s,
  well_formed X ->
  cycle_order X !! c = Some name ->
  frame (set_selected_bundle (Some name) X) s ->
  exists name' s',
    cycle_order X !! ((c + n) mod length (keys X)) = Some name' /\
    times n select_next s = Ok tt s' /\
    frame (set_selected_bundle (Some name') X) s'.
Proof.
  induction n as [|n IH]; intros c name s Hwf Hc Hs.
  - exists name, s. rewrite Nat.add_0_r, Nat.mod_small; [done|].
    rewrite <- cycle_order_length. by eapply lookup_lt_Some.
  - assert (Hwfs : well_formed s).
    { eapply well_formed_frame; [exact Hs|]. exact Hwf. }
    assert (Hcs : cycle_order s = cycle_order X).
    { by rewrite (cycle_order_frame _ _ Hs). }
    assert (Hks : keys s = keys X) by apply Hs.
    assert (Hsels : selected_bundle s = Some name) by apply Hs.
    destruct (moves_select_next s name c Hwfs Hsels) as (name1 & Hc1 & Hm);
      [by rewrite Hcs|].
    rewrite Hcs, Hks in Hc1.
    apply moves_returns in Hm as ([] & s1 & Hrun & _ & Hs1).
    assert (Hf1 : frame (set_selected_bundle (Some name1) X) s1).
    { eapply frame_trans; [|exact Hs1].
      unfold frame in *. simpl in *. intuition. }
    destruct (IH _ name1 s1 Hwf Hc1 Hf1) as (name' & s' & Hc' & Hrun' & Hs').
    exists name', s'. split; [|split; [|done]].
    + rewrite Nat.Div0.add_mod_idemp_l in Hc'.
      by replace (c + S n) with (c + 1 + n) by lia.
    + simpl. monad_unfold. by rewrite Hrun.
Qed.

(** The cycle is the key list rearranged: larger bundles first, and
    among bundles of one size the later name first. *)
Lemma cycle_order_sorted X :
  cycle_order X ≡ₚ keys X /\
  StronglySorted (comes_before X) (cycle_order X).
Proof.
  set (key := fun e : nat * string * nat => e.1.2).
  set (entries := imap (fun i '(size, k) => (size, k, i))
                       (zip (size_of X <$> keys X) (keys X))).
  set (sorted_entries := merge_sort lexsort_le entries).
  assert (Hentries : Forall (fun e => keys X !! e.2 = Some (key e) /\
                                      e.1.1 = size_of X (key e)) entries).
  { apply Forall_forall. intros e [i Hi]%list_elem_of_lookup.
    unfold entries in Hi. rewrite list_lookup_imap in Hi.
    destruct (zip _ _ !! i) as [[sz k]|] eqn:Hz; simplify_eq/=.
    apply lookup_zip_Some in Hz as [Hsz Hk].
    rewrite list_lookup_fmap, Hk in Hsz. by simplify_eq/=. }
  assert (Hsorted : Forall (fun e => keys X !! e.2 = Some (key e) /\
                                     e.1.1 = size_of X (key e))
                           (reverse sorted_entries)).
  { unfold sorted_entries.
    by rewrite reverse_Permutation, merge_sort_Permutation. }
  assert (Hcycle : cycle_order X = key <$> reverse sorted_entries).
  { unfold cycle_order, lexsort. fold entries sorted_entries.
    rewrite <- fmap_reverse.
    induction (reverse sorted_entries) as [|e l IH]; [done|].
    apply Forall_cons in Hsorted as [[He _] Hl]. cbn. rewrite He. cbn.
    f_equal. by apply IH. }
  rewrite Hcycle. split.
  - unfold sorted_entries.
    rewrite reverse_Permutation, merge_sort_Permutation.
    unfold entries, key. rewrite fmap_imap.
    rewrite (imap_ext _ (const snd)) by (by intros i [sz k] _).
    rewrite imap_const, snd_zip; [done|]. by rewrite length_fmap.
  - assert (Hflip : StronglySorted (flip lexsort_le) (reverse sorted_entries)).
    { apply Sorted_StronglySorted; [apply flip_Transitive, _|].
      apply Sorted_reverse, Sorted_merge_sort, _. }
    eapply StronglySorted_fmap;
      [|exact (StronglySorted_Forall _ _ _ Hflip Hsorted)].
    intros [[sx kx] ix] [[sy ky] iy]. unfold key, comes_before, flip. simpl.
    intros (Hle & [_ ->] & [_ ->]).
    destruct Hle as [?|[Heq Hk]]; [by left|]. right. split; [done|].
    destruct Hk as [[_ ?]|[-> _]]; done.
Qed.

End Selection.

(** ** The registry *)

Section Registry.
Context `{Metric} `{Toolkit}.
Import StreamlinesVizu.

Lemma frame_outside_registry s s' :
  frame s s' <->
  keys s' = keys s /\ bundles s' = bundles s /\ outside_registry s s'.
Proof. unfold frame, outside_registry. tauto. Qed.

Lemma heap_insert_contents (s : t) r b :
  contents b = contents (heap s !!! r) ->
  forall r', contents (<[r := b]> (heap s) !!! r') = contents (heap s !!! r').
Proof.
  intros Hb r'. destruct (decide (r = r')) as [<-|Hne].
  - by rewrite lookup_total_insert_eq.
  - by rewrite lookup_total_insert_ne.
Qed.

(** [add_bundle] always returns: the name joins the keys, which are
    sorted again, and the registry maps it to the bundle. *)
Lemma add_bundle_returns s name r :
  exists s', add_bundle name r s = Ok tt s' /\
    keys s' = sorted (keys s ++ [name]) /\
    bundles s' = <[name := r]> (bundles s) /\
    outside_registry s s'.
Proof.
  eexists. split; [reflexivity|]. simpl. repeat split.
  simpl. by apply heap_insert_contents.
Qed.

(** [remove_bundle] of a name of the keys that the registry maps. *)
Lemma remove_bundle_returns s name r keys' :
  remove (keys s) name = Some keys' ->
  bundles s !! name = Some r ->
  exists s', remove_bundle name s = Ok tt s' /\
    keys s' = sorted keys' /\
    bundles s' = delete name (bundles s) /\
    outside_registry s s'.
Proof.
  intros Hrem Hr. unfold remove_bundle. run_monad. rewrite Hrem. run_monad.
  unfold bundles_getitem. run_monad. rewrite Hr.
  eexists. split; [reflexivity|]. simpl. repeat split.
  simpl. by apply heap_insert_contents.
Qed.

(** [remove_bundle] of a name that is not among the keys. *)
Lemma remove_bundle_raises s name :
  name ∉ keys s -> remove_bundle name s = Raise ValueError s.
Proof.
  intros Hnin. unfold remove_bundle. run_monad.
  by rewrite (remove_None _ _ Hnin).
Qed.

Lemma registry_consistent_add s s' name r :
  registry_consistent s ->
  name ∉ keys s ->
  keys s' = sorted (keys s ++ [name]) ->
  bundles s' = <[name := r]> (bundles s) ->
  registry_consistent s'.
Proof.
  intros (Hsorted & Hnd & Hdom) Hfresh Hk Hb.
  unfold registry_consistent. rewrite Hk, Hb. split; [|split].
  - apply sorted_Sorted.
  - rewrite sorted_Permutation. apply NoDup_app.
    split; [done|]. split; [|apply NoDup_singleton].
    intros k Hin ->%list_elem_of_singleton. done.
  - intros k. rewrite sorted_Permutation, elem_of_app, list_elem_of_singleton.
    rewrite lookup_insert. rewrite Hdom.
    case_decide as Hk'; [subst|].
    + split; [by eauto | by right].
    + split; [by intros [?|?] | by left].
Qed.

Lemma registry_consistent_remove s s' name keys' :
  registry_consistent s ->
  remove (keys s) name = Some keys' ->
  keys s' = sorted keys' ->
  bundles s' = delete name (bundles s) ->
  registry_consistent s'.
Proof.
  intros (Hsorted & Hnd & Hdom) Hrem Hk Hb.
  apply remove_Some in Hrem. rewrite Hrem in Hnd.
  apply NoDup_cons in Hnd as [Hnin Hnd'].
  unfold registry_consistent. rewrite Hk, Hb. split; [|split].
  - apply sorted_Sorted.
  - by rewrite sorted_Permutation.
  - intros k. rewrite sorted_Permutation. rewrite lookup_delete.
    specialize (Hdom k). rewrite Hrem, elem_of_cons in Hdom.
    case_decide as Hk'; [subst|].
    + split; [done | by intros [? ?]].
    + rewrite <- Hdom. split; [by right | by intros [?|?]].
Qed.

(** A form of consistency that can be checked by evaluation. *)
Lemma registry_consistent_check s :
  Sorted String.le (keys s) ->
  NoDup (keys s) ->
  dom (bundles s) = list_to_set (keys s) ->
  registry_consistent s.
Proof.
  intros Hsorted Hnd Hdom. split; [done|]. split; [done|].
  intros k. rewrite <- elem_of_dom, Hdom. by rewrite elem_of_list_to_set.
Qed.

End Registry.

(** ** The undo memory *)

Section Undo_memory.
Context `{Metric} `{Toolkit}.
Import StreamlinesVizu.

(** A call that keeps the undo memory, whatever the state. *)
Lemma keeps_undo_memory {A} (m : M t A) s :
  (forall d, keeps (session_invariant (of_memory (fun d' => d' = d))
                                      (fun _ => True) no_ref) m) ->
  undo_memory (state_of (m s)) = undo_memory s.
Proof.
  intros Hm.
  assert (Hs : session_invariant (of_memory (fun d' => d' = undo_memory s))
                                 (fun _ => True) no_ref s) by done.
  apply (keeps_state_of _ _ _ (Hm _)) in Hs. apply Hs.
Qed.

Lemma select_next_remove_undo_memory name s :
  undo_memory (state_of ((select_next ;; remove_bundle name) s)) =
  undo_memory s.
Proof.
  apply keeps_undo_memory. intros d.
  apply keeps_bind; [by apply keeps_select_next|].
  intros _. by apply keeps_remove_bundle.
Qed.

(** A verdict that goes through appends its entry to the undo memory. *)
Lemma act_undo_memory v s s' :
  act v s = Ok tt s' ->
  undo_memory s' = deque_append (record_of v s) (undo_memory s).
Proof.
  destruct v; simpl; [unfold like_bundle | unfold dislike_bundle];
    unfold bundles_getitem, record_of; run_monad;
    (destruct (selected_bundle s) as [name|]; simpl; [|done]);
    (destruct (bundles s !! name) as [r|]; simpl; [|done]);
    match goal with
    | |- context [select_next ?sa] =>
        pose proof (select_next_remove_undo_memory name sa) as Hmem
    end; monad_unfold;
    (destruct (select_next _) as [[] sb|]; [|done]);
    intros Hrun; rewrite Hrun in Hmem; exact Hmem.
Qed.

(** [undo] takes the newest entry off the undo memory, if there is one. *)
Lemma undo_undo_memory s :
  items (undo_memory (state_of (undo s))) = removelast (items (undo_memory s)).
Proof.
  unfold undo. run_monad. unfold deque_pop.
  destruct (last (items (undo_memory s))) as [memory|] eqn:Hlast; simpl.
  2: { apply last_None in Hlast. by rewrite Hlast. }
  set (rest := {| maxlen := maxlen (undo_memory s);
                  items := removelast (items (undo_memory s)) |}).
  assert (Hkeep : forall (m : M t unit) s1,
            (forall d, keeps (session_invariant (of_memory (fun d' => d' = d))
                                                (fun _ => True) no_ref) m) ->
            undo_memory s1 = rest ->
            items (undo_memory (state_of (m s1))) =
              removelast (items (undo_memory s))).
  { intros m s1 Hm Hs1. by rewrite keeps_undo_memory, Hs1. }
  destruct (decide (action memory = "like"));
    [|destruct (decide (action memory = "dislike")); [|done]].
  - apply (Hkeep (select _)); [|done]. intros d. by apply keeps_select.
  - apply (Hkeep (select _)); [|done]. intros d. by apply keeps_select.
Qed.

Lemma undo_times_undo_memory n : forall s,
  length (items (undo_memory (undo_times n s))) =
  length (items (undo_memory s)) - n.
Proof.
  induction n as [|n IH]; intros s; simpl; [lia|].
  rewrite undo_undo_memory, length_removelast.
  fold (undo_times n s). rewrite IH. lia.
Qed.

(** The entries of a deque after a run of appends. *)
Lemma items_appends K (ms : list Memory) : forall d,
  bounded K d ->
  items (foldl (fun d m => deque_append m d) d ms) =
  drop (length (items d ++ ms) - K) (items d ++ ms).
Proof.
  induction ms as [|m ms IH]; intros d Hd; simpl.
  - destruct Hd as [_ Hlen]. rewrite app_nil_r.
    replace (length (items d) - K) with 0 by lia. done.
  - rewrite (IH _ (bounded_append K m d Hd)).
    destruct Hd as [Hmax Hlen]. unfold deque_append. rewrite Hmax. simpl.
    case_decide as Hfull.
    + rewrite length_app in Hfull. simpl in Hfull.
      destruct (items d) as [|x l] eqn:Hitems; simpl in *.
      * assert (K = 0) as -> by lia. by rewrite !Nat.sub_0_r.
      * rewrite !length_app. simpl.
        replace (S (length l + S (length ms)) - K)
          with (S (length l + 1 + length ms - K)) by lia.
        simpl. by rewrite <- app_assoc.
    + rewrite <- app_assoc. done.
Qed.

Lemma for_each_act_undo_memory (vs : list verdict) : forall s s',
  for_each vs act s = Ok tt s' ->
  undo_memory s' =
  foldl (fun d m => deque_append m d) (undo_memory s) (memorized vs s).
Proof.
  induction vs as [|v vs IH]; intros s s'; simpl.
  - by intros [= <-].
  - monad_unfold. destruct (act v s) as [[] s1|] eqn:Hact; [|done].
    intros Hrest. simpl. rewrite (IH _ _ Hrest).
    by rewrite (act_undo_memory _ _ _ Hact).
Qed.

End Undo_memory.

(** ** Accepting a bundle, and undoing that *)

Section Accept_undo.
Context `{Metric} `{Toolkit}.
Import StreamlinesVizu.

(** With room for at least one entry, what was appended last is what
    [pop] returns. *)
Lemma deque_pop_append {A} (x : A) (d : deque A) :
  maxlen d <> Some 0 ->
  exists rest, deque_pop (deque_append x d) = Some (x, rest).
Proof.
  intros Hroom. unfold deque_pop, deque_append.
  destruct (maxlen d) as [m|]; simpl.
  - case_decide as Hfull.
    + rewrite length_app in Hfull. simpl in Hfull.
      destruct (items d) as [|y l]; simpl in *.
      * destruct m; [done | lia].
      * rewrite last_snoc. eauto.
    + rewrite last_snoc. eauto.
  - rewrite last_snoc. eauto.
Qed.

Lemma slice_to_minus_app {A} (l k : list A) :
  k <> [] \/ l = [] -> slice_to_minus (l ++ k) (length k) = l.
Proof.
  intros Hk. unfold slice_to_minus. case_decide as Hzero.
  - apply length_zero_iff_nil in Hzero. subst k.
    destruct Hk as [?| ->]; done.
  - rewrite length_app.
    replace (length l + length k - length k) with (length l) by lia.
    by rewrite take_app_length.
Qed.

(** The tail of both verdicts: the selection moves on and the bundle
    leaves the registry. *)
Lemma select_next_remove_bundle_returns s name r :
  well_formed s ->
  selected_bundle s = Some name ->
  bundles s !! name = Some r ->
  exists s1 keys',
    (select_next ;; remove_bundle name) s = Ok tt s1 /\
    remove (keys s) name = Some keys' /\
    keys s1 = sorted keys' /\
    bundles s1 = delete name (bundles s) /\
    inliers s1 = inliers s /\
    outliers s1 = outliers s /\
    undo_memory s1 = undo_memory s /\
    last_bundles_visibility_state s1 = last_bundles_visibility_state s /\
    forall r', contents (heap s1 !!! r') = contents (heap s !!! r').
Proof.
  intros Hwf Hsel Hr.
  assert (Hin : name ∈ keys s).
  { destruct Hwf as [(_ & _ & Hdom) _]. apply Hdom. eauto. }
  destruct (cycle_order_sorted s) as [Hperm _].
  assert (Hc : exists c, cycle_order s !! c = Some name).
  { apply list_elem_of_lookup. by rewrite Hperm. }
  destruct Hc as [c Hc].
  destruct (moves_select_next s name c Hwf Hsel Hc) as (next & _ & Hm).
  apply moves_returns in Hm as ([] & sb & Hnext & _ & Hsb).
  destruct Hsb as (Hk & Hb & Hi & Ho & Hu & _ & _ & Hl & Hh). simpl in *.
  destruct (remove_elem_of _ _ Hin) as [keys' Hrem].
  destruct (remove_bundle_returns sb name r keys') as (s1 & Hrun & Hk1 & Hb1 & Hout).
  { by rewrite Hk. }
  { by rewrite Hb. }
  destruct Hout as (Hi1 & Ho1 & Hu1 & _ & _ & Hl1 & Hh1).
  exists s1, keys'. monad_unfold. rewrite Hnext, Hrun.
  repeat split; first [congruence | intros r'; by rewrite Hh1, Hh].
Qed.

(** Accepting the selected bundle. *)
Lemma like_bundle_returns s name r :
  well_formed s ->
  selected_bundle s = Some name ->
  bundles s !! name = Some r ->
  exists s1 keys',
    like_bundle s = Ok tt s1 /\
    remove (keys s) name = Some keys' /\
    keys s1 = sorted keys' /\
    bundles s1 = delete name (bundles s) /\
    inliers s1 = inliers s ++ Bundle.streamlines (heap s !!! r) /\
    outliers s1 = outliers s /\
    undo_memory s1 = deque_append (mkMemory "like" name r) (undo_memory s) /\
    last_bundles_visibility_state s1 = last_bundles_visibility_state s /\
    forall r', contents (heap s1 !!! r') = contents (heap s !!! r').
Proof.
  intros Hwf Hsel Hr.
  set (sa := set_inliers (inliers s ++ Bundle.streamlines (heap s !!! r))
               (set_undo_memory
                  (deque_append (mkMemory "like" name r) (undo_memory s)) s)).
  destruct (select_next_remove_bundle_returns sa name r)
    as (s1 & keys' & Hrun & Hfacts); [done..|].
  exists s1, keys'. split; [|exact Hfacts].
  unfold like_bundle, bundles_getitem. run_monad. rewrite Hsel. simpl.
  rewrite Hr. simpl. exact Hrun.
Qed.

(** Undoing an accepted bundle whose entry is the newest one. *)
Lemma undo_like_returns s name r rest :
  deque_pop (undo_memory s) = Some (mkMemory "like" name r, rest) ->
  last_bundles_visibility_state s = "dimmed" \/
  last_bundles_visibility_state s = "hidden" ->
  exists s2,
    undo s = Ok tt s2 /\
    keys s2 = sorted (keys s ++ [name]) /\
    bundles s2 = <[name := r]> (bundles s) /\
    inliers s2 = slice_to_minus (inliers s)
                   (length (Bundle.streamlines (heap s !!! r))) /\
    outliers s2 = outliers s /\
    undo_memory s2 = rest /\
    selected_bundle s2 = Some name /\
    forall r', contents (heap s2 !!! r') = contents (heap s !!! r').
Proof.
  intros Hpop Hlast. unfold undo. run_monad. rewrite Hpop. simpl.
  match goal with
  | |- context [select (Some name) ?sc] =>
      destruct (moves_returns _ _ _ _ (moves_select sc name r
                  ltac:(simpl; apply lookup_insert_eq) ltac:(exact Hlast)))
        as ([] & s2 & -> & _ & Hs2)
  end.
  exists s2. split; [done|].
  destruct Hs2 as (Hk & Hb & Hi & Ho & Hu & Hsel & _ & _ & Hh). simpl in *.
  repeat split; try done.
  intros r'. rewrite Hh.
  destruct (decide (r = r')) as [<-|Hne].
  - by rewrite lookup_total_insert_eq.
  - by rewrite lookup_total_insert_ne.
Qed.

End Accept_undo.

(** ** The names of the children *)

Lemma append_cons x (a b : string) : String x a +:+ b = String x (a +:+ b).
Proof. reflexivity. Qed.

Lemma append_assoc (a b c : string) : (a +:+ b) +:+ c = a +:+ (b +:+ c).
Proof. induction a as [|x a IH]; [done|]. by rewrite !append_cons, IH. Qed.

Lemma append_nil_r (a : string) : a +:+ "" = a.
Proof. induction a as [|x a IH]; [done|]. by rewrite append_cons, IH. Qed.

Lemma begins_refl k : begins k k.
Proof. exists "". by rewrite append_nil_r. Qed.

Lemma begins_trans k1 k2 k3 : begins k1 k2 -> begins k2 k3 -> begins k1 k3.
Proof.
  intros [x ->] [y ->]. exists (x +:+ y). apply append_assoc.
Qed.

(** Two beginnings of one string: one is the beginning of the other. *)
Lemma begins_both k1 : forall k2 k,
  begins k1 k -> begins k2 k -> begins k1 k2 \/ begins k2 k1.
Proof.
  induction k1 as [|a k1 IH]; intros k2 k [x Hx] [y Hy].
  - left. by exists k2.
  - destruct k2 as [|b k2]; [right; by eexists|].
    subst k. rewrite !append_cons in Hy. injection Hy as -> Hy.
    destruct (IH k2 (k1 +:+ x)) as [[z ->]|[z ->]].
    + by exists x.
    + by exists y.
    + left. by exists z.
    + right. by exists z.
Qed.

Lemma begins_antisym k1 k2 : begins k1 k2 -> begins k2 k1 -> k1 = k2.
Proof.
  intros [x ->] [y Hy]. rewrite append_assoc in Hy.
  rewrite <- (append_nil_r k1) in Hy at 1.
  apply (inj (String.app k1)) in Hy.
  destruct x; [by rewrite append_nil_r | done].
Qed.

(** The decimal digits of a number hold no slash. *)
Lemma string_of_uint_slash d :
  "/"%char ∉ list_ascii_of_string (NilZero.string_of_uint d).
Proof.
  assert (Hd : forall d, "/"%char ∉ list_ascii_of_string (NilEmpty.string_of_uint d)).
  { clear d. intros d. induction d; simpl;
      [apply not_elem_of_nil | apply not_elem_of_cons; split; [done | assumption]..]. }
  destruct d; try apply Hd. simpl. apply not_elem_of_cons. split; [done|].
  apply not_elem_of_nil.
Qed.

Lemma string_of_uint_inj i j :
  NilZero.string_of_uint (Nat.to_uint i) = NilZero.string_of_uint (Nat.to_uint j) ->
  i = j.
Proof.
  intros Heq.
  assert (Hnn : forall n, Nat.to_uint n <> Decimal.Nil).
  { intros n. rewrite <- (Unsigned.of_to n) at 1. rewrite Unsigned.to_of.
    apply unorm_nonnil. }
  apply Unsigned.to_uint_inj.
  assert (Hs : Some (Nat.to_uint i) = Some (Nat.to_uint j)); [|congruence].
  rewrite <- (NilZero.usu _ (Hnn i)), <- (NilZero.usu _ (Hnn j)). by rewrite Heq.
Qed.

(** Where the first slash is decides what comes before it. *)
Lemma first_slash d1 : forall d2 x y,
  "/"%char ∉ list_ascii_of_string d1 ->
  "/"%char ∉ list_ascii_of_string d2 ->
  d1 +:+ String "/" x = d2 +:+ String "/" y -> d1 = d2.
Proof.
  induction d1 as [|a d1 IH]; intros [|b d2] x y H1 H2 Heq;
    rewrite ?append_cons in Heq; simpl in *.
  - done.
  - injection Heq as <- _. apply not_elem_of_cons in H2 as [? _]. done.
  - injection Heq as -> _. apply not_elem_of_cons in H1 as [? _]. done.
  - injection Heq as -> Heq.
    apply not_elem_of_cons in H1 as [_ H1]. apply not_elem_of_cons in H2 as [_ H2].
    f_equal. by eapply IH.
Qed.

Lemma begins_child_name p i : begins p (child_name p i).
Proof. by eexists. Qed.

Lemma child_name_longer p i : child_name p i <> p.
Proof.
  unfold child_name. intros Heq. rewrite <- (append_nil_r p) in Heq at 2.
  apply (inj (String.app p)) in Heq.
  destruct (NilZero.string_of_uint (Nat.to_uint i)); done.
Qed.

(** A child of [p] that begins another child of [p] is that child. *)
Lemma begins_child_name_inj p i j :
  begins (child_name p i) (child_name p j) -> i = j.
Proof.
  intros [x Hx]. unfold child_name in Hx.
  rewrite !append_assoc in Hx. apply (inj (String.app p)) in Hx.
  apply string_of_uint_inj. symmetry. simpl in Hx.
  eapply first_slash; [apply string_of_uint_slash..|exact Hx].
Qed.

(** ** Names that are apart *)

(** Names taken from names that are apart are apart. *)
Lemma names_apart_submseteq l l' :
  l' ⊆+ l -> names_apart l -> names_apart l'.
Proof.
  intros Hsub [Hnd Hanti]. split.
  - destruct (submseteq_Permutation _ _ Hsub) as [k Hk].
    rewrite Hk in Hnd. by apply NoDup_app in Hnd as [? _].
  - intros k1 k2 H1 H2. apply Hanti; by eapply elem_of_submseteq.
Qed.

Lemma names_apart_Permutation l l' :
  l ≡ₚ l' -> names_apart l -> names_apart l'.
Proof.
  intros Hperm. apply names_apart_submseteq. by rewrite Hperm.
Qed.

Lemma items_deque_append {A} (x : A) (d : deque A) :
  items (deque_append x d) `sublist_of` items d ++ [x].
Proof.
  unfold deque_append. destruct (maxlen d) as [m|]; simpl; [|done].
  case_decide; [|done]. apply (sublist_drop _ 1).
Qed.

Lemma items_deque_pop {A} (x : A) (d d' : deque A) :
  deque_pop d = Some (x, d') -> items d = items d' ++ [x].
Proof.
  unfold deque_pop.
  destruct (last (items d)) as [y|] eqn:Hlast; [|done]. intros [= -> <-].
  apply last_Some in Hlast as [l' ->]. simpl. by rewrite removelast_last.
Qed.

#[local] Instance child_name_inj p : Inj (=) (=) (child_name p).
Proof.
  intros i j Heq. apply (begins_child_name_inj p). rewrite Heq.
  apply begins_refl.
Qed.

(** A bundle gives way to its children: their names are new, and apart
    from each other and from the names that stay. *)
Lemma names_apart_children p l i m :
  names_apart (p :: l) ->
  names_apart ((child_name p <$> seq i m) ++ l).
Proof.
  intros [Hnd Hanti]. apply NoDup_cons in Hnd as [Hp Hnd].
  assert (Hchild : forall c, c ∈ child_name p <$> seq i m ->
                             exists j, c = child_name p j).
  { intros c (j & -> & _)%list_elem_of_fmap. by exists j. }
  assert (Hnew : forall c k, c ∈ child_name p <$> seq i m -> k ∈ l ->
                             ~ begins c k /\ ~ begins k c).
  { intros c k [j ->]%Hchild Hk. split; intros Hb.
    - assert (p = k); [|by subst].
      apply Hanti; [by left | by right|].
      eapply begins_trans; [apply begins_child_name | exact Hb].
    - destruct (begins_both k p (child_name p j) Hb (begins_child_name p j))
        as [Hkp|Hpk].
      + assert (k = p); [|by subst]. apply Hanti; [by right | by left | done].
      + assert (p = k); [|by subst]. apply Hanti; [by left | by right | done]. }
  split.
  - apply NoDup_app. split; [|split; [|done]].
    + apply (NoDup_fmap_2 _), NoDup_seq.
    + intros c Hc Hl. destruct (Hnew c c Hc Hl) as [Hb _].
      apply Hb, begins_refl.
  - intros k1 k2 [H1|H1]%elem_of_app [H2|H2]%elem_of_app Hb.
    + destruct (Hchild _ H1) as [j1 ->]. destruct (Hchild _ H2) as [j2 ->].
      f_equal. by eapply begins_child_name_inj.
    + by destruct (Hnew k1 k2 H1 H2).
    + by destruct (Hnew k2 k1 H2 H1).
    + apply Hanti; [by right | by right | done].
Qed.

(** ** A consistent session stays consistent *)

Section Consistency.
Context `{Metric} `{Toolkit}.
Import StreamlinesVizu.

Lemma session_consistent_unchanged s s' :
  undo_memory s' = undo_memory s ->
  keys s' = keys s ->
  bundles s' = bundles s ->
  last_bundles_visibility_state s' = "dimmed" \/
  last_bundles_visibility_state s' = "hidden" ->
  (forall r, known_refs s r -> is_Some (heap s' !! r)) ->
  session_consistent s -> session_consistent s'.
Proof.
  intros Hu Hk Hb Hl Hh ([Hcons _] & Hnames & _).
  unfold session_consistent, well_formed, registry_consistent, known_names,
    refs_present, known_refs in *.
  by rewrite Hu, Hk, Hb.
Qed.

(** The handlers that leave the undo memory, the key list and the
    registry alone. *)
Lemma keeps_unchanged {A} (m : M t A) :
  (forall d ks bs R,
     keeps (session_invariant (registry_is d ks bs) (fun _ => True) R) m) ->
  keeps session_consistent m.
Proof.
  intros Hm s Hs.
  assert (Hinv : session_invariant
                   (registry_is (undo_memory s) (keys s) (bundles s))
                   (fun _ => True) (known_refs s) s).
  { split; [|split; [done|]]; [|apply Hs]. repeat split. apply Hs. }
  apply Hm in Hinv.
  destruct (m s) as [a s'|e s']; destruct Hinv as ((Hu & Hk & Hb & Hl) & _ & Hh);
    by eapply session_consistent_unchanged.
Qed.

(** No handler takes a bundle object out of the store. *)
Lemma heap_grows {A} (m : M t A) s r :
  (forall R, keeps (session_invariant (of_memory (fun _ => True))
                                      (fun _ => True) R) m) ->
  is_Some (heap s !! r) -> is_Some (heap (state_of (m s)) !! r).
Proof.
  intros Hm Hr.
  assert (Hinv : session_invariant (of_memory (fun _ => True)) (fun _ => True)
                   (fun r' => is_Some (heap s !! r')) s) by done.
  apply Hm in Hinv. destruct (m s) as [a s'|e s']; by apply Hinv.
Qed.

Lemma registry_is_background d0 ks0 bs0 d ks bs l l' :
  l' = "dimmed" \/ l' = "hidden" ->
  registry_is d0 ks0 bs0 d ks bs l -> registry_is d0 ks0 bs0 d ks bs l'.
Proof. intros Hl (? & ? & ? & _). done. Qed.

Lemma keeps_consistent_select name : keeps session_consistent (select name).
Proof.
  apply keeps_unchanged. intros d ks bs R.
  apply keeps_select; [done | apply registry_is_background].
Qed.


(** Both verdicts on the selected bundle. *)
Lemma act_returns v s name r :
  well_formed s ->
  selected_bundle s = Some name ->
  bundles s !! name = Some r ->
  exists s1 keys',
    act v s = Ok tt s1 /\
    remove (keys s) name = Some keys' /\
    keys s1 = sorted keys' /\
    bundles s1 = delete name (bundles s) /\
    undo_memory s1 = deque_append (record_of v s) (undo_memory s) /\
    last_bundles_visibility_state s1 = last_bundles_visibility_state s.
Proof.
  intros Hwf Hsel Hr.
  assert (Hrec : record_of v s =
                 mkMemory (match v with accept => "like" | reject => "dislike" end)
                          name r).
  { unfold record_of. rewrite Hsel. f_equal. exact (f_equal (default 0) Hr). }
  rewrite Hrec.
  destruct v; simpl;
    [ set (sa := set_inliers (inliers s ++ Bundle.streamlines (heap s !!! r))
                   (set_undo_memory
                      (deque_append (mkMemory "like" name r) (undo_memory s)) s))
    | set (sa := set_outliers (outliers s ++ Bundle.streamlines (heap s !!! r))
                   (set_undo_memory
                      (deque_append (mkMemory "dislike" name r) (undo_memory s)) s)) ];
    (destruct (select_next_remove_bundle_returns sa name r)
       as (s1 & keys' & Hrun & Hrem & Hk & Hb & _ & _ & Hu & Hl & _); [done..|]);
    exists s1, keys'; (split; [|done]);
    [unfold like_bundle | unfold dislike_bundle];
    unfold bundles_getitem; run_monad; rewrite Hsel; simpl; rewrite Hr; simpl;
    exact Hrun.
Qed.

Lemma keeps_consistent_act v : keeps session_consistent (act v).
Proof.
  intros s Hs.
  destruct (selected_bundle s ≫= fun k => bundles s !! k) as [r|] eqn:Hget.
  2: { assert (Hraise : act v s = Raise KeyError s); [|by rewrite Hraise].
       destruct v; simpl; [unfold like_bundle | unfold dislike_bundle];
         unfold bundles_getitem; run_monad; by rewrite Hget. }
  destruct (selected_bundle s) as [name|] eqn:Hsel; [simpl in Hget | done].
  destruct Hs as (Hwf & Hnames & Hrefs).
  assert (Hgrows : forall r', is_Some (heap s !! r') ->
                              is_Some (heap (state_of (act v s)) !! r')).
  { intros r'. apply heap_grows. intros R.
    destruct v; [apply keeps_like_bundle | apply keeps_dislike_bundle]; done. }
  destruct (act_returns v s name r Hwf Hsel Hget)
    as (s1 & keys' & Hrun & Hrem & Hk & Hb & Hu & Hl).
  rewrite Hrun in *. simpl in Hgrows.
  split; [|split].
  - split; [|rewrite Hl; apply Hwf].
    eapply registry_consistent_remove; [apply Hwf | done..].
  - eapply names_apart_submseteq; [|exact Hnames].
    unfold known_names. rewrite Hk, Hu. apply remove_Some in Hrem.
    rewrite Hrem, sorted_Permutation.
    transitivity (keys' ++ (bundle_name <$> items (undo_memory s) ++ [record_of v s])).
    + apply submseteq_app; [done|].
      apply sublist_submseteq, fmap_sublist, items_deque_append.
    + apply Permutation_submseteq. rewrite fmap_app. simpl.
      rewrite Hsel. simpl.
      rewrite (Permutation_app_comm _ [name]). simpl.
      by rewrite Permutation_middle.
  - intros r' Hr'. apply Hgrows, Hrefs. unfold known_refs in *.
    rewrite Hb, Hu in Hr'. destruct Hr' as [[k Hk']|(m & Hm & <-)].
    + apply lookup_delete_Some in Hk' as [_ Hk']. eauto.
    + eapply elem_of_sublist in Hm; [|apply items_deque_append].
      apply elem_of_app in Hm as [Hm| ->%list_elem_of_singleton]; [by eauto|].
      left. exists name. rewrite Hget. unfold record_of. simpl.
      rewrite Hsel. f_equal. symmetry. exact (f_equal (default 0) Hget).
Qed.

Lemma keeps_consistent_save_button_callback :
  keeps session_consistent save_button_callback.
Proof.
  intros s (Hwf & Hnames & Hrefs). unfold save_button_callback. run_monad.
  split; [done|]. split.
  - eapply names_apart_submseteq; [|exact Hnames].
    unfold known_names. simpl. rewrite app_nil_r.
    apply sublist_submseteq, sublist_inserts_r. done.
  - intros r Hr. apply Hrefs. unfold known_refs in *. simpl in Hr.
    destruct Hr as [?|(m & Hm & _)]; [by left|].
    by apply elem_of_nil in Hm.
Qed.

(** [undo] with an entry in the undo memory. *)
Lemma undo_returns s memory rest :
  deque_pop (undo_memory s) = Some (memory, rest) ->
  last_bundles_visibility_state s = "dimmed" \/
  last_bundles_visibility_state s = "hidden" ->
  exists s2,
    undo s = Ok tt s2 /\
    undo_memory s2 = rest /\
    last_bundles_visibility_state s2 = last_bundles_visibility_state s /\
    (action memory = "like" \/ action memory = "dislike" ->
     keys s2 = sorted (keys s ++ [bundle_name memory]) /\
     bundles s2 = <[bundle_name memory := bundle memory]> (bundles s)) /\
    (action memory <> "like" -> action memory <> "dislike" ->
     keys s2 = keys s /\ bundles s2 = bundles s).
Proof.
  intros Hpop Hlast. unfold undo. run_monad. rewrite Hpop. simpl.
  destruct (decide (action memory = "like")) as [Hlike|Hlike];
    [|destruct (decide (action memory = "dislike")) as [Hdislike|Hdislike]].
  3: { eexists. split; [done|]. repeat split; tauto. }
  all: match goal with
       | |- context [select (Some ?name) ?sc] =>
           destruct (moves_returns _ _ _ _ (moves_select sc name (bundle memory)
                       ltac:(simpl; apply lookup_insert_eq) ltac:(exact Hlast)))
             as ([] & s2 & -> & _ & Hs2)
       end.
  all: exists s2; split; [done|].
  all: destruct Hs2 as (Hk & Hb & _ & _ & Hu & _ & _ & Hl & _); simpl in *.
  all: repeat split; done.
Qed.

Lemma keeps_consistent_undo : keeps session_consistent undo.
Proof.
  intros s (Hwf & Hnames & Hrefs).
  destruct (deque_pop (undo_memory s)) as [[memory rest]|] eqn:Hpop.
  2: { unfold undo. run_monad. by rewrite Hpop. }
  assert (Hgrows : forall r, is_Some (heap s !! r) ->
                             is_Some (heap (state_of (undo s)) !! r)).
  { intros r. apply heap_grows. intros R. by apply keeps_undo. }
  destruct (undo_returns s memory rest Hpop (proj2 Hwf))
    as (s2 & Hrun & Hu & Hl & Hback & Hdrop).
  rewrite Hrun in *. simpl in Hgrows.
  apply items_deque_pop in Hpop.
  assert (Hrest : forall r, known_refs s2 r ->
            (exists k, bundles s2 !! k = Some r) \/ known_refs s r).
  { intros r [?|(m & Hm & <-)]; [by left|]. right. right. exists m.
    split; [|done]. rewrite Hpop, elem_of_app. left. by rewrite <- Hu. }
  assert (Hmem : known_refs s (bundle memory)).
  { right. exists memory. split; [|done].
    rewrite Hpop, elem_of_app, list_elem_of_singleton. by right. }
  assert (Hknown : known_names s ≡ₚ
                   (keys s ++ [bundle_name memory]) ++ (bundle_name <$> items rest)).
  { unfold known_names. rewrite Hpop, fmap_app. simpl.
    rewrite <- !app_assoc. f_equiv. apply Permutation_app_comm. }
  destruct (decide (action memory = "like" \/ action memory = "dislike"))
    as [Hact|Hact].
  - destruct (Hback Hact) as [Hk Hb]. split; [|split].
    + split; [|rewrite Hl; apply Hwf].
      eapply registry_consistent_add; [apply Hwf | | done..].
      destruct Hnames as [Hnd _]. rewrite Hknown in Hnd.
      apply NoDup_app in Hnd as [Hnd _]. apply NoDup_app in Hnd as (_ & Hnin & _).
      intros Hin. apply (Hnin _ Hin). by left.
    + eapply names_apart_Permutation; [|exact Hnames].
      unfold known_names at 2. by rewrite Hk, Hu, sorted_Permutation.
    + intros r Hr. apply Hgrows, Hrefs.
      destruct (Hrest r Hr) as [[k Hk']|?]; [|done].
      rewrite Hb in Hk'. apply lookup_insert_Some in Hk' as [[_ <-]|[_ Hk']];
        [done | left; eauto].
  - destruct Hdrop as [Hk Hb]; [tauto..|]. split; [|split].
    + destruct Hwf as [Hcons Hlast]. unfold well_formed, registry_consistent.
      by rewrite Hk, Hb, Hl.
    + eapply names_apart_submseteq; [|exact Hnames].
      unfold known_names. rewrite Hk, Hu, Hpop, fmap_app.
      apply submseteq_app; [done|].
      apply sublist_submseteq, sublist_inserts_r. done.
    + intros r Hr. apply Hgrows, Hrefs.
      destruct (Hrest r Hr) as [[k Hk']|?]; [|done].
      rewrite Hb in Hk'. left; eauto.
Qed.

(** The loop of [apply_button_callback] registers every child, under
    names that are new. *)
Lemma add_children_returns parent children : forall i s,
  registry_consistent s ->
  NoDup (keys s ++ (child_name parent <$> seq i (length children))) ->
  exists s',
    add_children parent i children s = Ok tt s' /\
    registry_consistent s' /\
    keys s' ≡ₚ keys s ++ (child_name parent <$> seq i (length children)) /\
    undo_memory s' = undo_memory s /\
    last_bundles_visibility_state s' = last_bundles_visibility_state s /\
    (forall r, is_Some (heap s !! r) -> is_Some (heap s' !! r)) /\
    (forall k r, bundles s' !! k = Some r ->
       bundles s !! k = Some r \/ is_Some (heap s' !! r)).
Proof.
  induction children as [|child children IH]; intros i s Hcons Hnd.
  - exists s. simpl. rewrite app_nil_r.
    split; [done|]. split; [done|]. repeat split; auto.
  - simpl in Hnd. cbn [length seq fmap list_fmap].
    set (sn := set_next_ref (S (next_ref s))
                 (set_heap (<[next_ref s := child]> (heap s)) s)).
    destruct (add_bundle_returns sn (child_name parent i) (next_ref s))
      as (sa & Hadd & Hk & Hb & Hout).
    destruct Hout as (_ & _ & Hu & _ & _ & Hl & _).
    assert (Hperm : keys sa ≡ₚ keys s ++ [child_name parent i]).
    { by rewrite Hk, sorted_Permutation. }
    assert (Hgrows : forall r, is_Some (heap sn !! r) -> is_Some (heap sa !! r)).
    { intros r Hr.
      pose proof (heap_grows (add_bundle (child_name parent i) (next_ref s))
                    sn r) as Hg.
      rewrite Hadd in Hg. apply Hg; [|done].
      intros R. by apply keeps_add_bundle. }
    assert (Hnew : is_Some (heap sa !! next_ref s)).
    { apply Hgrows. simpl. rewrite lookup_insert_eq. eauto. }
    destruct (IH (S i) sa)
      as (s' & Hrun & Hcons' & Hk' & Hu' & Hl' & Hgrows' & Hb').
    { eapply (registry_consistent_add sn); [done| |done..].
      apply NoDup_app in Hnd as (_ & Hnin & _).
      intros Hin. apply (Hnin _ Hin). by left. }
    { rewrite Hperm, <- app_assoc. done. }
    exists s'. split; [|split; [done|split]].
    + change (add_children parent i (child :: children) s)
        with (match add_bundle (child_name parent i) (next_ref s) sn with
              | Ok _ s2 => add_children parent (S i) children s2
              | Raise e s2 => Raise e s2
              end).
      by rewrite Hadd.
    + by rewrite Hk', Hperm, <- app_assoc.
    + split; [by rewrite Hu', Hu|]. split; [by rewrite Hl', Hl|]. split.
      * intros r Hr. apply Hgrows', Hgrows. simpl.
        rewrite lookup_insert. case_decide; eauto.
      * intros k r Hk''. destruct (Hb' k r Hk'') as [Hsa|?]; [|by right].
        rewrite Hb in Hsa. simpl in Hsa.
        apply lookup_insert_Some in Hsa as [[_ <-]|[_ Hsa]];
          [right; by apply Hgrows' | by left].
Qed.

Lemma keeps_consistent_apply_button_callback :
  keeps session_consistent apply_button_callback.
Proof.
  intros s Hs. unfold apply_button_callback, bundles_getitem. run_monad.
  destruct (selected_bundle s) as [p|] eqn:Hsel; simpl; [|done].
  destruct (bundles s !! p) as [r|] eqn:Hget; simpl; [|done].
  unfold on_bundle.
  destruct (Bundle.get_cluster_as_bundles (heap s !!! r)) as [children b|e b].
  2: { eapply session_consistent_unchanged; [..|exact Hs]; try apply Hs; try done.
       intros r' Hr'. simpl. rewrite lookup_insert.
       case_decide; [by eauto | by apply Hs]. }
  set (s0 := set_heap (<[r := b]> (heap s)) s).
  destruct Hs as ([Hcons Hlast] & Hnames & Hrefs).
  assert (Hin : p ∈ keys s) by (apply Hcons; eauto).
  destruct (remove_elem_of _ _ Hin) as [rest Hrest].
  apply remove_Some in Hrest.
  assert (Hsplit : names_apart
            ((child_name p <$> seq 0 (length children)) ++
             rest ++ (bundle_name <$> items (undo_memory s)))).
  { apply names_apart_children. eapply names_apart_Permutation; [|exact Hnames].
    unfold known_names. by rewrite Hrest. }
  destruct (add_children_returns p children 0 s0)
    as (s1 & -> & Hcons1 & Hk1 & Hu1 & Hl1 & Hgrows1 & Hb1); [done| |].
  { simpl. rewrite Hrest. destruct Hnames as [Hnd _].
    unfold known_names in Hnd. rewrite Hrest in Hnd.
    apply NoDup_app in Hnd as [Hnd _]. destruct Hsplit as [Hnd' _].
    rewrite app_assoc in Hnd'. apply NoDup_app in Hnd' as [Hnd' _].
    apply NoDup_cons in Hnd as [Hp Hnd].
    rewrite (Permutation_app_comm _ rest) in Hnd'.
    simpl. apply NoDup_cons. split; [|done].
    rewrite elem_of_app. intros [?|Hc]; [done|].
    apply list_elem_of_fmap in Hc as (j & Hj & _).
    by apply (child_name_longer p j). }
  simpl in *.
  assert (Hin1 : p ∈ keys s1) by (rewrite Hk1, elem_of_app; by left).
  destruct (remove_elem_of _ _ Hin1) as [keys' Hrem].
  destruct (proj1 (proj2 (proj2 Hcons1) p) Hin1) as [r1 Hr1].
  assert (Hgrows2 : forall r', is_Some (heap s1 !! r') ->
                               is_Some (heap (state_of (remove_bundle p s1)) !! r')).
  { intros r'. apply heap_grows. intros R. by apply keeps_remove_bundle. }
  destruct (remove_bundle_returns s1 p r1 keys' Hrem Hr1)
    as (s2 & Hrun & Hk2 & Hb2 & Hout).
  rewrite Hrun in *. simpl in Hgrows2.
  destruct Hout as (_ & _ & Hu2 & _ & _ & Hl2 & _).
  apply (keeps_consistent_select None s2). split; [|split].
  - split; [|rewrite Hl2, Hl1; exact Hlast].
    by eapply registry_consistent_remove.
  - eapply names_apart_Permutation; [|exact Hsplit].
    unfold known_names. rewrite Hk2, Hu2, Hu1, sorted_Permutation. simpl.
    rewrite app_assoc. f_equiv. apply remove_Some in Hrem.
    rewrite Hk1, Hrest in Hrem. simpl in Hrem.
    apply Permutation_cons_inv in Hrem. by rewrite <- Hrem, Permutation_app_comm.
  - assert (Hgrows0 : forall r', is_Some (heap s !! r') ->
                                 is_Some (heap s2 !! r')).
    { intros r' Hr'. apply Hgrows2, Hgrows1. simpl. rewrite lookup_insert.
      case_decide; eauto. }
    intros r' [[k Hk']|(m & Hm & <-)].
    + rewrite Hb2 in Hk'. apply lookup_delete_Some in Hk' as [_ Hk'].
      destruct (Hb1 k r' Hk') as [Hs0|?]; [|by apply Hgrows2].
      apply Hgrows0, Hrefs. left. eauto.
    + apply Hgrows0, Hrefs. right. exists m. split; [|done].
      by rewrite Hu2, Hu1 in Hm.
Qed.

Lemma keeps_consistent_handler e : keeps session_consistent (handler e).
Proof.
  assert (Hun : forall (m : M t unit),
            (forall Θ R, (forall d ks bs l l', l' = "dimmed" \/ l' = "hidden" ->
                            Θ d ks bs l -> Θ d ks bs l') ->
                         keeps (session_invariant Θ (fun _ => True) R) m) ->
            keeps session_consistent m).
  { intros m Hm. apply keeps_unchanged. intros d ks bs R.
    apply Hm, registry_is_background. }
  destruct e as [k| | | | | | | |name]; simpl.
  - destruct k.
    + apply Hun. intros. by apply keeps_shortcut_keys_onchar_callback.
    + apply Hun. intros. by apply keeps_shortcut_keys_onchar_callback.
    + apply Hun. intros. by apply keeps_shortcut_keys_onchar_callback.
    + apply Hun. intros. by apply keeps_toggle_visibility_onchar_callback.
    + apply Hun. intros. by apply keeps_shortcut_keys_onchar_callback.
    + apply Hun. intros. by apply keeps_shortcut_keys_onchar_callback.
    + unfold like_dislike_undo_onchar_callback.
      apply keeps_bind; [apply keeps_ret|]. intros _.
      apply keeps_get_bind. intros s0 _.
      destruct (selected_bundle s0); [apply (keeps_consistent_act accept) | apply keeps_ret].
    + unfold like_dislike_undo_onchar_callback.
      apply keeps_bind; [apply keeps_ret|]. intros _.
      apply keeps_get_bind. intros s0 _.
      destruct (selected_bundle s0); [apply (keeps_consistent_act reject) | apply keeps_ret].
    + unfold like_dislike_undo_onchar_callback.
      apply keeps_bind; [apply keeps_consistent_undo|]. intros _.
      apply keeps_get_bind. intros s0 _.
      destruct (selected_bundle s0); apply keeps_ret.
  - apply (keeps_consistent_act accept).
  - apply (keeps_consistent_act reject).
  - apply keeps_consistent_apply_button_callback.
  - apply keeps_consistent_save_button_callback.
  - apply Hun. intros. by apply keeps_toggle_other_bundles_visibility.
  - apply Hun. intros. by apply keeps_centroids_toggle_button_callback.
  - apply Hun. intros. by apply keeps_disk_move_callback.
  - apply keeps_get_bind. intros s0 _.
    destruct (decide _); [apply keeps_consistent_select | apply keeps_ret].
Qed.

(** Every state the session reaches is consistent. *)
Lemma reachable_consistent tractogram threshold size s events :
  __init__ tractogram threshold size = Some s ->
  session_consistent (run s events).
Proof.
  intros Hinit.
  assert (Hs : session_consistent s).
  { unfold __init__ in Hinit. destruct (deque_new size) as [d|] eqn:Hd; [|done].
    simpl in Hinit.
    destruct (Bundle.__init__ tractogram None (Some Infinity) None)
      as [root|] eqn:Hroot; [|done].
    simpl in Hinit. injection Hinit as <-.
    assert (Hempty : items d = []).
    { unfold deque_new in Hd. repeat case_match; simplify_eq; done. }
    split; [split|split]; simpl.
    - apply registry_consistent_check; simpl;
        [repeat constructor | apply NoDup_singleton | set_solver].
    - by left.
    - unfold known_names. simpl. rewrite Hempty. simpl. split.
      + apply NoDup_singleton.
      + by intros k1 k2 ->%list_elem_of_singleton ->%list_elem_of_singleton.
    - intros r [[k Hk]|(m & Hm & _)]; simpl in *.
      + apply lookup_singleton_Some in Hk as [_ <-].
        rewrite lookup_singleton_eq. eauto.
      + rewrite Hempty in Hm. by apply elem_of_nil in Hm. }
  clear Hinit. revert s Hs.
  induction events as [|e events IH]; intros s Hs; simpl; [done|].
  apply IH. unfold step. by apply keeps_state_of; [apply keeps_consistent_handler|].
Qed.

Lemma keeps_well_formed_act v : keeps well_formed (act v).
Proof.
  intros s Hwf.
  destruct (selected_bundle s ≫= fun k => bundles s !! k) as [r|] eqn:Hget.
  2: { assert (Hraise : act v s = Raise KeyError s); [|by rewrite Hraise].
       destruct v; simpl; [unfold like_bundle | unfold dislike_bundle];
         unfold bundles_getitem; run_monad; by rewrite Hget. }
  destruct (selected_bundle s) as [name|] eqn:Hsel; [simpl in Hget | done].
  destruct (act_returns v s name r Hwf Hsel Hget)
    as (s1 & keys' & -> & Hrem & Hk & Hb & Hu & Hl).
  split; [|rewrite Hl; apply Hwf].
  eapply registry_consistent_remove; [apply Hwf | done..].
Qed.

Lemma memorized_actions (vs : list verdict) : forall s,
  Forall (fun m => action m = "like" \/ action m = "dislike") (memorized vs s).
Proof.
  induction vs as [|v vs IH]; intros s; simpl; constructor; [|apply IH].
  destruct v; simpl; auto.
Qed.

(** Undoing every entry of the undo memory registers the bundles of the
    entries again, the newest entry first. *)
Lemma undo_times_bundles (l : list Memory) : forall s,
  last_bundles_visibility_state s = "dimmed" \/
  last_bundles_visibility_state s = "hidden" ->
  items (undo_memory s) = l ->
  Forall (fun m => action m = "like" \/ action m = "dislike") l ->
  bundles (undo_times (length l) s) =
    foldr (fun m bs => <[bundle_name m := bundle m]> bs) (bundles s) l.
Proof.
  induction l as [|m l IH] using rev_ind; intros s Hlast Hitems Hall; [done|].
  rewrite length_app, Nat.add_comm.
  change (length [m] + length l) with (S (length l)).
  unfold undo_times. rewrite Nat.iter_succ_r.
  apply Forall_app in Hall as [Hall Hm]. rewrite Forall_singleton in Hm.
  assert (Hpop : deque_pop (undo_memory s) =
                 Some (m, mkdeque (maxlen (undo_memory s)) l)).
  { unfold deque_pop. by rewrite Hitems, last_snoc, removelast_last. }
  destruct (undo_returns s m _ Hpop Hlast) as (s2 & -> & Hu & Hl & Hback & _).
  destruct (Hback Hm) as [_ Hb].
  change (state_of (Ok tt s2)) with s2. fold (undo_times (length l) s2).
  rewrite (IH s2); [|by rewrite Hl|by rewrite Hu|done].
  by rewrite Hb, foldr_app.
Qed.
End Consistency.

(** ** The claims about the session *)

Section Session_claims.
Context `{Metric} `{Toolkit}.
Import StreamlinesVizu.

(** C7: [undo] with an empty undo memory returns without an exception
    and leaves the whole session as it was: the registry, the inliers
    and the outliers in particular. *)
Theorem undo_empty_memory (s : t) :
  items (undo_memory s) = [] ->
  undo s = Ok tt s /\
  bundles (state_of (undo s)) = bundles s /\
  inliers (state_of (undo s)) = inliers s /\
  outliers (state_of (undo s)) = outliers s.
Proof.
  intros Hempty.
  assert (Hundo : undo s = Ok tt s).
  { unfold undo. run_monad. unfold deque_pop. by rewrite Hempty. }
  by rewrite Hundo.
Qed.

(** C9: with a well-formed registry and a selected bundle of the key
    list, [select_next] called [len(keys)] times returns to that bundle
    with the keys and the registry as they were; each call moves one
    place along the cycle, which lists the keys by descending bundle
    size, and by descending name among bundles of one size. *)
Theorem select_next_cycles (s : t) (name : string) :
  well_formed s ->
  selected_bundle s = Some name ->
  name ∈ keys s ->
  (exists s', times (length (keys s)) select_next s = Ok tt s' /\
              selected_bundle s' = Some name /\
              keys s' = keys s /\ bundles s' = bundles s) /\
  (exists c, cycle_order s !! c = Some name /\
     exists next s', cycle_order s !! ((c + 1) mod length (keys s)) = Some next /\
                     select_next s = Ok tt s' /\
                     selected_bundle s' = Some next) /\
  cycle_order s ≡ₚ keys s /\
  StronglySorted (comes_before s) (cycle_order s).
Proof.
  intros Hwf Hsel Hin.
  destruct (cycle_order_sorted s) as [Hperm Hsorted].
  assert (Hc : exists c, cycle_order s !! c = Some name).
  { apply list_elem_of_lookup. by rewrite Hperm. }
  destruct Hc as [c Hc].
  assert (Hself : frame (set_selected_bundle (Some name) s) s).
  { unfold frame. simpl. by rewrite Hsel. }
  split; [|split; [|done]].
  - destruct (select_next_times s (length (keys s)) c name s Hwf Hc Hself)
      as (name' & s' & Hc' & Hrun & Hs').
    exists s'. split; [done|].
    replace (c + length (keys s)) with (c + 1 * length (keys s)) in Hc' by lia.
    rewrite Nat.Div0.mod_add, Nat.mod_small in Hc'.
    2: { rewrite <- cycle_order_length. by eapply lookup_lt_Some. }
    assert (name' = name) as -> by congruence.
    destruct Hs' as (Hk & Hb & _ & _ & _ & Hsel' & _). done.
  - exists c. split; [done|].
    destruct (moves_select_next s name c Hwf Hsel Hc) as (next & Hnext & Hm).
    apply moves_returns in Hm as ([] & s' & Hrun & _ & Hs').
    exists next, s'. split; [done|]. split; [done|]. apply Hs'.
Qed.

(** C10, as amended: the key list is sorted, free of duplicates and
    lists exactly the names of the registry after the constructor, after
    [add_bundle] of a name that is not yet registered, and after
    [remove_bundle], which removes a registered name and otherwise
    raises with the session as it was. The handlers only register names
    that are new, so the key list is so in every state that a session
    reaches through the events of the user. *)
Theorem keys_follow_registry :
  (forall tractogram threshold size s,
     __init__ tractogram threshold size = Some s -> registry_consistent s) /\
  (forall tractogram threshold size s events,
     __init__ tractogram threshold size = Some s ->
     registry_consistent (run s events) /\
     names_apart (known_names (run s events))) /\
  (forall s bundle_name bundle,
     registry_consistent s -> bundle_name ∉ keys s ->
     exists s', add_bundle bundle_name bundle s = Ok tt s' /\
                registry_consistent s') /\
  (forall s bundle_name,
     registry_consistent s ->
     registry_consistent (state_of (remove_bundle bundle_name s)) /\
     (bundle_name ∈ keys s ->
      exists s', remove_bundle bundle_name s = Ok tt s' /\
                 bundles s' = delete bundle_name (bundles s)) /\
     (bundle_name ∉ keys s ->
      remove_bundle bundle_name s = Raise ValueError s)).
Proof.
  split; [|split; [|split]].
  - intros tractogram threshold size s Hinit.
    apply (reachable_consistent _ _ _ _ [] Hinit).
  - intros tractogram threshold size s events Hinit.
    destruct (reachable_consistent _ _ _ _ events Hinit)
      as ([Hcons _] & Hnames & _).
    done.
  - intros s name r Hcons Hfresh.
    destruct (add_bundle_returns s name r) as (s' & Hrun & Hk & Hb & _).
    exists s'. split; [done|]. by eapply registry_consistent_add.
  - intros s name Hcons.
    assert (Hcases : name ∈ keys s \/ name ∉ keys s)
      by (destruct (decide (name ∈ keys s)); auto).
    split; [|split].
    + destruct Hcases as [Hin|Hnin].
      * destruct (remove_elem_of _ _ Hin) as [keys' Hrem].
        destruct Hcons as (Hs & Hnd & Hdom).
        destruct (proj1 (Hdom name) Hin) as [r Hr].
        destruct (remove_bundle_returns s name r keys' Hrem Hr)
          as (s' & -> & Hk & Hb & _).
        by eapply (registry_consistent_remove s).
      * by rewrite remove_bundle_raises.
    + intros Hin. destruct (remove_elem_of _ _ Hin) as [keys' Hrem].
      destruct Hcons as (Hs & Hnd & Hdom).
      destruct (proj1 (Hdom name) Hin) as [r Hr].
      destruct (remove_bundle_returns s name r keys' Hrem Hr)
        as (s' & -> & Hk & Hb & _). eauto.
    + apply remove_bundle_raises.
Qed.

Lemma memorized_length (vs : list verdict) : forall s,
  length (memorized vs s) = length vs.
Proof. induction vs as [|v vs IH]; intros s; simpl; [done | by rewrite IH]. Qed.

(** C2: a session of undo capacity [K], which the constructor returns
    for every tractogram that has a streamline, never holds more than [K]
    entries in its undo memory, whatever events [handler] serves; and after
    [K + 1] verdicts in a row the memory holds the entries of the last
    [K] of them, oldest first, so that [K] presses of undo empty it,
    registering the bundles of these [K] entries again, and one more
    finds it empty and does nothing. *)
Theorem undo_memory_capacity (K : nat) :
  (forall tractogram threshold,
     tractogram <> [] ->
     exists s, __init__ tractogram threshold (Some (Z.of_nat K)) = Some s /\
       forall events, length (items (undo_memory (run s events))) <= K) /\
  (forall s vs s',
     bounded K (undo_memory s) ->
     length vs = S K ->
     for_each vs act s = Ok tt s' ->
     items (undo_memory s') = drop 1 (memorized vs s) /\
     length (items (undo_memory s')) = K /\
     items (undo_memory (undo_times K s')) = [] /\
     undo (undo_times K s') = Ok tt (undo_times K s')) /\
  (forall s vs s',
     well_formed s ->
     bounded K (undo_memory s) ->
     length vs = S K ->
     for_each vs act s = Ok tt s' ->
     bundles (undo_times K s') =
       foldr (fun m bs => <[bundle_name m := bundle m]> bs) (bundles s')
             (drop 1 (memorized vs s))).
Proof.
  assert (Hverdicts : forall s vs s',
     bounded K (undo_memory s) ->
     length vs = S K ->
     for_each vs act s = Ok tt s' ->
     items (undo_memory s') = drop 1 (memorized vs s) /\
     length (items (undo_memory s')) = K /\
     items (undo_memory (undo_times K s')) = [] /\
     undo (undo_times K s') = Ok tt (undo_times K s')).
  2: { split; [|split; [exact Hverdicts|]].
       - intros tractogram threshold Hne.
         destruct (__init___returns tractogram threshold K Hne)
           as (s & Hinit & _).
         exists s. split; [done|]. intros events.
         by destruct (reachable_invariant _ _ _ _ events Hinit) as [[_ Hlen] _].
       - intros s vs s' Hwf Hbounded Hvs Hrun.
         destruct (Hverdicts s vs s' Hbounded Hvs Hrun) as (Hitems & Hlen & _).
         assert (Hwf' : well_formed s').
         { pose proof (keeps_for_each well_formed vs act
                         (fun v _ => keeps_well_formed_act v) s Hwf) as Hkeep.
           by rewrite Hrun in Hkeep. }
         rewrite <- Hlen at 1. rewrite Hitems.
         apply undo_times_bundles; [apply Hwf' | done |].
         apply Forall_drop, memorized_actions. }
  - intros s vs s' Hbounded Hvs Hrun.
    assert (Hitems : items (undo_memory s') = drop 1 (memorized vs s)).
    { rewrite (for_each_act_undo_memory _ _ _ Hrun).
      rewrite (items_appends K) by done.
      rewrite length_app, memorized_length, Hvs.
      replace (length (items (undo_memory s)) + S K - K)
        with (length (items (undo_memory s)) + 1) by lia.
      apply drop_app_add. }
    assert (Hlen : length (items (undo_memory s')) = K).
    { rewrite Hitems, length_drop, memorized_length. lia. }
    assert (Hempty : items (undo_memory (undo_times K s')) = []).
    { apply length_zero_iff_nil. rewrite undo_times_undo_memory. lia. }
    repeat split; try done. by apply undo_empty_memory.
Qed.

(** C8, as amended: a constructed bundle has exactly one of its two
    representations active; each of the two toggles of the session,
    [show_centroids] followed by [hide_streamlines] and [hide_centroids]
    followed by [show_streamlines], leaves exactly one active; and so
    every bundle object of a session has exactly one active after every
    sequence of the user events that [handler] serves. *)
Theorem one_representation_maintained :
  (forall sl c t col b,
     Bundle.__init__ sl c t col = Some b -> one_representation b) /\
  (forall b, one_representation b ->
     one_representation
       (state_of ((Bundle.show_centroids ;; Bundle.hide_streamlines) b)) /\
     one_representation
       (state_of ((Bundle.hide_centroids ;; Bundle.show_streamlines) b))) /\
  (forall tractogram threshold size s events r b,
     __init__ tractogram threshold size = Some s ->
     heap (run s events) !! r = Some b ->
     one_representation b).
Proof.
  split; [|split].
  - apply __init___one_representation.
  - intros b Hb. split; [|done]. monad_unfold.
    pose proof (show_centroids_flags b) as Hfl.
    destruct (Bundle.show_centroids b) as [[] b1|e b1]; simpl.
    + unfold one_representation, exactly_one, flags in *. simpl.
      by injection Hfl as _ ->.
    + unfold one_representation. by rewrite Hfl.
  - intros tractogram threshold size s events r b Hinit.
    assert (Hinv : session_invariant (of_memory (fun _ => True)) exactly_one
                                     no_ref s).
    { unfold __init__ in Hinit.
      destruct (deque_new size) as [d|]; [|done]. simpl in Hinit.
      destruct (Bundle.__init__ tractogram None (Some Infinity) None)
        as [root|] eqn:Hroot; [|done].
      simpl in Hinit.
      injection Hinit as <-. split; [done|]. split; [|done]. simpl.
      intros r' b'. rewrite lookup_singleton. case_decide; [|done].
      intros [= <-]. by eapply __init___one_representation. }
    apply (run_invariant _ _ _ eq_refl eq_refl) with (events := events) in Hinv;
      [|done..].
    apply Hinv.
Qed.

(** C1, as amended: in a well-formed session whose undo memory has room
    for at least one entry, accepting the selected bundle, when it has
    at least one streamline (or the inliers are empty), and then undoing
    gives back the registry as it was: the same names for the same
    bundle objects made of the same streamlines, the same key list, and
    the same inliers, so the same number of them. *)
Theorem accept_then_undo (s : t) (name : string) :
  well_formed s ->
  selected_bundle s = Some name ->
  name ∈ keys s ->
  maxlen (undo_memory s) <> Some 0 ->
  size_of s name <> 0 \/ inliers s = [] ->
  exists s1 s2,
    like_bundle s = Ok tt s1 /\
    bundles s1 = delete name (bundles s) /\
    length (inliers s1) = length (inliers s) + size_of s name /\
    undo s1 = Ok tt s2 /\
    bundles s2 = bundles s /\
    keys s2 = keys s /\
    (forall r, contents (heap s2 !!! r) = contents (heap s !!! r)) /\
    inliers s2 = inliers s /\
    length (inliers s2) = length (inliers s) /\
    outliers s2 = outliers s /\
    selected_bundle s2 = Some name.
Proof.
  intros Hwf Hsel Hin Hroom Hsize.
  destruct Hwf as [(Hsorted & Hnd & Hdom) Hlast].
  destruct (proj1 (Hdom name) Hin) as [r Hr].
  assert (Hsz : size_of s name = length (Bundle.streamlines (heap s !!! r))).
  { unfold size_of. by rewrite (lookup_total_correct _ _ _ Hr). }
  destruct (like_bundle_returns s name r) as
    (s1 & keys' & Hlike & Hrem & Hk1 & Hb1 & Hi1 & Ho1 & Hu1 & Hl1 & Hh1);
    [done..|].
  destruct (deque_pop_append (mkMemory "like" name r) (undo_memory s) Hroom)
    as [rest Hpop].
  destruct (undo_like_returns s1 name r rest) as
    (s2 & Hundo & Hk2 & Hb2 & Hi2 & Ho2 & Hu2 & Hsel2 & Hh2).
  { by rewrite Hu1. }
  { by rewrite Hl1. }
  assert (Hinl : inliers s2 = inliers s).
  { rewrite Hi2, Hi1. specialize (Hh1 r). unfold contents in Hh1.
    injection Hh1 as -> _ _ _. apply slice_to_minus_app.
    destruct Hsize as [Hne| ->]; [left|by right].
    intros Hnil. apply Hne. by rewrite Hsz, Hnil. }
  exists s1, s2. repeat split; try done.
  - rewrite Hi1, length_app. by rewrite Hsz.
  - rewrite Hb2, Hb1. rewrite insert_delete_eq. by apply insert_id.
  - rewrite Hk2, Hk1. apply sorted_unique; [done|].
    rewrite sorted_Permutation. apply remove_Some in Hrem. rewrite Hrem.
    by rewrite Permutation_app_comm.
  - intros r'. by rewrite Hh2, Hh1.
  - by rewrite Hinl.
  - congruence.
Qed.

End Session_claims.

(** ** The clustering claims *)

(** C4, as amended: for every streamline collection and every threshold,
    clustering at an infinite threshold yields at most as many clusters
    as clustering at that threshold. *)
Theorem cluster_Infinity_fewest `{Metric} (streamlines : list Streamline)
    (threshold : Threshold) :
  length (QuickBundles.cluster Infinity streamlines) <=
  length (QuickBundles.cluster threshold streamlines).
Proof.
  destruct streamlines as [|s rest]; [done|].
  destruct (cluster_Infinity (s :: rest)) as (c & -> & _); [done|].
  by apply cluster_nonempty.
Qed.

(** C4 as stated fails: between the thresholds 25 and 32 the four
    segments at x = 0, 30, -20, 50 go from two clusters to three. At 32
    the first two merge around x = 15, too far from the other two; at
    25 they stay apart and each takes one of the other two. *)
Lemma cluster_not_monotone :
  Threshold_lt (Finite 25) (Finite 32) /\
  ~ (length (@QuickBundles.cluster Demo.metric (Finite 32) Demo.four_segments)
     <= length (@QuickBundles.cluster Demo.metric (Finite 25) Demo.four_segments)).
Proof. split; [reflexivity|]. vm_compute. lia. Qed.

(** ** Concrete runs *)




Lemma get_cluster_as_bundles_colors_witness :
  let b := Demo.split_bundle in
  let cs := @QuickBundles.cluster Demo.metric (Finite 25) Demo.four_segments in
  Bundle.clusters b = Some cs /\
  indices_in_range b cs /\
  no_empty_cluster cs /\
  (length cs = 1 ->
     exists child,
       @Bundle.get_cluster_as_bundles Demo.metric Demo.toolkit b = Ok [child] b /\
       Bundle.color child = Bundle.color b) /\
  (2 <= length cs ->
   length (Bundle.clusters_colors b) = length cs ->
     exists children,
       @Bundle.get_cluster_as_bundles Demo.metric Demo.toolkit b = Ok children b /\
       length children = length cs /\
       forall i child, children !! i = Some child ->
         Bundle.clusters_colors b !! i = Some (Bundle.color child)) /\
  (forall threshold b0,
     b = state_of (@Bundle.preview Demo.metric Demo.toolkit threshold b0) ->
     2 <= length cs ->
     exists children,
       @Bundle.get_cluster_as_bundles Demo.metric Demo.toolkit b = Ok children b /\
       length children = length cs /\
       forall i child, children !! i = Some child ->
         Bundle.color child =
           Some (@distinguishable_colormap Demo.toolkit (0, 0, 0)%Q darkcolors i)).
Proof.
  intros b cs.
  assert (Hcs : Bundle.clusters b = Some cs) by (by vm_compute).
  assert (Hrange : indices_in_range b cs) by compute_done.
  assert (Hfull : no_empty_cluster cs) by (by vm_compute; repeat constructor).
  split; [exact Hcs|]. split; [exact Hrange|]. split; [exact Hfull|].
  exact (@get_cluster_as_bundles_colors Demo.metric Demo.toolkit b cs Hcs Hrange
           Hfull).
Defined.

(** C8 as stated fails: [show_centroids] alone leaves both
    representations active. *)
Lemma show_centroids_both_active :
  one_representation Demo.bundle /\
  ~ one_representation (state_of (Bundle.show_centroids Demo.bundle)).
Proof. split; [reflexivity|]. vm_compute. discriminate. Qed.

Lemma one_representation_maintained_witness :
  one_representation Demo.bundle /\
  one_representation
    (state_of ((Bundle.show_centroids ;; Bundle.hide_streamlines) Demo.bundle)) /\
  one_representation
    (state_of ((Bundle.hide_centroids ;; Bundle.show_streamlines) Demo.bundle)).
Proof.
  assert (Hb : one_representation Demo.bundle) by reflexivity.
  split; [exact Hb|].
  exact (proj1 (proj2 (@one_representation_maintained Demo.metric Demo.toolkit))
           Demo.bundle Hb).
Defined.

Lemma Demo_session_well_formed (size : Z) :
  size = 0%Z \/ size = 1%Z \/ size = 2%Z -> well_formed (Demo.session size).
Proof.
  intros [-> |[-> | ->]]; (split; [|left; by vm_compute]);
    apply registry_consistent_check; compute_done.
Qed.

Lemma undo_empty_memory_witness :
  let s := Demo.session 2 in
  items (StreamlinesVizu.undo_memory s) = [] /\
  @StreamlinesVizu.undo Demo.metric Demo.toolkit s = Ok tt s /\
  StreamlinesVizu.bundles
    (state_of (@StreamlinesVizu.undo Demo.metric Demo.toolkit s)) =
    StreamlinesVizu.bundles s /\
  StreamlinesVizu.inliers
    (state_of (@StreamlinesVizu.undo Demo.metric Demo.toolkit s)) =
    StreamlinesVizu.inliers s /\
  StreamlinesVizu.outliers
    (state_of (@StreamlinesVizu.undo Demo.metric Demo.toolkit s)) =
    StreamlinesVizu.outliers s.
Proof.
  intros s.
  assert (Hempty : items (StreamlinesVizu.undo_memory s) = []) by (by vm_compute).
  split; [exact Hempty|].
  exact (@undo_empty_memory Demo.metric Demo.toolkit s Hempty).
Defined.

(** C1 as stated fails in a session whose undo memory has capacity 0:
    the entry of the accepted bundle is dropped at once, [undo] finds
    the memory empty, and the bundle stays out of the registry. *)
Lemma accept_then_undo_without_memory :
  let s := Demo.session 0 in
  let s1 := state_of (@StreamlinesVizu.like_bundle Demo.metric Demo.toolkit s) in
  let s2 := state_of (@StreamlinesVizu.undo Demo.metric Demo.toolkit s1) in
  well_formed s /\
  StreamlinesVizu.selected_bundle s = Some "/1/" /\
  is_Some (StreamlinesVizu.bundles s !! "/1/") /\
  StreamlinesVizu.bundles s2 !! "/1/" = None /\
  StreamlinesVizu.bundles s2 <> StreamlinesVizu.bundles s /\
  length (StreamlinesVizu.inliers s2) <> length (StreamlinesVizu.inliers s).
Proof.
  intros s s1 s2. split; [apply Demo_session_well_formed; by left|].
  repeat split; compute_done.
Qed.

Lemma accept_then_undo_witness :
  let s := Demo.session 2 in
  let name := "/1/" in
  well_formed s /\
  StreamlinesVizu.selected_bundle s = Some name /\
  name ∈ StreamlinesVizu.keys s /\
  maxlen (StreamlinesVizu.undo_memory s) <> Some 0 /\
  (size_of s name <> 0 \/ StreamlinesVizu.inliers s = []) /\
  exists s1 s2,
    @StreamlinesVizu.like_bundle Demo.metric Demo.toolkit s = Ok tt s1 /\
    StreamlinesVizu.bundles s1 = delete name (StreamlinesVizu.bundles s) /\
    length (StreamlinesVizu.inliers s1) =
      length (StreamlinesVizu.inliers s) + size_of s name /\
    @StreamlinesVizu.undo Demo.metric Demo.toolkit s1 = Ok tt s2 /\
    StreamlinesVizu.bundles s2 = StreamlinesVizu.bundles s /\
    StreamlinesVizu.keys s2 = StreamlinesVizu.keys s /\
    (forall r, contents (StreamlinesVizu.heap s2 !!! r) =
               contents (StreamlinesVizu.heap s !!! r)) /\
    StreamlinesVizu.inliers s2 = StreamlinesVizu.inliers s /\
    length (StreamlinesVizu.inliers s2) = length (StreamlinesVizu.inliers s) /\
    StreamlinesVizu.outliers s2 = StreamlinesVizu.outliers s /\
    StreamlinesVizu.selected_bundle s2 = Some name.
Proof.
  intros s name.
  assert (Hwf : well_formed s)
    by (apply Demo_session_well_formed; by right; right).
  assert (Hsel : StreamlinesVizu.selected_bundle s = Some name) by compute_done.
  assert (Hin : name ∈ StreamlinesVizu.keys s) by compute_done.
  assert (Hroom : maxlen (StreamlinesVizu.undo_memory s) <> Some 0)
    by compute_done.
  assert (Hsize : size_of s name <> 0 \/ StreamlinesVizu.inliers s = [])
    by (left; compute_done).
  repeat (split; [assumption|]).
  exact (@accept_then_undo Demo.metric Demo.toolkit s name
           Hwf Hsel Hin Hroom Hsize).
Defined.

Lemma undo_memory_capacity_witness :
  let s := Demo.session 1 in
  let vs := [accept; reject] in
  let s' := state_of (for_each vs (@act Demo.metric Demo.toolkit) s) in
  bounded 1 (StreamlinesVizu.undo_memory s) /\
  length vs = 2 /\
  for_each vs (@act Demo.metric Demo.toolkit) s = Ok tt s' /\
  items (StreamlinesVizu.undo_memory s') =
    drop 1 (@memorized Demo.metric Demo.toolkit vs s) /\
  length (items (StreamlinesVizu.undo_memory s')) = 1 /\
  items (StreamlinesVizu.undo_memory
           (@undo_times Demo.metric Demo.toolkit 1 s')) = [] /\
  @StreamlinesVizu.undo Demo.metric Demo.toolkit
    (@undo_times Demo.metric Demo.toolkit 1 s') =
    Ok tt (@undo_times Demo.metric Demo.toolkit 1 s').
Proof.
  intros s vs s'.
  assert (Hbounded : bounded 1 (StreamlinesVizu.undo_memory s))
    by (split; compute_done).
  assert (Hvs : length vs = 2) by reflexivity.
  assert (Hrun : for_each vs (@act Demo.metric Demo.toolkit) s = Ok tt s')
    by (by vm_compute).
  repeat (split; [assumption|]).
  exact (proj1 (proj2 (@undo_memory_capacity Demo.metric Demo.toolkit 1))
           s vs s' Hbounded Hvs Hrun).
Defined.

Lemma select_next_cycles_witness :
  let s := Demo.session 2 in
  let name := "/1/" in
  well_formed s /\
  StreamlinesVizu.selected_bundle s = Some name /\
  name ∈ StreamlinesVizu.keys s /\
  (exists s',
     times (length (StreamlinesVizu.keys s))
           (@StreamlinesVizu.select_next Demo.metric Demo.toolkit) s = Ok tt s' /\
     StreamlinesVizu.selected_bundle s' = Some name /\
     StreamlinesVizu.keys s' = StreamlinesVizu.keys s /\
     StreamlinesVizu.bundles s' = StreamlinesVizu.bundles s) /\
  (exists c, cycle_order s !! c = Some name /\
     exists next s',
       cycle_order s !! ((c + 1) mod length (StreamlinesVizu.keys s)) = Some next /\
       @StreamlinesVizu.select_next Demo.metric Demo.toolkit s = Ok tt s' /\
       StreamlinesVizu.selected_bundle s' = Some next) /\
  cycle_order s ≡ₚ StreamlinesVizu.keys s /\
  StronglySorted (comes_before s) (cycle_order s).
Proof.
  intros s name.
  assert (Hwf : well_formed s)
    by (apply Demo_session_well_formed; by right; right).
  assert (Hsel : StreamlinesVizu.selected_bundle s = Some name) by compute_done.
  assert (Hin : name ∈ StreamlinesVizu.keys s) by compute_done.
  repeat (split; [assumption|]).
  exact (@select_next_cycles Demo.metric Demo.toolkit s name Hwf Hsel Hin).
Defined.

(** C10 as stated fails: [add_bundle] with a name that is registered
    already leaves the name twice in the key list. *)
Lemma add_bundle_registered_name :
  let s := Demo.fresh_session 2 in
  registry_consistent s /\
  StreamlinesVizu.keys
    (state_of (StreamlinesVizu.add_bundle StreamlinesVizu.root_bundle 0 s))
    = ["/"; "/"] /\
  ~ registry_consistent
      (state_of (StreamlinesVizu.add_bundle StreamlinesVizu.root_bundle 0 s)).
Proof.
  intros s. split; [apply registry_consistent_check; compute_done|].
  split; [by vm_compute|]. intros (_ & Hnd & _). revert Hnd. compute_done.
Qed.

Lemma keys_follow_registry_witness :
  let s := Demo.session 2 in
  registry_consistent s /\
  ("/2/" ∉ StreamlinesVizu.keys s) /\
  exists s', StreamlinesVizu.add_bundle "/2/" 2 s = Ok tt s' /\
             registry_consistent s'.
Proof.
  intros s.
  assert (Hcons : registry_consistent s)
    by (apply registry_consistent_check; compute_done).
  assert (Hfresh : "/2/" ∉ StreamlinesVizu.keys s) by compute_done.
  repeat (split; [assumption|]).
  exact (proj1 (proj2 (proj2 (@keys_follow_registry Demo.metric Demo.toolkit)))
           s "/2/" 2 Hcons Hfresh).
Defined.

(** ** The text box of [dipy/viz/ui.py] *)

Section TextBox2D_facts.
Import ui.TextBox2D.

Lemma slice_to {A} (x : list A) (c : Z) :
  (0 <= c)%Z -> slice x None (Some c) = take (Z.to_nat c) x.
Proof.
  intros Hc. unfold slice, slice_index, len. cbv zeta. case_decide; [lia|].
  rewrite Z.sub_0_r. destruct (decide (c <= Z.of_nat (length x))%Z).
  - by rewrite Z.min_l by lia.
  - rewrite Z.min_r by lia. simpl.
    rewrite !take_ge; [done|lia|rewrite length_drop; lia].
Qed.

Lemma slice_from {A} (x : list A) (c : Z) :
  (0 <= c)%Z -> slice x (Some c) None = drop (Z.to_nat c) x.
Proof.
  intros Hc. unfold slice, slice_index, len. cbv zeta. case_decide; [lia|].
  destruct (decide (c <= Z.of_nat (length x))%Z).
  - rewrite Z.min_l by lia. apply take_ge. rewrite length_drop. lia.
  - rewrite Z.min_r by lia.
    rewrite !drop_ge; [by rewrite take_nil|lia|lia].
Qed.

Lemma slice_between {A} (x : list A) (a b : Z) :
  (0 <= a)%Z -> (a <= b <= len x)%Z ->
  slice x (Some a) (Some b) = take (Z.to_nat (b - a)) (drop (Z.to_nat a) x).
Proof.
  intros Ha Hb. unfold slice, slice_index, len in *.
  repeat case_decide; try lia. by rewrite !Z.min_l by lia.
Qed.

Lemma len_app {A} (x y : list A) : len (x ++ y) = (len x + len y)%Z.
Proof. unfold len. rewrite length_app. lia. Qed.

Lemma len_take_drop {A} (x : list A) (n : nat) :
  (len (take n x) + len (drop n x) = len x)%Z.
Proof. rewrite <- len_app. by rewrite take_drop. Qed.

Lemma len_inserted {A} (x ch : list A) (n : nat) :
  length ch = 1 ->
  len (take n x ++ ch ++ drop n x) = (len x + 1)%Z.
Proof.
  intros Hch. rewrite (len_app _ (ch ++ _)), len_app.
  pose proof (len_take_drop x n). unfold len at 2. rewrite Hch. lia.
Qed.

(** The text with the character before position [c + 1] removed, after
    one character was inserted at position [c]. *)
Lemma remove_inserted {A} (x ch : list A) (c : Z) :
  (0 <= c <= len x)%Z -> length ch = 1 ->
  take (Z.to_nat (c + 1 - 1)) (take (Z.to_nat c) x ++ ch ++ drop (Z.to_nat c) x) ++
  drop (Z.to_nat (c + 1)) (take (Z.to_nat c) x ++ ch ++ drop (Z.to_nat c) x) = x.
Proof.
  intros Hc Hch. unfold len in *.
  replace (c + 1 - 1)%Z with c by lia.
  rewrite take_app_le by (rewrite length_take; lia).
  rewrite take_take, Nat.min_id.
  rewrite drop_app_ge by (rewrite length_take; lia).
  rewrite length_take.
  replace (Z.to_nat (c + 1) - Z.to_nat c `min` length x) with 1 by lia.
  destruct ch as [|a [|a' ch]]; [done| |done]. simpl. rewrite drop_0.
  apply take_drop.
Qed.

Ltac textbox_fields :=
  unfold set_text, set_actor_message, set_window_left, set_window_right,
    set_caret_pos, set_init in *; simpl in *.

(** What [add_character] inserts for a key it does not ignore is one
    character. *)
Lemma typed_length (k : str) :
  k <> [] -> ~ (1 < length k /\ lower k <> chars "space") ->
  length (if decide (lower k = chars "space") then chars " " else k) = 1.
Proof.
  intros Hk Hn. case_decide; [done|].
  destruct k as [|a [|a' k]]; [done|done|].
  exfalso. apply Hn. simpl. split; [lia|done].
Qed.

(** The body of [add_character] once the key is known to insert the
    one character [ch]. *)
Lemma insert_fields (ch : str) (b : t) :
  length ch = 1 -> window_consistent b ->
  let b1 :=
    (let b := set_text (slice (text b) None (Some (caret_pos b)) ++ ch ++
                        slice (text b) (Some (caret_pos b)) None) b in
     let b := move_caret_right b in
     let b := if window_full b then left_move_right b else b in
     right_move_right b) in
  text b1 = take (Z.to_nat (caret_pos b)) (text b) ++ ch ++
            drop (Z.to_nat (caret_pos b)) (text b) /\
  caret_pos b1 = (caret_pos b + 1)%Z /\
  width b1 = width b /\ height b1 = height b /\
  window_right b1 = (window_right b + 1)%Z /\
  window_left b1 =
    (if decide (len (text b) < height b * width b - 1)%Z
     then window_left b else window_left b + 1)%Z.
Proof.
  intros Hlen (Hl & Hr & Hw).
  rewrite slice_to, slice_from by lia.
  pose proof (len_inserted (text b) ch (Z.to_nat (caret_pos b)) Hlen) as Hlen'.
  unfold right_move_right, left_move_right, move_caret_right, window_full.
  repeat (case_bool_decide || case_decide); textbox_fields;
    rewrite ?Hlen' in *; repeat split; try done; lia.
Qed.

Lemma insert_consistent (ch : str) (b : t) :
  length ch = 1 -> window_consistent b ->
  window_consistent
    (let b := set_text (slice (text b) None (Some (caret_pos b)) ++ ch ++
                        slice (text b) (Some (caret_pos b)) None) b in
     let b := move_caret_right b in
     let b := if window_full b then left_move_right b else b in
     right_move_right b).
Proof.
  intros Hlen (Hl & Hr & Hw).
  rewrite slice_to, slice_from by lia.
  pose proof (len_inserted (text b) ch (Z.to_nat (caret_pos b)) Hlen) as Hlen'.
  unfold window_consistent, right_move_right, left_move_right,
    move_caret_right, window_full.
  repeat (case_bool_decide || case_decide); textbox_fields;
    rewrite ?Hlen' in *; lia.
Qed.

Lemma add_character_consistent (k : str) (b : t) :
  k <> [] -> window_consistent b -> window_consistent (add_character k b).
Proof.
  intros Hk Hb. unfold add_character. case_decide as Hn; [done|].
  apply insert_consistent; [|done]. by apply typed_length.
Qed.

Lemma remove_character_consistent (b : t) :
  window_consistent b -> window_consistent (remove_character b).
Proof.
  intros (Hl & Hr & Hw). unfold remove_character. case_decide as Hn; [done|].
  rewrite slice_to, slice_from by lia.
  assert (Hlen' : (len (take (Z.to_nat (caret_pos b - 1)) (text b) ++
                        drop (Z.to_nat (caret_pos b)) (text b))
                   = len (text b) - 1)%Z).
  { rewrite len_app. unfold len in *. rewrite length_take, length_drop. lia. }
  unfold window_consistent, right_move_left, left_move_left, move_caret_left,
    window_full.
  repeat (case_bool_decide || case_decide); textbox_fields;
    rewrite ?Hlen' in *; lia.
Qed.

Lemma move_left_consistent (b : t) :
  window_consistent b -> window_consistent (move_left b).
Proof.
  intros (Hl & Hr & Hw).
  unfold window_consistent, move_left, right_move_left, left_move_left,
    move_caret_left, window_full.
  repeat (case_bool_decide || case_decide); textbox_fields; lia.
Qed.

Lemma move_right_consistent (b : t) :
  window_consistent b -> window_consistent (move_right b).
Proof.
  intros (Hl & Hr & Hw).
  unfold window_consistent, move_right, right_move_right, left_move_right,
    move_caret_right, window_full.
  repeat (case_bool_decide || case_decide); textbox_fields; lia.
Qed.

Lemma width_set_text_loop_returns (w : Z) (x : str) : forall i acc,
  w <> 0%Z -> is_Some (width_set_text_loop w i x acc).
Proof.
  induction x as [|c x IH]; intros i acc Hw; simpl; [done|].
  case_decide; [done|]. by apply IH.
Qed.

Lemma render_text_returns (show_caret : bool) (b : t) :
  width b <> 0%Z ->
  exists m, render_text show_caret b = Ok tt (set_actor_message m b).
Proof.
  intros Hw. unfold render_text, width_set_text.
  match goal with |- context [width_set_text_loop ?w ?i ?x ?acc] =>
    destruct (width_set_text_loop_returns w x i acc Hw) as [m ->] end.
  simpl. eauto.
Qed.

Lemma window_consistent_width (b : t) : window_consistent b -> width b <> 0%Z.
Proof. intros (Hl & Hr & Hw). unfold len in *. nia. Qed.

Lemma window_consistent_message (m : str) (b : t) :
  window_consistent b -> window_consistent (set_actor_message m b).
Proof. done. Qed.

Lemma handle_character_consistent (k : str) (b : t) :
  k <> [] -> window_consistent b ->
  exists r b', handle_character k b = Ok r b' /\ window_consistent b'.
Proof.
  intros Hk Hb. unfold handle_character.
  case_decide.
  { destruct (render_text_returns false b) as [m ->];
      [by apply window_consistent_width|]. eauto. }
  match goal with |- context [render_text true ?b1] =>
    assert (Hb1 : window_consistent b1) end.
  { repeat case_decide;
      auto using remove_character_consistent, move_left_consistent,
                 move_right_consistent, add_character_consistent. }
  match goal with |- context [render_text true ?b1] =>
    destruct (render_text_returns true b1) as [m ->] end;
    [by apply window_consistent_width|]. eauto.
Qed.

Lemma handle_characters_consistent (keys : list str) : forall b,
  Forall (fun k => k <> []) keys -> window_consistent b ->
  exists b', handle_characters keys b = Ok tt b' /\ window_consistent b'.
Proof.
  induction keys as [|k keys IH]; intros b Hkeys Hb; simpl; [eauto|].
  inversion Hkeys as [|? ? Hk Hkeys']; subst.
  destruct (handle_character_consistent k b Hk Hb) as (r & b1 & -> & Hb1).
  by apply IH.
Qed.

Ltac same_size_by_cases :=
  unfold same_size, add_character, remove_character, move_left, move_right,
    right_move_right, right_move_left, left_move_right, left_move_left,
    move_caret_left, move_caret_right;
  repeat (case_decide || case_match); done.

Lemma add_character_size k b : same_size b (add_character k b).
Proof. same_size_by_cases. Qed.

Lemma remove_character_size b : same_size b (remove_character b).
Proof. same_size_by_cases. Qed.

Lemma move_left_size b : same_size b (move_left b).
Proof. same_size_by_cases. Qed.

Lemma move_right_size b : same_size b (move_right b).
Proof. same_size_by_cases. Qed.

Lemma render_text_size show_caret b :
  same_size b (state_of (render_text show_caret b)).
Proof. unfold render_text. by case_match. Qed.

Lemma handle_character_size (k : str) (b : t) :
  same_size b (state_of (handle_character k b)).
Proof.
  unfold handle_character. case_decide.
  { pose proof (render_text_size false b) as Hr.
    by destruct (render_text false b). }
  match goal with |- context [render_text true ?b1] =>
    assert (Hb1 : same_size b b1);
    [|pose proof (render_text_size true b1) as Hr;
      destruct (render_text true b1); simpl in *;
      destruct Hb1 as [Hw1 Hh1], Hr as [Hw2 Hh2]; split; congruence] end.
  repeat case_decide;
    auto using add_character_size, remove_character_size, move_left_size,
               move_right_size.
Qed.

Lemma handle_characters_size (keys : list str) : forall b,
  same_size b (state_of (handle_characters keys b)).
Proof.
  induction keys as [|k keys IH]; intros b; simpl; [done|].
  pose proof (handle_character_size k b) as Hk.
  destruct (handle_character k b) as [r b1|b1]; simpl in *; [|done].
  destruct (IH b1) as [Hw Hh], Hk as [Hw' Hh']. split; congruence.
Qed.

(** The text shown with the caret: what the window cuts out of the text
    with the caret mark in it. *)
Lemma showable_text_caret (b : t) :
  window_consistent b ->
  len (showable_text true b) = Z.min (len (text b) + 1) (height b * width b) /\
  showable_text true b !! Z.to_nat (caret_pos b - window_left b) = Some "_"%char.
Proof.
  intros (Hl & Hr & Hw). unfold showable_text.
  rewrite slice_to, slice_from by lia.
  set (ret_text := take _ _ ++ _ ++ _).
  assert (Hlen : len ret_text = (len (text b) + 1)%Z)
    by (by apply len_inserted).
  rewrite slice_between by lia. split.
  - unfold len in *. rewrite length_take, length_drop. lia.
  - apply lookup_take_Some. split; [|lia]. rewrite lookup_drop.
    replace (Z.to_nat (window_left b) + Z.to_nat (caret_pos b - window_left b))
      with (length (take (Z.to_nat (caret_pos b)) (text b)) + 0).
    2: { rewrite length_take. unfold len in *. lia. }
    unfold ret_text. by rewrite lookup_app_r, Nat.add_comm, Nat.add_sub by lia.
Qed.

(** X11: a text box of a positive width and height
    that is put in edit mode right after its construction and is then
    given any keys with non-empty names never raises; the caret stays
    inside the window and the window inside the text; the text shown
    with the caret has as many characters as the box holds, or one more
    than the text when that is less; and the caret mark is among
    them. *)
Theorem handle_characters_window (w h : Z) (text0 : str) (keys : list str) :
  (0 < w)%Z -> (0 < h)%Z ->
  Forall (fun k => k <> []) keys ->
  exists b0 b,
    edit_mode (__init__ w h text0) = Ok tt b0 /\
    handle_characters keys b0 = Ok tt b /\
    window_consistent b /\
    len (showable_text true b) = Z.min (len (text b) + 1) (h * w) /\
    showable_text true b !! Z.to_nat (caret_pos b - window_left b)
      = Some "_"%char.
Proof.
  intros Hw Hh Hkeys. unfold edit_mode, __init__. simpl.
  match goal with |- context [render_text true ?b1] =>
    destruct (render_text_returns true b1) as [m ->];
    [simpl; lia|];
    assert (Hb0 : window_consistent (set_actor_message m b1)) end.
  { unfold window_consistent, len. simpl. nia. }
  destruct (handle_characters_consistent keys _ Hkeys Hb0) as (b & Hrun & Hb).
  eexists _, b. split; [done|]. split; [done|]. split; [done|].
  pose proof (handle_characters_size keys
                (set_actor_message m (set_caret_pos 0 (set_init false
                   (set_text [] (mk text0 text0 w h 0 0 0 true)))))) as Hsize.
  rewrite Hrun in Hsize. destruct Hsize as [Hsw Hsh]. simpl in Hsw, Hsh.
  rewrite <- Hsw, <- Hsh. by apply showable_text_caret.
Qed.

Lemma remove_character_after (ch : str) (b b1 : t) :
  length ch = 1 -> window_consistent b ->
  text b1 = take (Z.to_nat (caret_pos b)) (text b) ++ ch ++
            drop (Z.to_nat (caret_pos b)) (text b) ->
  caret_pos b1 = (caret_pos b + 1)%Z ->
  width b1 = width b -> height b1 = height b ->
  window_right b1 = (window_right b + 1)%Z ->
  window_left b1 =
    (if decide (len (text b) < height b * width b - 1)%Z
     then window_left b else window_left b + 1)%Z ->
  text (remove_character b1) = text b /\
  caret_pos (remove_character b1) = caret_pos b /\
  window_left (remove_character b1) = window_left b /\
  window_right (remove_character b1) = window_right b.
Proof.
  intros Hlen (Hl & Hr & Hw) Ht Hc Hwi Hhe Hwr Hwl.
  unfold remove_character.
  destruct (decide (caret_pos b1 = 0)%Z) as [Hn|Hn]; [lia|].
  rewrite slice_to, slice_from by lia.
  assert (Htext : take (Z.to_nat (caret_pos b1 - 1)) (text b1) ++
                  drop (Z.to_nat (caret_pos b1)) (text b1) = text b).
  { rewrite Ht, Hc. apply remove_inserted; [lia|done]. }
  rewrite Htext.
  unfold right_move_left, left_move_left, move_caret_left, window_full.
  repeat (case_bool_decide || case_decide); textbox_fields;
    repeat split; try done; lia.
Qed.

Lemma typed_not_named (k name : str) :
  length k = 1 \/ lower k = chars "space" ->
  1 < length name -> name <> chars "space" -> lower k <> name.
Proof.
  intros [Hk|Hk] Hlen Hname Heq; subst name.
  - unfold lower in Hlen. rewrite length_fmap in Hlen. lia.
  - done.
Qed.

Lemma handle_character_typed (k : str) (b : t) :
  length k = 1 \/ lower k = chars "space" ->
  window_consistent b ->
  exists m,
    handle_character k b =
      Ok false (set_actor_message m (add_character k b)).
Proof.
  intros Hk Hb. unfold handle_character.
  rewrite !decide_False by (apply typed_not_named; [done|simpl; lia|done]).
  destruct (render_text_returns true (add_character k b)) as [m ->]; [|eauto].
  apply window_consistent_width, add_character_consistent; [|done].
  destruct Hk as [Hk|Hk]; by destruct k.
Qed.

(** X12: in a text box whose caret and window are
    consistent, a key that is one character, or the space key, makes the
    text one character longer, and the backspace key after it gives back
    the text, the caret position and the window as they were. *)
Theorem type_then_backspace (k : str) (b : t) :
  window_consistent b ->
  length k = 1 \/ lower k = chars "space" ->
  exists b1 b2,
    handle_character k b = Ok false b1 /\
    len (text b1) = (len (text b) + 1)%Z /\
    handle_character (chars "BackSpace") b1 = Ok false b2 /\
    text b2 = text b /\
    caret_pos b2 = caret_pos b /\
    window_left b2 = window_left b /\
    window_right b2 = window_right b.
Proof.
  intros Hb Hk.
  destruct (handle_character_typed k b Hk Hb) as [m ->].
  assert (Hnonempty : k <> []) by (destruct Hk as [Hk|Hk]; by destruct k).
  assert (Hfields : exists ch, length ch = 1 /\
    text (add_character k b) = take (Z.to_nat (caret_pos b)) (text b) ++ ch ++
                               drop (Z.to_nat (caret_pos b)) (text b) /\
    caret_pos (add_character k b) = (caret_pos b + 1)%Z /\
    width (add_character k b) = width b /\
    height (add_character k b) = height b /\
    window_right (add_character k b) = (window_right b + 1)%Z /\
    window_left (add_character k b) =
      (if decide (len (text b) < height b * width b - 1)%Z
       then window_left b else window_left b + 1)%Z).
  { unfold add_character. case_decide as Hn.
    { exfalso. destruct Hn as [Hn1 Hn2]. destruct Hk; [lia|done]. }
    eexists. split; [by apply (typed_length k)|].
    apply insert_fields; [by apply typed_length|done]. }
  destruct Hfields as (ch & Hch & Ht & Hc & Hwi & Hhe & Hwr & Hwl).
  set (b1 := set_actor_message m (add_character k b)).
  destruct (remove_character_after ch b b1 Hch Hb Ht Hc Hwi Hhe Hwr Hwl)
    as (Ht2 & Hc2 & Hwl2 & Hwr2).
  assert (Hb1 : window_consistent b1)
    by (by apply window_consistent_message, add_character_consistent).
  exists b1. unfold handle_character.
  rewrite decide_False by done. rewrite decide_True by done.
  destruct (render_text_returns true (remove_character b1)) as [m2 ->].
  { by apply window_consistent_width, remove_character_consistent. }
  eexists. split; [done|]. split.
  { change (text b1) with (text (add_character k b)). rewrite Ht.
    by apply len_inserted. }
  split; [done|]. done.
Qed.

End TextBox2D_facts.

(** ** The buttons of [dipy/viz/ui.py] *)

Section Button2D_facts.
Import ui.Button2D.

Lemma getitem_lookup {A} (d : list (string * A)) i key value :
  NoDup (fst <$> d) -> d !! i = Some (key, value) ->
  getitem d key = Some value.
Proof.
  intros Hnd Hi. unfold getitem.
  destruct (list_find (fun item => item.1 = key) d) as [[j [k v]]|] eqn:Hfind.
  - apply list_find_Some in Hfind as (Hj & Hk & _). simpl in Hk. subst k.
    assert (i = j) as ->.
    { eapply NoDup_lookup; [exact Hnd| |].
      - by rewrite list_lookup_fmap, Hi.
      - by rewrite list_lookup_fmap, Hj. }
    congruence.
  - apply list_find_None in Hfind.
    apply (Forall_lookup_1 _ _ _ _ Hfind) in Hi. by simpl in Hi.
Qed.

Lemma __build_icons_elem_of icon_fnames name icon :
  (name, icon) ∈ __build_icons icon_fnames <->
  (name, icon) ∈ icon_fnames /\ not_png icon = false.
Proof.
  induction icon_fnames as [|[n f] rest IH]; simpl.
  - split; [by intros ?%elem_of_nil|by intros [?%elem_of_nil _]].
  - destruct (not_png f) eqn:Hf.
    + rewrite IH, elem_of_cons. split; [tauto|].
      intros [[Heq|Hin] Hpng]; [congruence|done].
    + rewrite !elem_of_cons, IH. split.
      * intros [Heq|[Hin Hpng]]; [|tauto]. injection Heq as -> ->. tauto.
      * intros [[Heq|Hin] Hpng]; tauto.
Qed.

Lemma __build_icons_sublist icon_fnames :
  __build_icons icon_fnames `sublist_of` icon_fnames.
Proof.
  induction icon_fnames as [|[n f] rest IH]; simpl; [done|].
  destruct (not_png f); by constructor.
Qed.

Lemma __build_icons_NoDup icon_fnames :
  NoDup (fst <$> icon_fnames) -> NoDup (fst <$> __build_icons icon_fnames).
Proof.
  intros Hnd. eapply sublist_NoDup; [exact Hnd|].
  apply fmap_sublist, __build_icons_sublist.
Qed.

Lemma Button2D__init___consistent icon_fnames b :
  NoDup (fst <$> icon_fnames) ->
  __init__ icon_fnames = Some b ->
  button_consistent b /\ current_icon_id b = 0 /\
  icons b = __build_icons icon_fnames.
Proof.
  intros Hnd Hinit. unfold __init__ in Hinit.
  pose proof (__build_icons_NoDup _ Hnd) as Hnd'.
  destruct (__build_icons icon_fnames) as [|[n f] l] eqn:Hl; [done|].
  simpl in Hinit.
  rewrite (getitem_lookup ((n, f) :: l) 0 n f Hnd' eq_refl) in Hinit.
  simpl in Hinit. injection Hinit as <-. done.
Qed.

Lemma next_icon_returns b :
  button_consistent b ->
  exists b', next_icon b = Ok tt b' /\ button_consistent b' /\
    icons b' = icons b /\
    current_icon_id b' = (current_icon_id b + 1) mod length (icons b).
Proof.
  intros (Hnames & Hnd & Hcur).
  assert (Hlt : current_icon_id b < length (icons b))
    by (by eapply lookup_lt_Some).
  set (i := (current_icon_id b + 1) mod length (icons b)).
  assert (Hi : i < length (icons b)) by (apply Nat.mod_upper_bound; lia).
  destruct (lookup_lt_is_Some_2 _ _ Hi) as [[name icon] Hitem].
  assert (Hname : icon_names b !! i = Some name)
    by (by rewrite Hnames, list_lookup_fmap, Hitem).
  assert (Hget : getitem (icons b) name = Some icon).
  { eapply getitem_lookup; [|exact Hitem]. by rewrite <- Hnames. }
  exists (mk (icons b) (icon_names b) i name icon).
  assert (Hid : (if decide (current_icon_id b + 1 = length (icons b))
                 then 0 else current_icon_id b + 1) = i).
  { unfold i. case_decide as Hd.
    - by rewrite Hd, Nat.Div0.mod_same.
    - rewrite Nat.mod_small; lia. }
  split; [|done].
  unfold next_icon, next_icon_name. run_monad.
  clearbody i.
  destruct (decide (current_icon_id b + 1 = length (icons b))) as [Hd|Hd];
    simpl; subst i; rewrite Hname; simpl; by rewrite Hget.
Qed.

Lemma next_icon_times b k :
  button_consistent b ->
  exists b', times k next_icon b = Ok tt b' /\ button_consistent b' /\
    icons b' = icons b /\
    current_icon_id b' = (current_icon_id b + k) mod length (icons b).
Proof.
  revert b. induction k as [|k IH]; intros b Hb.
  - exists b. rewrite Nat.add_0_r, Nat.mod_small; [done|].
    destruct Hb as (_ & _ & Hcur). by eapply lookup_lt_Some.
  - destruct (next_icon_returns b Hb) as (b1 & Hrun & Hb1 & Hicons & Hid).
    destruct (IH b1 Hb1) as (b' & Hrun' & Hb' & Hicons' & Hid').
    exists b'. split; [|split; [done|split; [congruence|]]].
    + simpl. monad_unfold. by rewrite Hrun.
    + rewrite Hid', Hicons, Hid, Nat.Div0.add_mod_idemp_l.
      by replace (current_icon_id b + S k) with (current_icon_id b + 1 + k) by lia.
Qed.

Lemma button_consistent_eq b b' :
  button_consistent b -> button_consistent b' ->
  icons b' = icons b -> current_icon_id b' = current_icon_id b -> b' = b.
Proof.
  intros (Hn & _ & Hc) (Hn' & _ & Hc') Hicons Hid.
  destruct b, b'; simpl in *. subst. rewrite Hc in Hc'. by injection Hc' as -> ->.
Qed.

(** X13: a button built from a dict of icon files shows
    after [k] calls of [next_icon] the icon at position [k] modulo the
    number [n] of its icons, with its name; so it shows each of its
    icons once in [n] calls, no name twice, and after [n] calls it is as
    it was built. *)
Theorem next_icon_cycles (icon_fnames : list (string * str)) (b : t) :
  NoDup (fst <$> icon_fnames) ->
  __init__ icon_fnames = Some b ->
  (forall k, exists b',
     times k next_icon b = Ok tt b' /\
     current_icon_id b' = k mod length (icons b) /\
     icons b !! (k mod length (icons b))
       = Some (current_icon_name b', texture b')) /\
  NoDup (icon_names b) /\
  times (length (icons b)) next_icon b = Ok tt b.
Proof.
  intros Hnd Hinit.
  destruct (Button2D__init___consistent _ _ Hnd Hinit) as (Hb & Hid & Hicons).
  split; [|split; [apply Hb|]].
  - intros k. destruct (next_icon_times b k Hb) as (b' & Hrun & Hb' & Hi & Hk).
    rewrite Hid in Hk. simpl in Hk.
    exists b'. split; [done|]. split; [done|].
    destruct Hb' as (_ & _ & Hcur). by rewrite <- Hk, <- Hi.
  - destruct (next_icon_times b (length (icons b)) Hb)
      as (b' & Hrun & Hb' & Hi & Hk).
    rewrite Hrun. f_equal. apply button_consistent_eq; [done..|].
    rewrite Hk, Hid. simpl. apply Nat.Div0.mod_same.
Qed.

(** The part of a file name after its last dot. *)
Lemma last_split_on (sep : ascii) (x y : str) :
  sep ∉ y -> last (split_on sep (x ++ sep :: y)) = Some y.
Proof.
  intros Hy.
  assert (Hone : split_on sep y = [y]).
  { induction y as [|a y IH]; [done|]. simpl.
    apply not_elem_of_cons in Hy as [Hne Hy].
    rewrite decide_False by done. by rewrite IH. }
  assert (Hsplit : exists p ps, split_on sep (x ++ sep :: y) = p :: ps ++ [y]).
  { induction x as [|a x IH]; simpl.
    - rewrite decide_True by done. rewrite Hone. by exists [], [].
    - destruct IH as (p & ps & ->). case_decide.
      + by exists [], (p :: ps).
      + by exists (a :: p), ps. }
  destruct Hsplit as (p & ps & ->).
  by rewrite app_comm_cons, last_snoc.
Qed.

(** X14: the constructor keeps the icons whose file name
    ends, after its last dot, in png or PNG, and raises [IndexError]
    exactly when that leaves none. *)
Theorem Button2D_needs_png (icon_fnames : list (string * str)) :
  NoDup (fst <$> icon_fnames) ->
  (__init__ icon_fnames = None <->
   Forall (fun item => not_png item.2 = true) icon_fnames) /\
  (forall b name icon,
     __init__ icon_fnames = Some b ->
     ((name, icon) ∈ icons b <->
      (name, icon) ∈ icon_fnames /\ not_png icon = false)) /\
  (forall stem extension,
     "."%char ∉ extension ->
     not_png (stem ++ "."%char :: extension) =
       bool_decide (extension <> chars "png" /\ extension <> chars "PNG")).
Proof.
  intros Hnd. split; [|split].
  - split.
    + intros Hnone. apply Forall_forall. intros [name icon] Hin. simpl.
      destruct (not_png icon) eqn:Hpng; [done|]. exfalso.
      assert (Hicon : (name, icon) ∈ __build_icons icon_fnames)
        by (by apply __build_icons_elem_of).
      unfold __init__ in Hnone.
      pose proof (__build_icons_NoDup _ Hnd) as Hnd'.
      destruct (__build_icons icon_fnames) as [|[n f] l]; [by apply elem_of_nil in Hicon|].
      simpl in Hnone.
      by rewrite (getitem_lookup ((n, f) :: l) 0 n f Hnd' eq_refl) in Hnone.
    + intros Hall. unfold __init__.
      destruct (__build_icons icon_fnames) as [|[n f] l] eqn:Hl; [done|].
      exfalso. assert (Hin : (n, f) ∈ __build_icons icon_fnames)
        by (rewrite Hl; apply elem_of_cons; by left).
      apply __build_icons_elem_of in Hin as [Hin Hpng].
      rewrite Forall_forall in Hall. apply Hall in Hin. simpl in Hin. congruence.
  - intros b name icon Hinit.
    destruct (Button2D__init___consistent _ _ Hnd Hinit) as (_ & _ & ->).
    apply __build_icons_elem_of.
  - intros stem extension Hext. unfold not_png.
    rewrite last_split_on by done. simpl.
    apply bool_decide_ext. rewrite !not_elem_of_cons.
    split; [tauto|]. intros [? ?]. repeat split; try done. apply not_elem_of_nil.
Qed.

End Button2D_facts.

(** ** The mouse buttons of a widget *)

Section UI_facts.
Import ui.UI.

Lemma run_app u evs1 evs2 : run u (evs1 ++ evs2) = run (run u evs1) evs2.
Proof. apply foldl_app. Qed.

(** What an event other than those of the left button does to the state
    of the left button and to the record of the calls. *)
Lemma handle_not_left u e :
  e <> LeftButtonPressEvent -> e <> LeftButtonReleaseEvent ->
  exists l,
    calls (handle u e) = calls u ++ l /\
    ("on_left_mouse_button_clicked" ∉ l) /\
    left_button_state (handle u e) =
      (if decide (e = MouseMoveEvent /\ left_button_state u = "pressing")
       then "dragging" else left_button_state u).
Proof.
  intros Hpress Hrelease. destruct e; try done; simpl.
  - exists ["on_right_mouse_button_pressed"]. split; [done|].
    split; [|first [done|by rewrite decide_False by (by intros [? _])]].
    by intros [?|[]%elem_of_nil]%elem_of_cons.
  - unfold right_button_release_callback.
    destruct (decide (right_button_state u = "pressing")).
    + exists ["on_right_mouse_button_clicked"; "on_right_mouse_button_released"].
      simpl. rewrite <- app_assoc. split; [done|].
      split; [|first [done|by rewrite decide_False by (by intros [? _])]].
      intros [?|[?|[]%elem_of_nil]%elem_of_cons]%elem_of_cons; done.
    + exists ["on_right_mouse_button_released"]. split; [done|].
      split; [|first [done|by rewrite decide_False by (by intros [? _])]].
      by intros [?|[]%elem_of_nil]%elem_of_cons.
  - unfold mouse_move_callback.
    destruct (decide (left_button_state u = "pressing" \/
                      left_button_state u = "dragging")) as [Hl|Hl].
    + exists ["on_left_mouse_button_dragged"]. split; [done|].
      split; [by intros [?|[]%elem_of_nil]%elem_of_cons|]. simpl.
      destruct Hl as [Hl|Hl]; rewrite Hl.
      * by rewrite decide_True.
      * by rewrite decide_False by (by intros [_ ?]).
    + rewrite (decide_False (P := MouseMoveEvent = MouseMoveEvent /\ _))
        by (intros [_ ?]; apply Hl; by left).
      destruct (decide (right_button_state u = "pressing" \/
                        right_button_state u = "dragging")).
      * exists ["on_right_mouse_button_dragged"]. split; [done|].
        split; [|done]. by intros [?|[]%elem_of_nil]%elem_of_cons.
      * exists []. rewrite app_nil_r. split; [done|]. split; [|done].
        apply not_elem_of_nil.
  - exists ["on_key_press"]. split; [done|].
    split; [|first [done|by rewrite decide_False by (by intros [? _])]].
    by intros [?|[]%elem_of_nil]%elem_of_cons.
Qed.

Lemma run_not_left evs : forall u,
  Forall (fun e => e <> LeftButtonPressEvent /\ e <> LeftButtonReleaseEvent) evs ->
  left_button_state u = "pressing" \/ left_button_state u = "dragging" ->
  exists l,
    calls (run u evs) = calls u ++ l /\
    ("on_left_mouse_button_clicked" ∉ l) /\
    left_button_state (run u evs) =
      (if decide (MouseMoveEvent ∈ evs) then "dragging"
       else left_button_state u).
Proof.
  induction evs as [|e evs IH]; intros u Hevs Hu.
  - exists []. rewrite app_nil_r. split; [done|]. split; [apply not_elem_of_nil|].
    by rewrite decide_False by apply not_elem_of_nil.
  - inversion Hevs as [|? ? [Hp Hr] Hevs']; subst.
    destruct (handle_not_left u e Hp Hr) as (l1 & Hc1 & Hn1 & Hs1).
    assert (Hu1 : left_button_state (handle u e) = "pressing" \/
                  left_button_state (handle u e) = "dragging").
    { rewrite Hs1. case_decide; [by right|done]. }
    destruct (IH (handle u e) Hevs' Hu1) as (l2 & Hc2 & Hn2 & Hs2).
    exists (l1 ++ l2). simpl. split; [by rewrite Hc2, Hc1, app_assoc|].
    split; [by apply not_elem_of_app|].
    rewrite Hs2, Hs1.
    destruct (decide (e = MouseMoveEvent)) as [->|He].
    + rewrite (decide_True (P := MouseMoveEvent ∈ MouseMoveEvent :: evs))
        by apply list_elem_of_here.
      destruct Hu as [Hu|Hu]; rewrite Hu; repeat case_decide; try done;
        exfalso; match goal with Hn : ~ _ |- _ => apply Hn; by split end.
    + rewrite (decide_False (P := e = MouseMoveEvent /\ _)) by tauto.
      destruct (decide (MouseMoveEvent ∈ evs)) as [Hin|Hnin].
      * by rewrite decide_True by (by apply list_elem_of_further).
      * rewrite decide_False; [done|].
        intros [?|?]%elem_of_cons; congruence.
Qed.

(** X15: a press of the left button, then any events that
    are not of the left button, then its release: the widget is told of
    the press and of the release, the button ends released, and a click
    is reported between the two exactly when the mouse did not move in
    the meantime. *)
Theorem click_or_drag (u : t) (evs : list event) :
  Forall (fun e => e <> LeftButtonPressEvent /\ e <> LeftButtonReleaseEvent) evs ->
  exists l,
    calls (run u (LeftButtonPressEvent :: evs ++ [LeftButtonReleaseEvent]))
      = calls u ++ ["on_left_mouse_button_pressed"] ++ l ++
        ["on_left_mouse_button_released"] /\
    left_button_state
      (run u (LeftButtonPressEvent :: evs ++ [LeftButtonReleaseEvent]))
      = "released" /\
    ("on_left_mouse_button_clicked" ∈ l <-> MouseMoveEvent ∉ evs).
Proof.
  intros Hevs. simpl. rewrite run_app. simpl.
  set (u1 := left_button_click_callback u).
  destruct (run_not_left evs u1 Hevs (or_introl eq_refl)) as (l & Hc & Hn & Hs).
  unfold left_button_release_callback. rewrite Hs.
  destruct (decide (MouseMoveEvent ∈ evs)) as [Hin|Hnin].
  - rewrite decide_False by done. exists l. simpl. rewrite Hc. simpl.
    split; [by rewrite <- !app_assoc|]. split; [done|]. tauto.
  - rewrite decide_True by done.
    exists (l ++ ["on_left_mouse_button_clicked"]). simpl. rewrite Hc. simpl.
    split; [by rewrite <- !app_assoc|]. split; [done|].
    split; [done|]. intros _. apply elem_of_app. right. apply list_elem_of_here.
Qed.

(** X16: with the right button pressed first and the left
    one after it, every move of the mouse is reported as a drag of the
    left button and none as a drag of the right one; so the release of
    the right button reports a click, however far the mouse went. *)
Theorem both_buttons_down (u : t) (n : nat) :
  calls (run u ([RightButtonPressEvent; LeftButtonPressEvent] ++
                replicate n MouseMoveEvent ++
                [LeftButtonReleaseEvent; RightButtonReleaseEvent]))
  = calls u ++
    ["on_right_mouse_button_pressed"; "on_left_mouse_button_pressed"] ++
    replicate n "on_left_mouse_button_dragged" ++
    (if decide (n = 0) then ["on_left_mouse_button_clicked"] else []) ++
    ["on_left_mouse_button_released";
     "on_right_mouse_button_clicked"; "on_right_mouse_button_released"].
Proof.
  assert (Hmoves : forall n u,
    left_button_state u = "pressing" \/ left_button_state u = "dragging" ->
    run u (replicate n MouseMoveEvent) =
      mk (if decide (n = 0) then left_button_state u else "dragging")
         (right_button_state u)
         (calls u ++ replicate n "on_left_mouse_button_dragged")).
  { clear. induction n as [|n IH]; intros u Hu; simpl.
    - rewrite app_nil_r. by destruct u.
    - unfold mouse_move_callback at 1. rewrite decide_True by done.
      rewrite IH by (by right). simpl. rewrite <- app_assoc. simpl.
      by case_decide. }
  rewrite run_app. simpl. rewrite run_app.
  rewrite Hmoves by (by left). simpl.
  unfold left_button_release_callback, right_button_release_callback. simpl.
  destruct (decide (n = 0)) as [->|Hn]; simpl.
  - by rewrite <- !app_assoc.
  - by rewrite <- !app_assoc.
Qed.

End UI_facts.

(** ** Going back in the cycle *)

Section Selection_back.
Context `{Metric} `{Toolkit}.
Import StreamlinesVizu.

(** One call of [select_previous] from the name at position [c] of the
    cycle selects the name at the position before, wrapping around. *)
Lemma moves_select_previous X name c :
  well_formed X ->
  selected_bundle X = Some name ->
  cycle_order X !! c = Some name ->
  exists name',
    cycle_order X !! Z.to_nat ((Z.of_nat c - 1) mod Z.of_nat (length (keys X)))
      = Some name' /\
    moves X (set_selected_bundle (Some name') X) select_previous
          (fun _ => True).
Proof.
  intros [(Hsorted & Hnd & Hdom) Hlast] Hsel Hc.
  set (indices := reverse (lexsort (keys X) (size_of X <$> keys X))).
  destruct (cycle_indices X) as [Hperm Hall]. fold indices in Hperm, Hall.
  assert (Hlen : length indices = length (keys X))
    by (by rewrite Hperm, length_seq).
  assert (Hndi : NoDup indices) by (rewrite Hperm; apply NoDup_seq).
  rewrite cycle_order_lookup in Hc. fold indices in Hc.
  destruct (indices !! c) as [i|] eqn:Hci; [|done]. simpl in Hc.
  assert (Hcn : c < length (keys X))
    by (rewrite <- Hlen; by eapply lookup_lt_Some).
  set (c' := Z.to_nat ((Z.of_nat c - 1) mod Z.of_nat (length (keys X)))).
  assert (Hc'n : c' < length (keys X)).
  { unfold c'.
    pose proof (Z.mod_pos_bound (Z.of_nat c - 1) (Z.of_nat (length (keys X)))).
    lia. }
  destruct (lookup_lt_is_Some_2 indices c') as [j Hj]; [lia|].
  destruct (proj1 (Forall_forall _ _) Hall j) as [name' Hname'];
    [by eapply list_elem_of_lookup_2|].
  exists name'. split.
  { rewrite cycle_order_lookup. fold indices c'. by rewrite Hj. }
  destruct (proj1 (Hdom name')) as [r' Hr'];
    [by eapply list_elem_of_lookup_2|].
  unfold select_previous. apply moves_get_bind. intros s0 Hs0.
  apply moves_frame with (X1 := X); [done|].
  assert (Hk0 : keys s0 = keys X) by apply Hs0.
  assert (Hsel0 : selected_bundle s0 = Some name)
    by (rewrite <- Hsel; apply Hs0).
  rewrite Hk0, Hsel0.
  eapply moves_bind.
  { apply moves_sizes. intros k Hk. by apply Hdom. }
  intros ? ->. fold indices.
  assert (Hpos : position (keys X) indices name = ret c).
  { unfold position. rewrite (index_NoDup _ _ _ Hnd Hc). simpl.
    by rewrite (index_NoDup _ _ _ Hndi Hci). }
  rewrite Hpos.
  eapply moves_bind with (X1 := X) (φ := fun a => a = c').
  { exact (moves_ret X c' (fun a => a = c') eq_refl). }
  intros ? ->.
  assert (Hkey : key_at (keys X) indices c' = ret name').
  { unfold key_at. rewrite Hj. simpl. by rewrite Hname'. }
  rewrite Hkey.
  eapply moves_bind; [by apply moves_ret with (φ := fun a => a = name')|].
  intros ? ->. by eapply moves_select.
Qed.

Lemma mod_minus_one (n : Z) : (0 < n)%Z -> ((0 - 1) mod n = n - 1)%Z.
Proof. intros Hn. symmetry. apply (Z.mod_unique _ _ (-1)); lia. Qed.

Lemma previous_of_next (c n : nat) :
  c < n ->
  Z.to_nat ((Z.of_nat ((c + 1) mod n) - 1) mod Z.of_nat n) = c.
Proof.
  intros Hc. destruct (decide (c + 1 = n)) as [Heq|Hne].
  - rewrite Heq, Nat.Div0.mod_same.
    change (Z.of_nat 0) with 0%Z. rewrite mod_minus_one by lia. lia.
  - rewrite Nat.mod_small by lia. rewrite Z.mod_small by lia. lia.
Qed.

Lemma next_of_previous (c n : nat) :
  c < n ->
  (Z.to_nat ((Z.of_nat c - 1) mod Z.of_nat n) + 1) mod n = c.
Proof.
  intros Hc. destruct (decide (c = 0)) as [->|Hne].
  - change (Z.of_nat 0) with 0%Z. rewrite mod_minus_one by lia.
    replace (Z.to_nat (Z.of_nat n - 1) + 1) with n by lia.
    apply Nat.Div0.mod_same.
  - rewrite Z.mod_small by lia. rewrite Nat.mod_small; lia.
Qed.

Lemma well_formed_selected name s :
  well_formed s -> well_formed (set_selected_bundle name s).
Proof. done. Qed.

Lemma cycle_order_selected name s :
  cycle_order (set_selected_bundle name s) = cycle_order s.
Proof. done. Qed.

(** X1: with a well-formed registry and a
    selected bundle of the key list, [select_next] followed by
    [select_previous] returns to that bundle, and so does
    [select_previous] followed by [select_next]; neither raises, and the
    keys and the registry are as they were. *)
Theorem select_previous_undoes_select_next (s : t) (name : string) :
  well_formed s ->
  selected_bundle s = Some name ->
  name ∈ keys s ->
  (exists s1 s2,
     select_next s = Ok tt s1 /\ select_previous s1 = Ok tt s2 /\
     selected_bundle s2 = Some name /\
     keys s2 = keys s /\ bundles s2 = bundles s) /\
  (exists s1 s2,
     select_previous s = Ok tt s1 /\ select_next s1 = Ok tt s2 /\
     selected_bundle s2 = Some name /\
     keys s2 = keys s /\ bundles s2 = bundles s).
Proof.
  intros Hwf Hsel Hin.
  destruct (cycle_order_sorted s) as [Hperm _].
  assert (Hc : exists c, cycle_order s !! c = Some name).
  { apply list_elem_of_lookup. by rewrite Hperm. }
  destruct Hc as [c Hc].
  assert (Hcn : c < length (keys s)).
  { rewrite <- cycle_order_length. by eapply lookup_lt_Some. }
  split.
  - destruct (moves_select_next s name c Hwf Hsel Hc) as (name1 & Hc1 & Hm).
    apply moves_returns in Hm as ([] & s1 & Hrun1 & _ & Hs1).
    assert (Hwf1 : well_formed s1).
    { eapply well_formed_frame; [exact Hs1|]. by apply well_formed_selected. }
    assert (Hk1 : keys s1 = keys s) by apply Hs1.
    assert (Hb1 : bundles s1 = bundles s) by apply Hs1.
    assert (Hsel1 : selected_bundle s1 = Some name1) by apply Hs1.
    assert (Hcyc1 : cycle_order s1 = cycle_order s).
    { by rewrite (cycle_order_frame _ _ Hs1). }
    destruct (moves_select_previous s1 name1 ((c + 1) mod length (keys s)))
      as (name2 & Hc2 & Hm2); [done..|by rewrite Hcyc1|].
    rewrite Hk1, Hcyc1, previous_of_next in Hc2 by done.
    assert (name2 = name) as -> by congruence.
    apply moves_returns in Hm2 as ([] & s2 & Hrun2 & _ & Hs2).
    exists s1, s2. split; [done|]. split; [done|].
    destruct Hs2 as (Hk2 & Hb2 & _ & _ & _ & Hsel2 & _). simpl in *.
    split; [done|]. split; congruence.
  - destruct (moves_select_previous s name c Hwf Hsel Hc) as (name1 & Hc1 & Hm).
    apply moves_returns in Hm as ([] & s1 & Hrun1 & _ & Hs1).
    assert (Hwf1 : well_formed s1).
    { eapply well_formed_frame; [exact Hs1|]. by apply well_formed_selected. }
    assert (Hk1 : keys s1 = keys s) by apply Hs1.
    assert (Hb1 : bundles s1 = bundles s) by apply Hs1.
    assert (Hsel1 : selected_bundle s1 = Some name1) by apply Hs1.
    assert (Hcyc1 : cycle_order s1 = cycle_order s).
    { by rewrite (cycle_order_frame _ _ Hs1). }
    destruct (moves_select_next s1 name1
                (Z.to_nat ((Z.of_nat c - 1) mod Z.of_nat (length (keys s)))))
      as (name2 & Hc2 & Hm2); [done..|by rewrite Hcyc1|].
    rewrite Hk1, Hcyc1, next_of_previous in Hc2 by done.
    assert (name2 = name) as -> by congruence.
    apply moves_returns in Hm2 as ([] & s2 & Hrun2 & _ & Hs2).
    exists s1, s2. split; [done|]. split; [done|].
    destruct Hs2 as (Hk2 & Hb2 & _ & _ & _ & Hsel2 & _). simpl in *.
    split; [done|]. split; congruence.
Qed.

End Selection_back.

(** ** Verdicts and the selection *)

Section Verdicts.
Context `{Metric} `{Toolkit}.
Import StreamlinesVizu.

(** The tail of both verdicts, with the selection it leaves: the name
    after the judged one in the cycle. *)
Lemma select_next_remove_bundle_selected s name r c :
  well_formed s ->
  selected_bundle s = Some name ->
  bundles s !! name = Some r ->
  cycle_order s !! c = Some name ->
  exists s1 keys' next,
    (select_next ;; remove_bundle name) s = Ok tt s1 /\
    remove (keys s) name = Some keys' /\
    keys s1 = sorted keys' /\
    bundles s1 = delete name (bundles s) /\
    inliers s1 = inliers s /\
    outliers s1 = outliers s /\
    undo_memory s1 = undo_memory s /\
    last_bundles_visibility_state s1 = last_bundles_visibility_state s /\
    (forall r', contents (heap s1 !!! r') = contents (heap s !!! r')) /\
    cycle_order s !! ((c + 1) mod length (keys s)) = Some next /\
    selected_bundle s1 = Some next.
Proof.
  intros Hwf Hsel Hr Hc.
  assert (Hin : name ∈ keys s).
  { destruct Hwf as [(_ & _ & Hdom) _]. apply Hdom. eauto. }
  destruct (moves_select_next s name c Hwf Hsel Hc) as (next & Hnext & Hm).
  apply moves_returns in Hm as ([] & sb & Hrun & _ & Hsb).
  destruct Hsb as (Hk & Hb & Hi & Ho & Hu & Hs & _ & Hl & Hh). simpl in *.
  destruct (remove_elem_of _ _ Hin) as [keys' Hrem].
  destruct (remove_bundle_returns sb name r keys')
    as (s1 & Hrun1 & Hk1 & Hb1 & Hout).
  { by rewrite Hk. }
  { by rewrite Hb. }
  destruct Hout as (Hi1 & Ho1 & Hu1 & Hs1 & _ & Hl1 & Hh1).
  exists s1, keys', next. monad_unfold. rewrite Hrun, Hrun1.
  repeat split; first [congruence | intros r'; by rewrite Hh1, Hh].
Qed.

(** A verdict on the selected bundle. *)
Lemma act_selected v s name r c :
  well_formed s ->
  selected_bundle s = Some name ->
  bundles s !! name = Some r ->
  cycle_order s !! c = Some name ->
  exists s1 keys' next,
    act v s = Ok tt s1 /\
    remove (keys s) name = Some keys' /\
    keys s1 = sorted keys' /\
    bundles s1 = delete name (bundles s) /\
    inliers s1 = match v with
                 | accept => inliers s ++ Bundle.streamlines (heap s !!! r)
                 | reject => inliers s
                 end /\
    outliers s1 = match v with
                  | accept => outliers s
                  | reject => outliers s ++ Bundle.streamlines (heap s !!! r)
                  end /\
    undo_memory s1 = deque_append (record_of v s) (undo_memory s) /\
    last_bundles_visibility_state s1 = last_bundles_visibility_state s /\
    (forall r', contents (heap s1 !!! r') = contents (heap s !!! r')) /\
    cycle_order s !! ((c + 1) mod length (keys s)) = Some next /\
    selected_bundle s1 = Some next.
Proof.
  intros Hwf Hsel Hr Hc.
  assert (Hrec : record_of v s =
                 mkMemory (match v with accept => "like" | reject => "dislike" end)
                          name r).
  { unfold record_of. rewrite Hsel. f_equal. exact (f_equal (default 0) Hr). }
  rewrite Hrec.
  destruct v; simpl;
    [ set (sa := set_inliers (inliers s ++ Bundle.streamlines (heap s !!! r))
                   (set_undo_memory
                      (deque_append (mkMemory "like" name r) (undo_memory s)) s))
    | set (sa := set_outliers (outliers s ++ Bundle.streamlines (heap s !!! r))
                   (set_undo_memory
                      (deque_append (mkMemory "dislike" name r) (undo_memory s)) s)) ];
    (destruct (select_next_remove_bundle_selected sa name r c)
       as (s1 & keys' & next & Hrun & Hfacts); [done..|]);
    exists s1, keys', next; (split; [|exact Hfacts]);
    [unfold like_bundle | unfold dislike_bundle];
    unfold bundles_getitem; run_monad; rewrite Hsel; simpl; rewrite Hr; simpl;
    exact Hrun.
Qed.

(** Undoing a verdict whose entry is the newest one. *)
Lemma undo_verdict_returns v s name r rest :
  deque_pop (undo_memory s) =
    Some (mkMemory (match v with accept => "like" | reject => "dislike" end)
                   name r, rest) ->
  last_bundles_visibility_state s = "dimmed" \/
  last_bundles_visibility_state s = "hidden" ->
  exists s2,
    undo s = Ok tt s2 /\
    keys s2 = sorted (keys s ++ [name]) /\
    bundles s2 = <[name := r]> (bundles s) /\
    inliers s2 = match v with
                 | accept => slice_to_minus (inliers s)
                               (length (Bundle.streamlines (heap s !!! r)))
                 | reject => inliers s
                 end /\
    outliers s2 = match v with
                  | accept => outliers s
                  | reject => slice_to_minus (outliers s)
                                (length (Bundle.streamlines (heap s !!! r)))
                  end /\
    undo_memory s2 = rest /\
    selected_bundle s2 = Some name /\
    forall r', contents (heap s2 !!! r') = contents (heap s !!! r').
Proof.
  intros Hpop Hlast. unfold undo. run_monad. rewrite Hpop.
  destruct v; simpl;
  match goal with
  | |- context [select (Some name) ?sc] =>
      destruct (moves_returns _ _ _ _ (moves_select sc name r
                  ltac:(simpl; apply lookup_insert_eq) ltac:(exact Hlast)))
        as ([] & s2 & -> & _ & Hs2)
  end;
  (exists s2; split; [done|]);
  destruct Hs2 as (Hk & Hb & Hi & Ho & Hu & Hsel & _ & _ & Hh); simpl in *;
  (repeat split; try done);
  intros r'; rewrite Hh;
  (destruct (decide (r = r')) as [<-|Hne];
   [by rewrite lookup_total_insert_eq|by rewrite lookup_total_insert_ne]).
Qed.

Lemma slice_to_minus_app_cases {A} (l k : list A) :
  slice_to_minus (l ++ k) (length k) = if decide (length k = 0) then [] else l.
Proof.
  unfold slice_to_minus. case_decide; [done|].
  rewrite length_app.
  replace (length l + length k - length k) with (length l) by lia.
  by rewrite take_app_length.
Qed.

(** X2: in a well-formed session whose undo memory has room
    for at least one entry, rejecting the selected bundle takes it out
    of the registry and puts its streamlines at the end of the outliers;
    undoing then gives back the registry, the key list and the bundle
    objects, selects the bundle again and leaves the inliers untouched.
    The outliers are as before when the bundle has a streamline; when
    it has none, the undo empties them. *)
Theorem reject_then_undo (s : t) (name : string) :
  well_formed s ->
  selected_bundle s = Some name ->
  name ∈ keys s ->
  maxlen (undo_memory s) <> Some 0 ->
  exists s1 s2,
    dislike_bundle s = Ok tt s1 /\
    bundles s1 = delete name (bundles s) /\
    length (outliers s1) = length (outliers s) + size_of s name /\
    inliers s1 = inliers s /\
    undo s1 = Ok tt s2 /\
    bundles s2 = bundles s /\
    keys s2 = keys s /\
    (forall r, contents (heap s2 !!! r) = contents (heap s !!! r)) /\
    inliers s2 = inliers s /\
    outliers s2 = (if decide (size_of s name = 0) then [] else outliers s) /\
    selected_bundle s2 = Some name.
Proof.
  intros Hwf Hsel Hin Hroom.
  pose proof Hwf as [(Hsorted & Hnd & Hdom) Hlast].
  destruct (proj1 (Hdom name) Hin) as [r Hr].
  assert (Hsz : size_of s name = length (Bundle.streamlines (heap s !!! r))).
  { unfold size_of. by rewrite (lookup_total_correct _ _ _ Hr). }
  destruct (cycle_order_sorted s) as [Hperm _].
  assert (Hc : exists c, cycle_order s !! c = Some name).
  { apply list_elem_of_lookup. by rewrite Hperm. }
  destruct Hc as [c Hc].
  destruct (act_selected reject s name r c Hwf Hsel Hr Hc) as
    (s1 & keys' & next & Hact & Hrem & Hk1 & Hb1 & Hi1 & Ho1 & Hu1 & Hl1 & Hh1 & _).
  simpl in Hact.
  assert (Hrec : record_of reject s = mkMemory "dislike" name r).
  { unfold record_of. rewrite Hsel. f_equal. exact (f_equal (default 0) Hr). }
  rewrite Hrec in Hu1.
  destruct (deque_pop_append (mkMemory "dislike" name r) (undo_memory s) Hroom)
    as [rest Hpop].
  destruct (undo_verdict_returns reject s1 name r rest) as
    (s2 & Hundo & Hk2 & Hb2 & Hi2 & Ho2 & Hu2 & Hsel2 & Hh2).
  { by rewrite Hu1. }
  { by rewrite Hl1. }
  exists s1, s2. repeat split; try done.
  - rewrite Ho1, length_app. by rewrite Hsz.
  - rewrite Hb2, Hb1. rewrite insert_delete_eq. by apply insert_id.
  - rewrite Hk2, Hk1. apply sorted_unique; [done|].
    rewrite sorted_Permutation. apply remove_Some in Hrem. rewrite Hrem.
    by rewrite Permutation_app_comm.
  - intros r'. by rewrite Hh2, Hh1.
  - congruence.
  - rewrite Ho2, Ho1. specialize (Hh1 r). unfold contents in Hh1.
    injection Hh1 as -> _ _ _. rewrite Hsz. apply slice_to_minus_app_cases.
Qed.

(** X3: accepting or rejecting the selected bundle
    leaves the selection on the name that follows it in the cycle of
    [select_next]. That name is still registered unless it is the judged
    bundle itself, which is the case when the bundle was the only one:
    the registry is then empty, the selection still holds the name, and
    [select_next] and [select_previous] raise [ValueError] and another
    verdict raises [KeyError], each leaving the session as it is. *)
Theorem verdict_moves_selection (v : verdict) (s : t) (name : string) :
  well_formed s ->
  selected_bundle s = Some name ->
  name ∈ keys s ->
  exists c next s1,
    cycle_order s !! c = Some name /\
    cycle_order s !! ((c + 1) mod length (keys s)) = Some next /\
    act v s = Ok tt s1 /\
    selected_bundle s1 = Some next /\
    (next ∈ keys s1 <-> next <> name) /\
    (keys s = [name] ->
     next = name /\ keys s1 = [] /\ bundles s1 = ∅ /\
     select_next s1 = Raise ValueError s1 /\
     select_previous s1 = Raise ValueError s1 /\
     act v s1 = Raise KeyError s1).
Proof.
  intros Hwf Hsel Hin.
  pose proof Hwf as [(Hsorted & Hnd & Hdom) Hlast].
  destruct (proj1 (Hdom name) Hin) as [r Hr].
  destruct (cycle_order_sorted s) as [Hperm _].
  assert (Hc : exists c, cycle_order s !! c = Some name).
  { apply list_elem_of_lookup. by rewrite Hperm. }
  destruct Hc as [c Hc].
  destruct (act_selected v s name r c Hwf Hsel Hr Hc) as
    (s1 & keys' & next & Hact & Hrem & Hk1 & Hb1 & _ & _ & _ & _ & _ & Hnext & Hsel1).
  exists c, next, s1. repeat (split; [done|]).
  pose proof (remove_Some _ _ _ Hrem) as Hkeys.
  assert (Hnin : name ∉ keys').
  { rewrite Hkeys in Hnd. by apply NoDup_cons in Hnd as [? _]. }
  assert (Hnextin : next ∈ keys s).
  { rewrite <- Hperm. by eapply list_elem_of_lookup_2. }
  split.
  - rewrite Hk1, sorted_Permutation. rewrite Hkeys in Hnextin.
    apply elem_of_cons in Hnextin as [->|Hin']; [tauto|].
    split; [|done]. intros _ ->. done.
  - intros Hone.
    assert (Hcyc : cycle_order s = [name]).
    { rewrite Hone in Hperm. by apply Permutation_singleton_r in Hperm. }
    rewrite Hcyc, Hone in Hnext. simpl in Hnext.
    rewrite Hcyc in Hc. destruct c as [|c]; [|by destruct c].
    simpl in Hnext. injection Hnext as <-.
    rewrite Hone in Hrem. simpl in Hrem. rewrite decide_True in Hrem by done.
    injection Hrem as <-.
    assert (Hk1' : keys s1 = []) by (by rewrite Hk1).
    assert (Hb1' : bundles s1 = ∅).
    { rewrite Hb1. apply map_eq. intros k. rewrite lookup_empty.
      destruct (decide (k = name)) as [->|Hne]; [by rewrite lookup_delete_eq|].
      rewrite lookup_delete_ne by done.
      destruct (bundles s !! k) eqn:Hk; [|done].
      assert (Hkin : k ∈ keys s) by (apply Hdom; eauto).
      rewrite Hone in Hkin. by apply list_elem_of_singleton in Hkin. }
    repeat split; try done.
    + unfold select_next. run_monad. rewrite Hk1', Hsel1. by simpl.
    + unfold select_previous. run_monad. rewrite Hk1', Hsel1. by simpl.
    + destruct v; simpl; [unfold like_bundle|unfold dislike_bundle];
        unfold bundles_getitem; run_monad; rewrite Hsel1; simpl;
        rewrite Hb1', lookup_empty; by simpl.
Qed.

End Verdicts.

(** ** Visibility of the bundles *)

Section Visibility.
Context `{Metric} `{Toolkit}.
Import StreamlinesVizu.

(** The loop of [_set_bundles_visibility]: the listed bundle objects
    that are not excluded get the visibility, and nothing else of the
    session changes. *)
Lemma visibility_loop_returns visibility (exclude : list ref) (bs : list ref) :
  forall s, exists s',
    for_each bs (fun bundle =>
      if decide (bundle ∈ exclude) then ret tt
      else on_bundle bundle (modify (Bundle.set_actor_visible visibility))) s
      = Ok tt s' /\
    s' = set_heap (heap s') s /\
    forall r, heap s' !!! r =
      if decide (r ∈ bs /\ r ∉ exclude)
      then Bundle.set_actor_visible visibility (heap s !!! r)
      else heap s !!! r.
Proof.
  induction bs as [|b bs IH]; intros s.
  - exists s. split; [done|]. split; [by destruct s|]. intros r.
    rewrite decide_False; [done|]. intros [[]%elem_of_nil _].
  - simpl. monad_unfold.
    destruct (decide (b ∈ exclude)) as [Hex|Hex].
    + destruct (IH s) as (s' & -> & Hs' & Hheap). exists s'.
      split; [done|]. split; [done|]. intros r. rewrite Hheap.
      destruct (decide (r ∈ bs /\ r ∉ exclude)) as [[Hin Hnex]|Hn].
      * rewrite decide_True; [done|]. split; [by apply list_elem_of_further|done].
      * rewrite decide_False; [done|]. intros [[->|Hin]%elem_of_cons Hnex]; tauto.
    + unfold on_bundle at 1. simpl.
      set (s1 := set_heap _ s).
      destruct (IH s1) as (s' & -> & Hs' & Hheap). exists s'.
      split; [done|]. split; [by rewrite Hs'|]. intros r. rewrite Hheap.
      unfold s1. simpl.
      destruct (decide (r = b)) as [->|Hne].
      * rewrite lookup_total_insert_eq.
        rewrite (decide_True (P := b ∈ b :: bs /\ _))
          by (split; [apply list_elem_of_here|done]).
        by case_decide.
      * rewrite lookup_total_insert_ne by done.
        destruct (decide (r ∈ bs /\ r ∉ exclude)) as [[Hin Hnex]|Hn].
        -- rewrite decide_True; [done|].
           split; [by apply list_elem_of_further|done].
        -- rewrite decide_False; [done|].
           intros [[->|Hin]%elem_of_cons Hnex]; tauto.
Qed.

Lemma elem_of_bundles_values s r :
  r ∈ bundles_values s <-> exists k, bundles s !! k = Some r.
Proof.
  unfold bundles_values. rewrite list_elem_of_fmap. split.
  - intros ([k r'] & -> & Hin). exists k. by apply elem_of_map_to_list.
  - intros [k Hk]. exists (k, r). split; [done|]. by apply elem_of_map_to_list.
Qed.

(** [_set_bundles_visibility] with a state it knows. *)
Lemma _set_bundles_visibility_returns state bs exclude s :
  state = "visible" \/ state = "dimmed" \/ state = "hidden" ->
  exists s',
    _set_bundles_visibility state bs exclude s = Ok tt s' /\
    s' = set_heap (heap s')
           (set_last_bundles_visibility_state
              (if decide (state = "visible")
               then last_bundles_visibility_state s else state) s) /\
    forall r, heap s' !!! r =
      if decide (r ∈ default (bundles_values s) bs /\ r ∉ exclude)
      then Bundle.set_actor_visible (bool_decide (state <> "hidden"))
                                    (heap s !!! r)
      else heap s !!! r.
Proof.
  intros [-> | [-> | ->]].
  - destruct (visibility_loop_returns true exclude
                (match bs with Some l => l | None => bundles_values s end) s)
      as (s' & Hloop & Hs' & Hheap).
    exists s'. split; [exact Hloop|]. split; [by destruct s|].
    intros r. rewrite Hheap. by destruct bs.
  - destruct (visibility_loop_returns true exclude
                (match bs with Some l => l | None => bundles_values s end)
                (set_last_bundles_visibility_state "dimmed" s))
      as (s' & Hloop & Hs' & Hheap).
    exists s'. split; [exact Hloop|]. split; [done|].
    intros r. rewrite Hheap. by destruct bs.
  - destruct (visibility_loop_returns false exclude
                (match bs with Some l => l | None => bundles_values s end)
                (set_last_bundles_visibility_state "hidden" s))
      as (s' & Hloop & Hs' & Hheap).
    exists s'. split; [exact Hloop|]. split; [done|].
    intros r. rewrite Hheap. by destruct bs.
Qed.

Lemma reset_returns b :
  exists b', Bundle.reset b = Ok tt b' /\
    contents b' = contents b /\
    Bundle.last_threshold b' = Some Infinity /\
    Bundle.actor_visible b' = Bundle.actor_visible b.
Proof.
  unfold Bundle.reset. monad_unfold.
  destruct (_cluster_returns Infinity b) as (b1 & Hrun1 & Hc1 & _ & Hcl & Hlt & _).
  destruct (update_returns b1) as (b2 & Hrun2 & Hc2 & _ & _ & _ & Hlt2);
    [by rewrite Hcl|].
  exists b2. rewrite Hrun1, Hrun2. split; [done|]. split; [congruence|].
  split; [congruence|].
  assert (Hv1 : Bundle.actor_visible b1 = Bundle.actor_visible b).
  { clear -Hrun1. unfold Bundle._cluster in Hrun1. run_monad.
    case_decide; simpl in Hrun1; by injection Hrun1 as <-. }
  assert (Hv2 : Bundle.actor_visible b2 = Bundle.actor_visible b1).
  { clear -Hrun2. unfold Bundle.update in Hrun2. run_monad.
    destruct (Bundle.has_changed b1); simpl in Hrun2;
      [|by injection Hrun2 as <-].
    destruct (Bundle.clusters b1); simpl in Hrun2; [|done].
    by injection Hrun2 as <-. }
  congruence.
Qed.

(** The first step of [select]: the bundle selected so far, if it is
    registered, is reset. *)
Lemma unselect_returns s :
  exists s1,
    (match selected_bundle s ≫= (fun k => bundles s !! k) with
     | Some bundle => on_bundle bundle Bundle.reset
     | None => ret tt
     end) s = Ok tt s1 /\
    s1 = set_heap (heap s1) s /\
    (forall r, contents (heap s1 !!! r) = contents (heap s !!! r)) /\
    (forall r, Bundle.actor_visible (heap s1 !!! r) =
               Bundle.actor_visible (heap s !!! r)) /\
    (forall name r, selected_bundle s = Some name ->
       bundles s !! name = Some r ->
       Bundle.last_threshold (heap s1 !!! r) = Some Infinity).
Proof.
  destruct (selected_bundle s ≫= (fun k => bundles s !! k)) as [r|] eqn:Hsel.
  - destruct (reset_returns (heap s !!! r)) as (b' & Hrun & Hc & Hlt & Hv).
    exists (set_heap (<[r := b']> (heap s)) s).
    unfold on_bundle. rewrite Hrun. split; [done|]. split; [done|]. simpl.
    split; [|split].
    + intros r'. destruct (decide (r = r')) as [<-|Hne].
      * by rewrite lookup_total_insert_eq.
      * by rewrite lookup_total_insert_ne.
    + intros r'. destruct (decide (r = r')) as [<-|Hne].
      * by rewrite lookup_total_insert_eq.
      * by rewrite lookup_total_insert_ne.
    + intros name r' Hname Hr'. rewrite Hname in Hsel. simpl in Hsel.
      assert (r' = r) as -> by congruence.
      by rewrite lookup_total_insert_eq.
  - exists s. split; [done|]. split; [by destruct s|].
    split; [done|]. split; [done|].
    intros name r Hname Hr. rewrite Hname in Hsel. simpl in Hsel. congruence.
Qed.

(** [select(None)]: what it leaves of the session. *)
Lemma select_None_returns (s : t) :
  exists s',
    select None s = Ok tt s' /\
    selected_bundle s' = None /\
    like_dislike_panel s' = false /\
    clustering_panel s' = false /\
    cpt s' = None /\
    keys s' = keys s /\ bundles s' = bundles s /\
    inliers s' = inliers s /\ outliers s' = outliers s /\
    undo_memory s' = undo_memory s /\
    last_bundles_visibility_state s' = last_bundles_visibility_state s /\
    (forall r, contents (heap s' !!! r) = contents (heap s !!! r)) /\
    (forall name r, bundles s !! name = Some r ->
       Bundle.actor_visible (heap s' !!! r) = true) /\
    (forall name r, selected_bundle s = Some name ->
       bundles s !! name = Some r ->
       Bundle.last_threshold (heap s' !!! r) = Some Infinity).
Proof.
  destruct (unselect_returns s) as (s1 & Hrun1 & Hs1 & Hc1 & Hv1 & Hlt1).
  set (s2 := set_clustering_panel false
               (set_like_dislike_panel false (set_selected_bundle None s1))).
  destruct (_set_bundles_visibility_returns "visible" None [] s2)
    as (s3 & Hrun3 & Hs3 & Hheap3); [by left|].
  rewrite decide_True in Hs3 by done.
  exists (set_cpt None s3).
  split.
  { unfold select. monad_unfold. rewrite Hrun1. fold s2. by rewrite Hrun3. }
  repeat split; simpl; try done;
    try (rewrite Hs3; unfold s2; simpl; try rewrite Hs1; done).
  - intros r. rewrite Hheap3, <- Hc1.
    by destruct (decide (_ /\ _)).
  - intros name r Hr. rewrite Hheap3. rewrite decide_True; [done|].
    split; [|apply not_elem_of_nil]. simpl.
    apply elem_of_bundles_values. exists name.
    unfold s2. simpl. by rewrite Hs1.
  - intros name r Hname Hr. rewrite Hheap3.
    destruct (decide (_ /\ _)); simpl; by eapply Hlt1.
Qed.

(** X4: [select(None)] never raises; it clears the
    selection, closes both panels, makes the actor of every registered
    bundle visible, resets the bundle that was selected, if it is
    registered, to the infinite threshold, and leaves the keys, the
    registry, the remembered background state and the streamlines of
    every bundle as they were. *)
Theorem select_None_shows_all (s : t) :
  exists s',
    select None s = Ok tt s' /\
    selected_bundle s' = None /\
    like_dislike_panel s' = false /\
    clustering_panel s' = false /\
    keys s' = keys s /\ bundles s' = bundles s /\
    last_bundles_visibility_state s' = last_bundles_visibility_state s /\
    (forall r, contents (heap s' !!! r) = contents (heap s !!! r)) /\
    (forall name r, bundles s !! name = Some r ->
       Bundle.actor_visible (heap s' !!! r) = true) /\
    (forall name r, selected_bundle s = Some name ->
       bundles s !! name = Some r ->
       Bundle.last_threshold (heap s' !!! r) = Some Infinity).
Proof.
  destruct (select_None_returns s) as
    (s' & Hrun & Hsel & Hp1 & Hp2 & _ & Hk & Hb & _ & _ & _ & Hl & Hc & Hv & Hlt).
  exists s'. repeat split; done.
Qed.

(** X5: [select] of a name that is not registered raises
    [KeyError] after the selection was set: the session is left with
    that name selected, the keys, the registry, the panels and the
    streamlines of the bundles as they were. *)
Theorem select_unknown_name (s : t) (name : string) :
  bundles s !! name = None ->
  exists s',
    select (Some name) s = Raise KeyError s' /\
    selected_bundle s' = Some name /\
    keys s' = keys s /\ bundles s' = bundles s /\
    like_dislike_panel s' = like_dislike_panel s /\
    clustering_panel s' = clustering_panel s /\
    (forall r, contents (heap s' !!! r) = contents (heap s !!! r)).
Proof.
  intros Hname.
  destruct (unselect_returns s) as (s1 & Hrun1 & Hs1 & Hc1 & Hv1 & Hlt1).
  exists (set_selected_bundle (Some name) s1). split.
  { unfold select, bundles_getitem. monad_unfold. rewrite Hrun1. simpl.
    rewrite Hs1. simpl. by rewrite Hname. }
  repeat split; simpl; try done; try (rewrite Hs1; done).
Qed.

(** X7: with a registered bundle selected and the
    background state "dimmed", [toggle_other_bundles_visibility] makes
    the actor of every other registered bundle invisible and remembers
    "hidden"; a second call makes them visible and remembers "dimmed"
    again. Neither call touches the selected bundle, the keys, the
    registry or the selection. *)
Theorem toggle_hides_others (s : t) (name : string) (r : ref) :
  selected_bundle s = Some name ->
  bundles s !! name = Some r ->
  last_bundles_visibility_state s = "dimmed" ->
  exists s1 s2,
    toggle_other_bundles_visibility s = Ok tt s1 /\
    last_bundles_visibility_state s1 = "hidden" /\
    (forall k r', bundles s !! k = Some r' -> r' <> r ->
       Bundle.actor_visible (heap s1 !!! r') = false) /\
    heap s1 !!! r = heap s !!! r /\
    toggle_other_bundles_visibility s1 = Ok tt s2 /\
    last_bundles_visibility_state s2 = "dimmed" /\
    (forall k r', bundles s !! k = Some r' -> r' <> r ->
       Bundle.actor_visible (heap s2 !!! r') = true) /\
    heap s2 !!! r = heap s !!! r /\
    keys s2 = keys s /\ bundles s2 = bundles s /\
    selected_bundle s2 = Some name.
Proof.
  intros Hsel Hr Hlast.
  destruct (_set_bundles_visibility_returns "hidden" None [r]
              (set_last_bundles_visibility_state "hidden" s))
    as (s1 & Hrun1 & Hs1 & Hheap1); [by right; right|].
  rewrite decide_False in Hs1 by done.
  assert (Hb1 : bundles s1 = bundles s) by (by rewrite Hs1).
  assert (Hsel1 : selected_bundle s1 = Some name) by (by rewrite Hs1).
  assert (Hl1 : last_bundles_visibility_state s1 = "hidden") by (by rewrite Hs1).
  destruct (_set_bundles_visibility_returns "dimmed" None [r]
              (set_last_bundles_visibility_state "dimmed" s1))
    as (s2 & Hrun2 & Hs2 & Hheap2); [by right; left|].
  rewrite decide_False in Hs2 by done.
  exists s1, s2.
  assert (Hvalues : forall k r', bundles s !! k = Some r' -> r' <> r ->
            forall s0, bundles s0 = bundles s ->
            r' ∈ default (bundles_values s0) None /\ r' ∉ [r]).
  { intros k r' Hk Hne s0 Hs0. split.
    - simpl. apply elem_of_bundles_values. exists k. by rewrite Hs0.
    - by intros ->%list_elem_of_singleton. }
  split.
  { unfold toggle_other_bundles_visibility, bundles_getitem. monad_unfold.
    rewrite decide_True by done. simpl. rewrite Hsel. simpl. rewrite Hr.
    exact Hrun1. }
  split; [done|]. split.
  { intros k r' Hk Hne. rewrite Hheap1.
    by rewrite decide_True by (by eapply Hvalues). }
  split.
  { rewrite Hheap1. rewrite decide_False; [done|].
    intros [_ Hn]. apply Hn. by apply list_elem_of_singleton. }
  split.
  { unfold toggle_other_bundles_visibility, bundles_getitem. monad_unfold.
    rewrite Hl1. simpl. rewrite Hsel1. simpl. rewrite Hb1, Hr.
    exact Hrun2. }
  split; [by rewrite Hs2|]. split.
  { intros k r' Hk Hne. rewrite Hheap2.
    by rewrite decide_True by (by eapply Hvalues). }
  split.
  { rewrite Hheap2. rewrite decide_False.
    - simpl. rewrite Hheap1. rewrite decide_False; [done|].
      intros [_ Hn]. apply Hn. by apply list_elem_of_singleton.
    - intros [_ Hn]. apply Hn. by apply list_elem_of_singleton. }
  repeat split; rewrite Hs2; simpl; rewrite Hs1; done.
Qed.

End Visibility.

(** ** The children of a bundle *)

Section Children.
Context `{Metric} `{Toolkit}.

Lemma bundle_of_cluster_contents b cluster col child :
  Bundle.bundle_of_cluster b cluster col = Some child ->
  rows (Bundle.streamlines b) (Cluster.indices cluster)
    = Some (Bundle.streamlines child) /\
  Bundle.centroid child = Some (Cluster.centroid cluster) /\
  Bundle.threshold_used child = Bundle.last_threshold b.
Proof.
  unfold Bundle.bundle_of_cluster. intros Hchild.
  destruct (rows _ _) as [sl|]; simplify_eq/=.
  pose proof (__init___contents _ _ _ _ _ Hchild) as Hc.
  unfold contents in Hc. by injection Hc as -> _ -> ->.
Qed.

Lemma bundle_of_cluster_None b cluster col :
  Bundle.bundle_of_cluster b cluster col = None ->
  ~ (Forall (fun i => i < length (Bundle.streamlines b))
            (Cluster.indices cluster) /\
     Cluster.indices cluster <> []).
Proof.
  intros Hnone [Hrange Hne].
  destruct (bundle_of_cluster_in_range b cluster col Hrange Hne)
    as [child Hchild].
  congruence.
Qed.

(** X10: when [get_cluster_as_bundles]
    returns, the bundle itself is unchanged, there is one child for the
    single cluster, or else one for each cluster that has a colour, and
    child [i] holds the streamlines at the positions of cluster [i], the
    centroid of that cluster and, as the threshold used, the threshold
    last given to the parent. When it raises, it raises [IndexError],
    the bundle is unchanged, and some cluster lists a position that is
    not one of the bundle's streamlines, or lists none, so that the
    constructor of its child raises. *)
Theorem get_cluster_as_bundles_children_made (b : Bundle.t)
    (cs : list Cluster.t) :
  Bundle.clusters b = Some cs ->
  (forall children b',
     Bundle.get_cluster_as_bundles b = Ok children b' ->
     b' = b /\
     length children =
       (if decide (length cs = 1) then 1
        else length cs `min` length (Bundle.clusters_colors b)) /\
     forall i child, children !! i = Some child ->
       exists cluster,
         cs !! i = Some cluster /\
         rows (Bundle.streamlines b) (Cluster.indices cluster)
           = Some (Bundle.streamlines child) /\
         Bundle.centroid child = Some (Cluster.centroid cluster) /\
         Bundle.threshold_used child = Bundle.last_threshold b) /\
  (forall e b',
     Bundle.get_cluster_as_bundles b = Raise e b' ->
     e = IndexError /\ b' = b /\
     ~ (indices_in_range b cs /\ no_empty_cluster cs)).
Proof.
  intros Hcs. unfold Bundle.get_cluster_as_bundles. run_monad. rewrite Hcs.
  destruct (decide (length cs = 1)) as [Hone|Hmany].
  - destruct cs as [|c0 [|? ?]]; simplify_eq/=.
    destruct (Bundle.bundle_of_cluster b c0 (Bundle.color b)) as [child|] eqn:Hchild.
    + split; [|done]. intros children b' [= <- <-]. split; [done|].
      split; [done|]. intros [|i] child' Hi; [|done]. simpl in Hi.
      injection Hi as <-. exists c0. split; [done|].
      by apply bundle_of_cluster_contents in Hchild.
    + split; [done|]. intros e b' [= <- <-]. split; [done|]. split; [done|].
      intros [Hrange Hfull]. apply Forall_cons in Hrange as [Hc0 _].
      apply Forall_cons in Hfull as [Hn0 _].
      apply bundle_of_cluster_None in Hchild. by apply Hchild.
  - destruct (mapM _ (zip cs (Bundle.clusters_colors b))) as [l|] eqn:Hl.
    + split; [|done]. intros children b' [= <- <-]. split; [done|].
      apply mapM_Some in Hl. split.
      * apply Forall2_length in Hl. by rewrite <- Hl, length_zip.
      * intros i child Hi.
        destruct (Forall2_lookup_r _ _ _ _ _ Hl Hi) as ([c col] & Hzip & Hchild).
        apply lookup_zip_Some in Hzip as [Hc _]. exists c. split; [done|].
        by apply bundle_of_cluster_contents in Hchild.
    + split; [done|]. intros e b' [= <- <-]. split; [done|]. split; [done|].
      intros [Hrange Hfull]. apply eq_None_not_Some in Hl. apply Hl.
      apply mapM_is_Some. apply Forall_forall. intros [c col] Hin.
      apply elem_of_zip_l in Hin.
      unfold indices_in_range in Hrange. rewrite Forall_forall in Hrange.
      unfold no_empty_cluster in Hfull. rewrite Forall_forall in Hfull.
      apply bundle_of_cluster_in_range; [by apply Hrange | by apply Hfull].
Qed.

End Children.

(** ** Selecting a bundle, and the slider *)

Section Select_bundle.
Context `{Metric} `{Toolkit}.
Import StreamlinesVizu.

Lemma _cluster_actor_visible threshold b :
  Bundle.actor_visible (state_of (Bundle._cluster threshold b))
    = Bundle.actor_visible b.
Proof. unfold Bundle._cluster. run_monad. by case_decide. Qed.

Lemma update_actor_visible b :
  Bundle.actor_visible (state_of (Bundle.update b)) = Bundle.actor_visible b.
Proof.
  unfold Bundle.update. run_monad.
  destruct (Bundle.has_changed b); simpl; [|done].
  by destruct (Bundle.clusters b).
Qed.

Lemma preview_actor_visible threshold b :
  Bundle.actor_visible (state_of (Bundle.preview threshold b))
    = Bundle.actor_visible b.
Proof.
  pose proof (_cluster_actor_visible threshold b) as Hc.
  destruct (_cluster_returns threshold b) as (b1 & Hrun1 & _ & _ & Hcl & _).
  rewrite Hrun1 in Hc. simpl in Hc.
  pose proof (update_actor_visible b1) as Hu.
  destruct (update_returns b1) as (b2 & Hrun2 & _ & _ & Hcl2 & _);
    [by rewrite Hcl|].
  rewrite Hrun2 in Hu. simpl in Hu.
  unfold Bundle.preview. monad_unfold. rewrite Hrun1, Hrun2. simpl.
  rewrite Hcl2, Hcl. simpl. congruence.
Qed.

(** [select(name)] of a registered name. *)
Lemma select_Some_returns (s : t) (name : string) (r : ref) :
  bundles s !! name = Some r ->
  last_bundles_visibility_state s = "dimmed" \/
  last_bundles_visibility_state s = "hidden" ->
  exists s',
    select (Some name) s = Ok tt s' /\
    selected_bundle s' = Some name /\
    like_dislike_panel s' = true /\ clustering_panel s' = true /\
    keys s' = keys s /\ bundles s' = bundles s /\
    last_threshold s' = last_threshold s /\
    last_bundles_visibility_state s' = last_bundles_visibility_state s /\
    (forall r', contents (heap s' !!! r') = contents (heap s !!! r')) /\
    Bundle.last_threshold (heap s' !!! r) =
      Some (slider_value (default_clustering_threshold s)
                         (Bundle.streamlines (heap s !!! r))) /\
    Bundle.clusters (heap s' !!! r) =
      Some (QuickBundles.cluster
              (slider_value (default_clustering_threshold s)
                            (Bundle.streamlines (heap s !!! r)))
              (Bundle.streamlines (heap s !!! r))) /\
    Bundle.actor_visible (heap s' !!! r) = true /\
    (forall k r', bundles s !! k = Some r' -> r' <> r ->
       Bundle.actor_visible (heap s' !!! r') =
         bool_decide (last_bundles_visibility_state s = "dimmed")) /\
    (forall k r', selected_bundle s = Some k -> bundles s !! k = Some r' ->
       r' <> r -> Bundle.last_threshold (heap s' !!! r') = Some Infinity).
Proof.
  intros Hr Hlast.
  destruct (unselect_returns s) as (s1 & Hrun1 & Hs1 & Hc1 & Hv1 & Hlt1).
  set (s2 := set_selected_bundle (Some name) s1).
  set (value := slider_value (default_clustering_threshold s)
                             (Bundle.streamlines (heap s2 !!! r))).
  set (s3 := set_like_dislike_panel true (set_clustering_panel true s2)).
  destruct (_set_bundles_visibility_returns "visible" (Some [r]) [] s3)
    as (s4 & Hrun4 & Hs4 & Hheap4); [by left|].
  rewrite decide_True in Hs4 by done.
  assert (Hl4 : last_bundles_visibility_state s4 =
                last_bundles_visibility_state s).
  { rewrite Hs4. unfold s3, s2. simpl. by rewrite Hs1. }
  destruct (_set_bundles_visibility_returns
              (last_bundles_visibility_state s4) None [r] s4)
    as (s5 & Hrun5 & Hs5 & Hheap5);
    [rewrite Hl4; destruct Hlast; auto|].
  rewrite decide_False in Hs5
    by (rewrite Hl4; destruct Hlast as [-> | ->]; done).
  destruct (preview_returns value (heap s5 !!! r))
    as (b' & Hprev & Hcont & _ & Hcl & Hlt & _).
  pose proof (preview_actor_visible value (heap s5 !!! r)) as Hvis.
  rewrite Hprev in Hvis. simpl in Hvis.
  assert (Hb2 : bundles s2 = bundles s) by (unfold s2; simpl; by rewrite Hs1).
  assert (Hb4 : bundles s4 = bundles s)
    by (rewrite Hs4; unfold s3; simpl; exact Hb2).
  assert (Hh4r : heap s4 !!! r = Bundle.set_actor_visible true (heap s1 !!! r)).
  { rewrite Hheap4. rewrite decide_True; [done|].
    split; [apply list_elem_of_here|apply not_elem_of_nil]. }
  assert (Hh5r : heap s5 !!! r = heap s4 !!! r).
  { rewrite Hheap5. rewrite decide_False; [done|].
    intros [_ Hn]. apply Hn. apply list_elem_of_here. }
  assert (Hstream : Bundle.streamlines (heap s2 !!! r) =
                    Bundle.streamlines (heap s !!! r)).
  { specialize (Hc1 r). unfold contents in Hc1. unfold s2. simpl. congruence. }
  exists (set_heap (<[r := b']> (heap s5)) s5).
  split.
  { unfold select, bundles_getitem. monad_unfold. rewrite Hrun1.
    assert (Hb1 : bundles s1 = bundles s) by (by rewrite Hs1).
    unfold value, slider_value, s3, s2 in *.
    change (bundles (set_selected_bundle (Some name) s1)) with (bundles s1).
    rewrite Hb1. cbn [option_bind]. rewrite Hr. cbv beta iota.
    rewrite Hrun4. rewrite Hrun5.
    unfold on_bundle.
    destruct (default_clustering_threshold s); by rewrite Hprev. }
  assert (Hfields : forall {A} (f : t -> A),
            (forall h x, f (set_heap h x) = f x) ->
            (forall l x, f (set_last_bundles_visibility_state l x) = f x) ->
            f s5 = f s3).
  { intros A f Hfh Hfl. by rewrite Hs5, Hfh, Hfl, Hs4, Hfh, Hfl. }
  repeat split; simpl.
  - by rewrite (Hfields _ selected_bundle).
  - by rewrite (Hfields _ like_dislike_panel).
  - by rewrite (Hfields _ clustering_panel).
  - rewrite (Hfields _ keys) by done. unfold s3, s2. simpl. by rewrite Hs1.
  - rewrite (Hfields _ bundles) by done. exact Hb2.
  - rewrite (Hfields _ last_threshold) by done. unfold s3, s2. simpl.
    by rewrite Hs1.
  - rewrite Hs5. simpl. exact Hl4.
  - intros r'. rewrite <- Hc1.
    assert (H5 : contents (heap s5 !!! r') = contents (heap s1 !!! r')).
    { rewrite Hheap5, Hheap4. by repeat (destruct (decide (_ /\ _))). }
    destruct (decide (r = r')) as [<-|Hne].
    + rewrite lookup_total_insert_eq. by rewrite Hcont.
    + by rewrite lookup_total_insert_ne.
  - rewrite lookup_total_insert_eq, Hlt. unfold value. by rewrite Hstream.
  - rewrite lookup_total_insert_eq, Hcl. unfold value.
    rewrite Hstream. f_equal. f_equal.
    rewrite Hh5r, Hh4r. simpl.
    specialize (Hc1 r). unfold contents in Hc1. congruence.
  - rewrite lookup_total_insert_eq, Hvis, Hh5r, Hh4r. done.
  - intros k r' Hk Hne. rewrite lookup_total_insert_ne by done.
    rewrite Hheap5. rewrite decide_True.
    + simpl. rewrite Hl4.
      destruct Hlast as [-> | ->]; done.
    + split; [|by intros ->%list_elem_of_singleton].
      simpl. apply elem_of_bundles_values. exists k. by rewrite Hb4.
  - intros k r' Hk Hr' Hne. rewrite lookup_total_insert_ne by done.
    rewrite Hheap5, Hheap4.
    rewrite (decide_False (P := r' ∈ default _ (Some [r]) /\ _)).
    2: { intros [Hin _]. simpl in Hin. by apply list_elem_of_singleton in Hin. }
    destruct (decide (_ /\ _)); simpl; by eapply Hlt1.
Qed.

(** X6: [select] of a registered name, the remembered
    background state being "dimmed" or "hidden", returns with that name
    selected and both panels open; the bundle is visible and clustered
    at the value the slider then has, every other registered bundle is
    visible exactly when the background state is "dimmed", and the
    bundle selected before, if it is another registered one, is reset to
    the infinite threshold. The keys and the registry do not change. *)
Theorem select_shows_bundle (s : t) (name : string) (r : ref) :
  bundles s !! name = Some r ->
  last_bundles_visibility_state s = "dimmed" \/
  last_bundles_visibility_state s = "hidden" ->
  exists s',
    select (Some name) s = Ok tt s' /\
    selected_bundle s' = Some name /\
    like_dislike_panel s' = true /\ clustering_panel s' = true /\
    keys s' = keys s /\ bundles s' = bundles s /\
    Bundle.last_threshold (heap s' !!! r) =
      Some (slider_value (default_clustering_threshold s)
                         (Bundle.streamlines (heap s !!! r))) /\
    Bundle.clusters (heap s' !!! r) =
      Some (QuickBundles.cluster
              (slider_value (default_clustering_threshold s)
                            (Bundle.streamlines (heap s !!! r)))
              (Bundle.streamlines (heap s !!! r))) /\
    Bundle.actor_visible (heap s' !!! r) = true /\
    (forall k r', bundles s !! k = Some r' -> r' <> r ->
       Bundle.actor_visible (heap s' !!! r') =
         bool_decide (last_bundles_visibility_state s = "dimmed")) /\
    (forall k r', selected_bundle s = Some k -> bundles s !! k = Some r' ->
       r' <> r -> Bundle.last_threshold (heap s' !!! r') = Some Infinity).
Proof.
  intros Hr Hlast.
  destruct (select_Some_returns s name r Hr Hlast) as
    (s' & Hrun & Hsel & Hp1 & Hp2 & Hk & Hb & _ & _ & _ & Hlt & Hcl & Hv & Ho & Hprev).
  exists s'. repeat split; done.
Qed.

Lemma Threshold_neqb_refl threshold : Threshold_neqb threshold threshold = false.
Proof.
  destruct threshold as [q|]; simpl; [|done].
  by rewrite (proj2 (Qeq_bool_iff q q) (Qeq_refl q)).
Qed.

(** [disk_move_callback] at the threshold the session remembers. *)
Lemma disk_move_callback_same threshold s :
  last_threshold s = Some threshold ->
  disk_move_callback threshold s = Ok tt s.
Proof.
  intros Hlt. unfold disk_move_callback. monad_unfold.
  by rewrite Hlt, Threshold_neqb_refl.
Qed.

(** [disk_move_callback] at another threshold, with a registered bundle
    selected. *)
Lemma disk_move_callback_returns threshold s name r :
  selected_bundle s = Some name ->
  bundles s !! name = Some r ->
  match last_threshold s with
  | None => true
  | Some t0 => Threshold_neqb t0 threshold
  end = true ->
  exists b',
    disk_move_callback threshold s =
      Ok tt (set_last_threshold (Some threshold)
               (set_heap (<[r := b']> (heap s)) s)) /\
    contents b' = contents (heap s !!! r) /\
    Bundle.clusters b' =
      Some (QuickBundles.cluster threshold (Bundle.streamlines (heap s !!! r))) /\
    Bundle.last_threshold b' = Some threshold.
Proof.
  intros Hsel Hr Hchanged.
  destruct (preview_returns threshold (heap s !!! r))
    as (b' & Hprev & Hcont & _ & Hcl & Hlt & _).
  exists b'. split; [|done].
  unfold disk_move_callback, bundles_getitem. monad_unfold.
  rewrite Hchanged, Hsel. cbn [option_bind]. rewrite Hr. cbv beta iota.
  unfold on_bundle. by rewrite Hprev.
Qed.

(** X8: moving the slider to a threshold other
    than the remembered one clusters the selected bundle at it and
    remembers it, so that a second move to the same threshold leaves the
    session as it is. [select] does not change what is remembered: it
    clusters the bundle it selects at the value it gives the slider, and
    a move of the slider to the remembered threshold after that leaves
    the session as it is, the newly selected bundle included. *)
Theorem slider_remembers_threshold (s : t) (name other : string)
    (r r' : ref) (threshold : Threshold) :
  selected_bundle s = Some name ->
  bundles s !! name = Some r ->
  bundles s !! other = Some r' ->
  last_bundles_visibility_state s = "dimmed" \/
  last_bundles_visibility_state s = "hidden" ->
  match last_threshold s with
  | None => true
  | Some t0 => Threshold_neqb t0 threshold
  end = true ->
  exists s1 s2,
    disk_move_callback threshold s = Ok tt s1 /\
    last_threshold s1 = Some threshold /\
    Bundle.last_threshold (heap s1 !!! r) = Some threshold /\
    Bundle.clusters (heap s1 !!! r) =
      Some (QuickBundles.cluster threshold
              (Bundle.streamlines (heap s !!! r))) /\
    disk_move_callback threshold s1 = Ok tt s1 /\
    select (Some other) s1 = Ok tt s2 /\
    last_threshold s2 = Some threshold /\
    Bundle.last_threshold (heap s2 !!! r') =
      Some (slider_value (default_clustering_threshold s)
                         (Bundle.streamlines (heap s !!! r'))) /\
    disk_move_callback threshold s2 = Ok tt s2.
Proof.
  intros Hsel Hr Hr' Hlast Hchanged.
  destruct (disk_move_callback_returns threshold s name r Hsel Hr Hchanged)
    as (b' & Hrun1 & Hcont & Hcl & Hlt).
  set (s1 := set_last_threshold (Some threshold)
               (set_heap (<[r := b']> (heap s)) s)) in *.
  destruct (select_Some_returns s1 other r') as
    (s2 & Hrun2 & _ & _ & _ & _ & _ & Hlt2 & _ & _ & Hprev2 & _);
    [done..|].
  exists s1, s2. split; [done|]. split; [done|].
  split; [by unfold s1; simpl; rewrite lookup_total_insert_eq|].
  split; [by unfold s1; simpl; rewrite lookup_total_insert_eq|].
  split; [by apply disk_move_callback_same|].
  split; [done|]. split; [by rewrite Hlt2|].
  split; [|apply disk_move_callback_same; by rewrite Hlt2].
  assert (Hstream : Bundle.streamlines (heap s1 !!! r') =
                    Bundle.streamlines (heap s !!! r')).
  { unfold s1. simpl. destruct (decide (r = r')) as [<-|Hne].
    - rewrite lookup_total_insert_eq. unfold contents in Hcont. congruence.
    - by rewrite lookup_total_insert_ne. }
  by rewrite Hprev2, Hstream.
Qed.

End Select_bundle.

(** ** The apply button *)

Section Apply.
Context `{Metric} `{Toolkit}.
Import StreamlinesVizu.

(** [add_bundle] written out. *)
Lemma add_bundle_state name r s :
  add_bundle name r s =
    Ok tt (set_bundles (<[name := r]> (bundles s))
             (set_heap (<[r := heap s !!! r]> (heap s))
                (set_keys (sorted (keys s ++ [name])) s))).
Proof. reflexivity. Qed.

(** The loop of [apply_button_callback]: child [j] is a new bundle
    object, registered under the name of the parent followed by its
    number; no other name changes its bundle, and no older bundle
    object changes. *)
Lemma add_children_registers parent children : forall i s,
  exists s',
    add_children parent i children s = Ok tt s' /\
    next_ref s' = next_ref s + length children /\
    inliers s' = inliers s /\ outliers s' = outliers s /\
    selected_bundle s' = selected_bundle s /\
    (forall j child, children !! j = Some child ->
       bundles s' !! child_name parent (i + j) = Some (next_ref s + j) /\
       heap s' !!! (next_ref s + j) = child) /\
    (forall k, k ∉ (child_name parent <$> seq i (length children)) ->
       bundles s' !! k = bundles s !! k) /\
    (forall r, r < next_ref s -> heap s' !!! r = heap s !!! r).
Proof.
  induction children as [|child children IH]; intros i s.
  - exists s. simpl. rewrite Nat.add_0_r. repeat split; try done.
    all: intros j child Hj; by rewrite lookup_nil in Hj.
  - set (sn := set_next_ref (S (next_ref s))
                 (set_heap (<[next_ref s := child]> (heap s)) s)).
    set (sa := set_bundles (<[child_name parent i := next_ref s]> (bundles sn))
                 (set_heap (<[next_ref s := heap sn !!! next_ref s]> (heap sn))
                    (set_keys (sorted (keys sn ++ [child_name parent i])) sn))).
    destruct (IH (S i) sa)
      as (s' & Hrun & Hnext & Hi & Ho & Hsel & Hchildren & Hothers & Hheap).
    exists s'. split.
    { change (add_children parent i (child :: children) s)
        with (match add_bundle (child_name parent i) (next_ref s) sn with
              | Ok _ s2 => add_children parent (S i) children s2
              | Raise e s2 => Raise e s2
              end).
      by rewrite add_bundle_state. }
    split; [rewrite Hnext; simpl; lia|].
    split; [by rewrite Hi|]. split; [by rewrite Ho|]. split; [by rewrite Hsel|].
    split; [|split].
    + intros [|j] c Hj; simpl in Hj.
      * injection Hj as ->. rewrite !Nat.add_0_r. split.
        -- rewrite Hothers.
           ++ simpl. by rewrite lookup_insert_eq.
           ++ intros (j & Heq & Hin)%list_elem_of_fmap.
              apply (child_name_inj parent) in Heq. subst j.
              apply elem_of_seq in Hin. lia.
        -- rewrite Hheap by (simpl; lia). simpl.
           by rewrite lookup_total_insert_eq, lookup_total_insert_eq.
      * destruct (Hchildren j c Hj) as [Hb Hh]. simpl in Hb, Hh.
        replace (i + S j) with (S i + j) by lia.
        replace (next_ref s + S j) with (S (next_ref s) + j) by lia.
        done.
    + intros k Hk. rewrite Hothers.
      * simpl. rewrite lookup_insert_ne; [done|].
        intros <-. apply Hk. simpl. apply list_elem_of_here.
      * intros Hin. apply Hk. simpl. by apply list_elem_of_further.
    + intros r Hr. rewrite Hheap by (simpl; lia). simpl.
      by rewrite !lookup_total_insert_ne by lia.
Qed.

(** X9: in a consistent session with a registered
    bundle selected whose [get_cluster_as_bundles] returns, the apply
    button clears the selection and replaces the bundle in the registry
    by its children: child [i] is registered under the name of the
    parent followed by [i] and a slash and is made of the streamlines,
    colour, centroid and threshold [get_cluster_as_bundles] gave it,
    every other name keeps its bundle, and the key list stays
    consistent. Nothing is put in the undo memory, and the inliers and
    outliers are untouched. *)
Theorem apply_replaces_parent (s : t) (parent : string) (r : ref)
    (children : list Bundle.t) (b : Bundle.t) :
  session_consistent s ->
  selected_bundle s = Some parent ->
  bundles s !! parent = Some r ->
  Bundle.get_cluster_as_bundles (heap s !!! r) = Ok children b ->
  exists s',
    apply_button_callback s = Ok tt s' /\
    selected_bundle s' = None /\
    registry_consistent s' /\
    (forall k, k ∈ keys s' <->
       (k ∈ keys s /\ k <> parent) \/
       (exists i, i < length children /\ k = child_name parent i)) /\
    (forall i child, children !! i = Some child ->
       exists ri, bundles s' !! child_name parent i = Some ri /\
                  contents (heap s' !!! ri) = contents child) /\
    (forall k, k ∈ keys s -> k <> parent -> bundles s' !! k = bundles s !! k) /\
    bundles s' !! parent = None /\
    undo_memory s' = undo_memory s /\
    inliers s' = inliers s /\ outliers s' = outliers s.
Proof.
  intros ([Hcons Hlast] & Hnames & Hrefs) Hsel Hr Hget.
  assert (Hb : b = heap s !!! r).
  { pose proof (get_cluster_as_bundles_pure (heap s !!! r)) as Hpure.
    by rewrite Hget in Hpure. }
  subst b.
  set (s0 := set_heap (<[r := heap s !!! r]> (heap s)) s).
  assert (Hin : parent ∈ keys s) by (apply Hcons; eauto).
  destruct (remove_elem_of _ _ Hin) as [rest Hrest].
  apply remove_Some in Hrest.
  assert (Hnd : NoDup (keys s0 ++
                       (child_name parent <$> seq 0 (length children)))).
  { assert (Hsplit : names_apart
              ((child_name parent <$> seq 0 (length children)) ++
               rest ++ (bundle_name <$> items (undo_memory s)))).
    { apply names_apart_children.
      eapply names_apart_Permutation; [|exact Hnames].
      unfold known_names. by rewrite Hrest. }
    simpl. rewrite Hrest. destruct Hnames as [Hnd _].
    unfold known_names in Hnd. rewrite Hrest in Hnd.
    apply NoDup_app in Hnd as [Hnd _]. destruct Hsplit as [Hnd' _].
    rewrite app_assoc in Hnd'. apply NoDup_app in Hnd' as [Hnd' _].
    apply NoDup_cons in Hnd as [Hp Hnd].
    rewrite (Permutation_app_comm _ rest) in Hnd'.
    simpl. apply NoDup_cons. split; [|done].
    rewrite elem_of_app. intros [?|Hc]; [done|].
    apply list_elem_of_fmap in Hc as (j & Hj & _).
    by apply (child_name_longer parent j). }
  destruct (add_children_returns parent children 0 s0)
    as (s1 & Hrun1 & Hcons1 & Hk1 & Hu1 & Hl1 & _ & _); [done|done|].
  destruct (add_children_registers parent children 0 s0)
    as (s1' & Hrun1' & _ & Hi1 & Ho1 & _ & Hchildren & Hothers & _).
  assert (s1' = s1) as -> by congruence.
  assert (Hparent : parent ∉ (child_name parent <$> seq 0 (length children))).
  { intros (j & Hj & _)%list_elem_of_fmap. by apply (child_name_longer parent j). }
  assert (Hr1 : bundles s1 !! parent = Some r) by (by rewrite Hothers).
  assert (Hin1 : parent ∈ keys s1) by (rewrite Hk1, elem_of_app; by left).
  destruct (remove_elem_of _ _ Hin1) as [keys' Hrem].
  destruct (remove_bundle_returns s1 parent r keys' Hrem Hr1)
    as (s2 & Hrun2 & Hk2 & Hb2 & Hout).
  destruct Hout as (Hi2 & Ho2 & Hu2 & _ & _ & _ & Hh2).
  destruct (select_None_returns s2) as
    (s' & Hrun3 & Hsel3 & _ & _ & _ & Hk3 & Hb3 & Hi3 & Ho3 & Hu3 & _ & Hh3 & _).
  assert (Hcons2 : registry_consistent s2)
    by (by eapply registry_consistent_remove).
  assert (Hkeys : forall k, k ∈ keys s' <->
            (k ∈ keys s /\ k <> parent) \/
            (exists i, i < length children /\ k = child_name parent i)).
  { intros k. rewrite Hk3, Hk2, sorted_Permutation.
    pose proof (remove_Some _ _ _ Hrem) as Hperm1.
    assert (Hnd1 : NoDup (parent :: keys'))
      by (rewrite <- Hperm1; apply Hcons1).
    apply NoDup_cons in Hnd1 as [Hpk _].
    assert (Hk' : k ∈ keys' <-> k ∈ keys s1 /\ k <> parent).
    { rewrite Hperm1, elem_of_cons. split.
      - intros Hk. split; [by right|]. by intros ->.
      - intros [[->|?] ?]; done. }
    rewrite Hk', Hk1, elem_of_app. simpl.
    rewrite list_elem_of_fmap. split.
    - intros [[?|(i & -> & Hi)] Hne]; [by left|right].
      exists i. split; [|done]. apply elem_of_seq in Hi. lia.
    - intros [[? ?]|(i & Hi & ->)]; [by split; [left|]|].
      split; [|apply child_name_longer].
      right. exists i. split; [done|]. apply elem_of_seq. lia. }
  exists s'. split.
  { unfold apply_button_callback, bundles_getitem. run_monad.
    rewrite Hsel. simpl. rewrite Hr. simpl. unfold on_bundle at 1.
    rewrite Hget. fold s0.
    change (match add_children parent 0 children s0 with
            | Ok _ sa => match remove_bundle parent sa with
                         | Ok _ sb => select None sb
                         | Raise e sb => Raise e sb
                         end
            | Raise e sa => Raise e sa
            end = Ok tt s').
    by rewrite Hrun1, Hrun2. }
  split; [done|]. split.
  { unfold registry_consistent. rewrite Hk3, Hb3. exact Hcons2. }
  split; [exact Hkeys|]. split.
  { intros i child Hi. destruct (Hchildren i child Hi) as [Hbi Hhi].
    simpl in Hbi. change (next_ref s0) with (next_ref s) in Hhi.
    exists (next_ref s + i). split.
    - rewrite Hb3, Hb2, lookup_delete_ne; [done|].
      intros Heq. by apply (child_name_longer parent i).
    - rewrite Hh3, Hh2. exact (f_equal contents Hhi). }
  split.
  { intros k Hk Hne. rewrite Hb3, Hb2, lookup_delete_ne by done.
    rewrite Hothers; [done|].
    intros Hc. apply NoDup_app in Hnd as (_ & Hnin & _). by apply (Hnin k). }
  split; [by rewrite Hb3, Hb2, lookup_delete_eq|].
  split; [by rewrite Hu3, Hu2, Hu1|].
  split; [by rewrite Hi3, Hi2, Hi1|by rewrite Ho3, Ho2, Ho1].
Qed.

End Apply.

(** ** Wrapping the text of a text box *)

Section Wrap.
Import ui.TextBox2D.

Lemma rstrip_snoc (c : ascii) (x : str) : rstrip c (x ++ [c]) = rstrip c x.
Proof.
  induction x as [|a x IH]; simpl.
  - by rewrite decide_True.
  - by rewrite IH.
Qed.

Lemma rstrip_last (c : ascii) (x : str) :
  last x <> Some c -> rstrip c x = x.
Proof.
  induction x as [|a x IH]; intros Hlast; simpl; [done|].
  destruct x as [|a' x].
  - simpl in *. rewrite decide_False; [done|]. intros ->. by apply Hlast.
  - rewrite IH by done. done.
Qed.

Lemma filter_not_newline (x : list ascii) :
  newline ∉ x -> filter (fun c => c <> newline) x = x.
Proof.
  induction x as [|a x IH]; intros Hx; [done|].
  apply not_elem_of_cons in Hx as [Ha Hx].
  rewrite filter_cons_True by (by intros ->). by rewrite IH.
Qed.

(** The loop over characters after which no newline is due. *)
Lemma width_set_text_loop_prefix (w : Z) (pre : str) : forall i rest acc,
  w <> 0%Z ->
  (forall j, j < length pre -> ((i + Z.of_nat j + 1) mod w <> 0)%Z) ->
  width_set_text_loop w i (pre ++ rest) acc =
  width_set_text_loop w (i + len pre) rest (acc ++ pre).
Proof.
  induction pre as [|c pre IH]; intros i rest acc Hw Hpre.
  - unfold len. simpl. by rewrite Z.add_0_r, app_nil_r.
  - simpl. rewrite decide_False by done.
    rewrite decide_False.
    2: { specialize (Hpre 0 ltac:(simpl; lia)). by rewrite Z.add_0_r in Hpre. }
    rewrite IH; [|done|].
    + unfold len. simpl length. rewrite <- app_assoc. simpl.
      f_equal. lia.
    + intros j Hj. specialize (Hpre (S j) ltac:(simpl; lia)).
      replace (i + 1 + Z.of_nat j + 1)%Z with (i + Z.of_nat (S j) + 1)%Z by lia.
      done.
Qed.

(** The text wrapped from the start of a line on, before the trailing
    newline is stripped. *)
Lemma width_set_text_loop_wraps (w : nat) (n : nat) : forall text i acc,
  0 < w -> length text <= n ->
  (i mod Z.of_nat w = 0)%Z ->
  newline ∉ text ->
  exists R,
    width_set_text_loop (Z.of_nat w) i text acc = Some (acc ++ R) /\
    filter (fun c => c <> newline) R = text /\
    (forall k c, R !! k = Some c ->
       (c = newline <-> ((Z.of_nat k + 1) mod (Z.of_nat w + 1) = 0)%Z)) /\
    (text <> [] -> R <> []).
Proof.
  induction n as [|n IH]; intros text i acc Hw Hn Hi Htext.
  { destruct text; [|simpl in Hn; lia]. exists []. simpl.
    rewrite app_nil_r. repeat split; done. }
  destruct (decide (length text < w)) as [Hshort|Hlong].
  - exists text. split; [|split; [|split; [|done]]].
    + pose proof (width_set_text_loop_prefix (Z.of_nat w) text i [] acc) as Hp.
      rewrite app_nil_r in Hp. rewrite Hp; [done|lia|].
      intros j Hj. rewrite <- Z.add_assoc, Z.add_mod, Hi by lia.
      rewrite Z.add_0_l, Z.mod_mod by lia. rewrite Z.mod_small; lia.
    + by apply filter_not_newline.
    + intros k c Hk. split.
      * intros ->. exfalso. apply Htext. by eapply list_elem_of_lookup_2.
      * intros Hmod. exfalso. apply lookup_lt_Some in Hk.
        rewrite Z.mod_small in Hmod; lia.
  - set (pre := take (w - 1) text).
    destruct (drop (w - 1) text) as [|c rest] eqn:Hdrop.
    { apply (f_equal length) in Hdrop. rewrite length_drop in Hdrop.
      simpl in Hdrop. lia. }
    assert (Hsplit : text = pre ++ c :: rest).
    { unfold pre. by rewrite <- Hdrop, take_drop. }
    assert (Hlenpre : length pre = w - 1).
    { unfold pre. rewrite length_take. lia. }
    assert (Hrest : length rest <= n).
    { apply (f_equal length) in Hsplit. rewrite length_app in Hsplit.
      simpl in Hsplit. lia. }
    assert (Hnl : (newline ∉ pre) /\ c <> newline /\ (newline ∉ rest)).
    { rewrite Hsplit in Htext.
      rewrite not_elem_of_app, not_elem_of_cons in Htext.
      destruct Htext as (? & ? & ?). done. }
    destruct Hnl as (Hpre & Hc & Hrest').
    destruct (IH rest (i + Z.of_nat w)%Z (acc ++ pre ++ [c; newline]))
      as (R & Hrun & Hfilter & Hpos & _); [done|done| |done|].
    { rewrite Z.add_mod, Hi, Z_mod_same_full by lia. done. }
    exists (pre ++ [c; newline] ++ R).
    split; [|split; [|split]].
    + rewrite Hsplit. rewrite width_set_text_loop_prefix; [|lia|].
      2: { intros j Hj. rewrite <- Z.add_assoc, Z.add_mod, Hi by lia.
           rewrite Z.add_0_l, Z.mod_mod by lia. rewrite Z.mod_small; lia. }
      simpl. rewrite decide_False by lia.
      rewrite decide_True.
      2: { unfold len. rewrite Hlenpre.
           replace (i + Z.of_nat (w - 1) + 1)%Z with (i + Z.of_nat w)%Z by lia.
           rewrite Z.add_mod, Hi, Z_mod_same_full by lia. done. }
      unfold len. rewrite Hlenpre.
      replace (i + Z.of_nat (w - 1) + 1)%Z with (i + Z.of_nat w)%Z by lia.
      rewrite <- !app_assoc. simpl. rewrite <- !app_assoc in Hrun. exact Hrun.
    + rewrite !filter_app. simpl. rewrite Hfilter, Hsplit.
      rewrite (filter_not_newline pre) by done.
      rewrite filter_cons_True by done.
      rewrite filter_cons_False by (intros Hne; by apply Hne).
      by rewrite filter_nil.
    + intros k x Hk.
      destruct (decide (k < w - 1)) as [Hlt|Hge].
      * rewrite lookup_app_l in Hk by lia. split.
        -- intros ->. exfalso. apply Hpre. by eapply list_elem_of_lookup_2.
        -- intros Hmod. exfalso. rewrite Z.mod_small in Hmod; lia.
      * rewrite lookup_app_r in Hk by lia. rewrite Hlenpre in Hk.
        destruct (k - (w - 1)) as [|[|k']] eqn:Hk'; simpl in Hk.
        -- injection Hk as <-. split; [done|].
           intros Hmod. exfalso. rewrite Z.mod_small in Hmod; lia.
        -- injection Hk as <-. split; [|done]. intros _.
           replace (Z.of_nat k + 1)%Z with (Z.of_nat w + 1)%Z by lia.
           apply Z_mod_same_full.
        -- rewrite (Hpos k' x Hk).
           replace (Z.of_nat k + 1)%Z
             with (Z.of_nat k' + 1 + 1 * (Z.of_nat w + 1))%Z by lia.
           by rewrite Z.mod_add by lia.
    + intros _. destruct pre; done.
Qed.

(** X17: [width_set_text] of a non-empty text raises
    [ZeroDivisionError] in a box of width 0. In a box of a positive
    width [w] it returns, for a text without newlines, that text with
    newlines put in: taking the newlines out gives the text back, the
    character at position [k] is a newline exactly when [k + 1] is a
    multiple of [w + 1], so every line but the last has [w] characters
    and the last has at most [w], and the result does not end in a
    newline. *)
Theorem width_set_text_wraps (b : t) (text0 : str) :
  (width b = 0%Z -> text0 <> [] -> width_set_text text0 b = None) /\
  ((0 < width b)%Z -> newline ∉ text0 ->
   exists r,
     width_set_text text0 b = Some r /\
     filter (fun c => c <> newline) r = text0 /\
     (forall k c, r !! k = Some c ->
        (c = newline <-> ((Z.of_nat k + 1) mod (width b + 1) = 0)%Z)) /\
     last r <> Some newline).
Proof.
  split.
  - intros Hw Htext. unfold width_set_text. rewrite Hw.
    destruct text0; [done|]. simpl. first [done | by rewrite decide_True].
  - intros Hw Htext. unfold width_set_text.
    destruct (width_set_text_loop_wraps (Z.to_nat (width b)) (length text0)
                text0 0 []) as (R & Hrun & Hfilter & Hpos & _);
      [lia|done|done|done|].
    rewrite Z2Nat.id in Hrun, Hpos by lia. rewrite Hrun. simpl.
    destruct (decide (last R = Some newline)) as [Hlast|Hlast].
    + apply last_Some in Hlast as [R0 ->].
      assert (Hlast0 : last R0 <> Some newline).
      { intros [R1 ->]%last_Some.
        pose proof (proj1 (Hpos (length R1) newline
                     ltac:(rewrite <- app_assoc; by apply list_lookup_middle))
                     eq_refl) as H1.
        pose proof (proj1 (Hpos (S (length R1)) newline
                     ltac:(rewrite lookup_app_r by (rewrite length_app; simpl; lia);
                           rewrite length_app; simpl;
                           by replace (S (length R1) - (length R1 + 1)) with 0 by lia))
                     eq_refl) as H2.
        apply Z.mod_divide in H1, H2; try lia.
        destruct H1 as [q1 H1], H2 as [q2 H2].
        assert (Hone : (1 = (q2 - q1) * (width b + 1))%Z) by lia.
        assert (Hq : (q2 - q1 = 0 \/ q2 - q1 <> 0)%Z) by lia.
        destruct Hq as [Hq|Hq]; [rewrite Hq in Hone; lia|]. nia. }
      exists R0. rewrite rstrip_snoc, rstrip_last by done.
      split; [done|]. split; [|split; [|done]].
      * rewrite filter_app in Hfilter. simpl in Hfilter.
        rewrite filter_cons_False in Hfilter by (intros Hne; by apply Hne).
        rewrite filter_nil in Hfilter. by rewrite app_nil_r in Hfilter.
      * intros k c Hk. apply Hpos. by apply lookup_app_l_Some.
    + exists R. rewrite rstrip_last by done. done.
Qed.

End Wrap.

(** ** Switching all bundles between the two representations *)

Section Representations.
Context `{Metric} `{Toolkit}.
Import StreamlinesVizu.

(** A loop that calls two methods on each bundle object of a list. *)
Lemma for_each_on_bundle_pairs (m1 m2 : M Bundle.t unit)
    (C Q : Bundle.t -> Prop) :
  (forall b, C b ->
     exists b1 b2, m1 b = Ok tt b1 /\ m2 b1 = Ok tt b2 /\ Q b2 /\ C b2) ->
  forall bs s,
    (forall r, r ∈ bs -> C (heap s !!! r)) ->
    exists s',
      for_each bs (fun bundle => on_bundle bundle m1 ;; on_bundle bundle m2) s
        = Ok tt s' /\
      s' = set_heap (heap s') s /\
      (forall r, r ∈ bs -> Q (heap s' !!! r)) /\
      (forall r, r ∉ bs -> heap s' !!! r = heap s !!! r).
Proof.
  intros Hstep. induction bs as [|r bs IH]; intros s HC.
  - exists s. split; [done|]. split; [by destruct s|].
    split; [by intros r ?%elem_of_nil|done].
  - destruct (Hstep (heap s !!! r)) as (b1 & b2 & Hm1 & Hm2 & HQ & HC2).
    { apply HC, list_elem_of_here. }
    set (s1 := set_heap (<[r := b2]> (<[r := b1]> (heap s)))
                 (set_heap (<[r := b1]> (heap s)) s)).
    assert (Hrun1 : (on_bundle r m1 ;; on_bundle r m2) s = Ok tt s1).
    { monad_unfold. unfold on_bundle at 1. rewrite Hm1.
      unfold on_bundle. simpl. rewrite lookup_total_insert_eq. by rewrite Hm2. }
    destruct (IH s1) as (s' & Hrun & Hs' & HQ' & Hrest).
    { intros r' Hr'. unfold s1. simpl.
      destruct (decide (r' = r)) as [->|Hne].
      - by rewrite lookup_total_insert_eq.
      - rewrite !lookup_total_insert_ne by done. apply HC.
        by apply list_elem_of_further. }
    exists s'. split.
    { change (for_each (r :: bs) _ s)
        with (match (on_bundle r m1 ;; on_bundle r m2) s with
              | Ok _ s2 => for_each bs (fun bundle =>
                             on_bundle bundle m1 ;; on_bundle bundle m2) s2
              | Raise e s2 => Raise e s2
              end).
      by rewrite Hrun1. }
    split; [by rewrite Hs'|]. split.
    + intros r' Hr'. destruct (decide (r' ∈ bs)) as [Hin|Hnin]; [by apply HQ'|].
      apply elem_of_cons in Hr' as [->|?]; [|done].
      rewrite Hrest by done. unfold s1. simpl.
      by rewrite lookup_total_insert_eq.
    + intros r' Hr'. apply not_elem_of_cons in Hr' as [Hne Hnin].
      rewrite Hrest by done. unfold s1. simpl.
      by rewrite !lookup_total_insert_ne.
Qed.

(** Centroids shown and streamlines hidden, on a clustered bundle. *)
Lemma show_centroids_hide_streamlines_returns b :
  is_Some (Bundle.clusters b) ->
  exists b1 b2,
    Bundle.show_centroids b = Ok tt b1 /\
    Bundle.hide_streamlines b1 = Ok tt b2 /\
    (flags b2 = (false, true) /\ Bundle.actor_visible b2 = false /\
     Forall (fun a => Bundle.ca_visible a = true) (Bundle.centroid_actors b2)) /\
    is_Some (Bundle.clusters b2).
Proof.
  intros [cs Hcs].
  unfold Bundle.show_centroids, Bundle.hide_streamlines, Bundle.update.
  run_monad. rewrite Hcs.
  destruct (Bundle.has_changed b); simpl; eexists _, _;
    (split; [reflexivity|]); (split; [reflexivity|]); simpl;
    (split; [|by rewrite Hcs]); (split; [done|]); (split; [done|]);
    apply Forall_forall; intros a (a0 & -> & _)%list_elem_of_fmap; done.
Qed.

(** Centroids hidden and streamlines shown. *)
Lemma hide_centroids_show_streamlines_returns b :
  exists b1 b2,
    Bundle.hide_centroids b = Ok tt b1 /\
    Bundle.show_streamlines b1 = Ok tt b2 /\
    (flags b2 = (true, false) /\ Bundle.actor_visible b2 = true /\
     Forall (fun a => Bundle.ca_visible a = false) (Bundle.centroid_actors b2)) /\
    Bundle.clusters b2 = Bundle.clusters b.
Proof.
  unfold Bundle.hide_centroids, Bundle.show_streamlines. run_monad.
  eexists _, _. split; [reflexivity|]. split; [reflexivity|]. simpl.
  split; [|done]. split; [done|]. split; [done|].
  apply Forall_forall. intros a (a0 & -> & _)%list_elem_of_fmap. done.
Qed.

(** X18: with the toggle button on "streamlines" and
    every registered bundle clustered, the button's callback switches
    it to "centroids" and leaves every registered bundle with its
    centroids shown, its streamlines hidden and all its centroid actors
    visible; a second call switches back to "streamlines" with the
    streamlines shown and every centroid actor hidden. The keys, the
    registry and the selection are not touched. *)
Theorem centroids_toggle_switches (s : t) :
  centroids_toggle_button s = "streamlines" ->
  (forall k r, bundles s !! k = Some r ->
     is_Some (Bundle.clusters (heap s !!! r))) ->
  exists s1 s2,
    centroids_toggle_button_callback s = Ok tt s1 /\
    centroids_toggle_button s1 = "centroids" /\
    (forall k r, bundles s !! k = Some r ->
       flags (heap s1 !!! r) = (false, true) /\
       Bundle.actor_visible (heap s1 !!! r) = false /\
       Forall (fun a => Bundle.ca_visible a = true)
              (Bundle.centroid_actors (heap s1 !!! r))) /\
    centroids_toggle_button_callback s1 = Ok tt s2 /\
    centroids_toggle_button s2 = "streamlines" /\
    (forall k r, bundles s !! k = Some r ->
       flags (heap s2 !!! r) = (true, false) /\
       Bundle.actor_visible (heap s2 !!! r) = true /\
       Forall (fun a => Bundle.ca_visible a = false)
              (Bundle.centroid_actors (heap s2 !!! r))) /\
    keys s2 = keys s /\ bundles s2 = bundles s /\
    selected_bundle s2 = selected_bundle s.
Proof.
  intros Hbutton Hclustered.
  set (sa := set_centroids_toggle_button "centroids" s).
  destruct (for_each_on_bundle_pairs Bundle.show_centroids Bundle.hide_streamlines
              (fun b => is_Some (Bundle.clusters b))
              (fun b => flags b = (false, true) /\
                        Bundle.actor_visible b = false /\
                        Forall (fun a => Bundle.ca_visible a = true)
                               (Bundle.centroid_actors b))
              show_centroids_hide_streamlines_returns
              (bundles_values sa) sa)
    as (s1 & Hrun1 & Hs1 & HQ1 & _).
  { intros r (k & Hk)%elem_of_bundles_values. by eapply Hclustered. }
  set (sb := set_centroids_toggle_button "streamlines" s1).
  destruct (for_each_on_bundle_pairs Bundle.hide_centroids Bundle.show_streamlines
              (fun _ => True)
              (fun b => flags b = (true, false) /\
                        Bundle.actor_visible b = true /\
                        Forall (fun a => Bundle.ca_visible a = false)
                               (Bundle.centroid_actors b))
              ltac:(intros b _;
                    destruct (hide_centroids_show_streamlines_returns b)
                      as (b1 & b2 & ? & ? & ? & _);
                    by exists b1, b2)
              (bundles_values sb) sb)
    as (s2 & Hrun2 & Hs2 & HQ2 & _); [done|].
  assert (Hb1 : bundles s1 = bundles s) by (by rewrite Hs1).
  exists s1, s2. split.
  { unfold centroids_toggle_button_callback. monad_unfold.
    rewrite decide_True by done. exact Hrun1. }
  split; [by rewrite Hs1|]. split.
  { intros k r Hk. apply HQ1. apply elem_of_bundles_values. by exists k. }
  split.
  { unfold centroids_toggle_button_callback. monad_unfold.
    rewrite decide_False by (by rewrite Hs1).
    rewrite decide_True by (by rewrite Hs1). exact Hrun2. }
  split; [by rewrite Hs2|]. split.
  { intros k r Hk. apply HQ2. apply elem_of_bundles_values. exists k.
    unfold sb. simpl. by rewrite Hb1. }
  repeat split; rewrite Hs2; simpl; by rewrite Hs1.
Qed.

End Representations.

(** ** The constructor of a bundle *)

Section Constructor.
Context `{Metric} `{Toolkit}.

(** Clustering into a single cluster: the bundle keeps its colours. *)
Lemma _cluster_single threshold b c :
  QuickBundles.cluster threshold (Bundle.streamlines b) = [c] ->
  exists b',
    Bundle._cluster threshold b = Ok tt b' /\
    Bundle.clusters_colors b' =
      [Some (default (0, 0, 1)%Q (Bundle.color b))] /\
    Bundle.scalars b' = Bundle.original_colors b /\
    Bundle.original_colors b' = Bundle.original_colors b /\
    Bundle.streamlines_colors b' = Bundle.streamlines_colors b /\
    Bundle.centroid_actors b' = Bundle.centroid_actors b /\
    Bundle.actor_visible b' = Bundle.actor_visible b.
Proof.
  intros Hc. unfold Bundle._cluster. run_monad. rewrite Hc. simpl.
  eexists. split; [reflexivity|]. simpl.
  by destruct (Bundle.color b).
Qed.

(** X19: the constructor of a bundle raises on a collection without
    streamlines. On any other it returns a bundle made of the given
    streamlines, colour, centroid and threshold, its streamlines shown
    and its centroids not, clustered at an infinite threshold: one
    cluster of all positions, in the bundle's own colour or else in
    blue, no centroid actors yet, and the line actor in the colours of
    the lines. *)
Theorem Bundle_constructor (streamlines : list Streamline)
    (centroid : option Streamline) (threshold_used : option Threshold)
    (color : option Color) :
  (streamlines = [] ->
   Bundle.__init__ streamlines centroid threshold_used color = None) /\
  (streamlines <> [] ->
   exists b c,
     Bundle.__init__ streamlines centroid threshold_used color = Some b /\
     contents b = (streamlines, color, centroid, threshold_used) /\
     flags b = (true, false) /\
     Bundle.actor_visible b = true /\
     Bundle.last_threshold b = Some Infinity /\
     Bundle.has_changed b = true /\
     Bundle.clusters b = Some [c] /\
     Cluster.indices c = seq 0 (length streamlines) /\
     Bundle.clusters_colors b = [Some (default (0, 0, 1)%Q color)] /\
     Bundle.streamlines_colors b =
       replicate (length streamlines) (1, 1, 1)%Q /\
     Bundle.centroid_actors b = [] /\
     Bundle.scalars b = Bundle.original_colors b).
Proof.
  split; [by intros ->|]. intros Hne.
  destruct (Bundle__init___returns streamlines centroid threshold_used color Hne)
    as [b Hinit].
  destruct (cluster_Infinity streamlines Hne) as (c & Hc & Hidx).
  exists b, c. split; [done|].
  split; [by eapply __init___contents|].
  split; [by eapply __init___flags|].
  pose proof (__init___clustered _ _ _ _ _ Hinit) as Hcl.
  apply Bundle__init___Some in Hinit as [_ ->].
  set (b0 := Bundle.before_clustering streamlines centroid threshold_used color)
    in *.
  destruct (_cluster_returns Infinity b0)
    as (b1 & Hrun & _ & _ & _ & Hlt & Hch & _).
  destruct (_cluster_single Infinity b0 c Hc)
    as (b1' & Hrun' & Hcol & Hsc & Hoc & Hslc & Hca & Hav).
  assert (b1' = b1) as -> by congruence.
  rewrite Hrun in *. simpl in *.
  rewrite Hcl, Hc. repeat split; try done. congruence.
Qed.

End Constructor.

(** ** Concrete runs of the widgets *)

Lemma handle_characters_window_witness :
  let keys := [chars "a"; chars "b"; chars "space"; chars "c";
               chars "Left"; chars "BackSpace"; chars "Shift_L";
               chars "d"; chars "Return"] in
  (0 < 3)%Z /\ (0 < 1)%Z /\ Forall (fun k => k <> []) keys /\
  exists b0 b,
    ui.TextBox2D.edit_mode (ui.TextBox2D.__init__ 3 1 (chars "Enter Text"))
      = ui.TextBox2D.Ok tt b0 /\
    ui.TextBox2D.handle_characters keys b0 = ui.TextBox2D.Ok tt b /\
    window_consistent b /\
    len (ui.TextBox2D.showable_text true b)
      = Z.min (len (ui.TextBox2D.text b) + 1) (1 * 3) /\
    ui.TextBox2D.showable_text true b
      !! Z.to_nat (ui.TextBox2D.caret_pos b - ui.TextBox2D.window_left b)
      = Some "_"%char.
Proof.
  intros keys.
  assert (Hw : (0 < 3)%Z) by lia.
  assert (Hh : (0 < 1)%Z) by lia.
  assert (Hkeys : Forall (fun k => k <> []) keys)
    by (repeat constructor; discriminate).
  split; [exact Hw|]. split; [exact Hh|]. split; [exact Hkeys|].
  exact (handle_characters_window 3 1 (chars "Enter Text") keys Hw Hh Hkeys).
Defined.

Lemma type_then_backspace_witness :
  let b := ui.TextBox2D.mk (chars "abc") (chars "bc_") 3 1 1 3 3 false in
  let k := chars "Space" in
  window_consistent b /\
  (length k = 1 \/ lower k = chars "space") /\
  exists b1 b2,
    ui.TextBox2D.handle_character k b = ui.TextBox2D.Ok false b1 /\
    len (ui.TextBox2D.text b1) = (len (ui.TextBox2D.text b) + 1)%Z /\
    ui.TextBox2D.handle_character (chars "BackSpace") b1
      = ui.TextBox2D.Ok false b2 /\
    ui.TextBox2D.text b2 = ui.TextBox2D.text b /\
    ui.TextBox2D.caret_pos b2 = ui.TextBox2D.caret_pos b /\
    ui.TextBox2D.window_left b2 = ui.TextBox2D.window_left b /\
    ui.TextBox2D.window_right b2 = ui.TextBox2D.window_right b.
Proof.
  intros b k.
  assert (Hb : window_consistent b) by (by vm_compute).
  assert (Hk : length k = 1 \/ lower k = chars "space")
    by (right; reflexivity).
  split; [exact Hb|]. split; [exact Hk|].
  exact (type_then_backspace k b Hb Hk).
Defined.

Lemma next_icon_cycles_witness :
  let icon_fnames := [("play", chars "icons/play.png");
                      ("notes", chars "icons/notes.txt");
                      ("stop", chars "icons/stop.PNG")] in
  let b := ui.Button2D.mk [("play", chars "icons/play.png");
                           ("stop", chars "icons/stop.PNG")]
                          ["play"; "stop"] 0 "play"
                          (chars "icons/play.png") in
  NoDup (fst <$> icon_fnames) /\
  ui.Button2D.__init__ icon_fnames = Some b /\
  (forall k, exists b',
     times k ui.Button2D.next_icon b = Ok tt b' /\
     ui.Button2D.current_icon_id b' = k mod length (ui.Button2D.icons b) /\
     ui.Button2D.icons b !! (k mod length (ui.Button2D.icons b))
       = Some (ui.Button2D.current_icon_name b', ui.Button2D.texture b')) /\
  NoDup (ui.Button2D.icon_names b) /\
  times (length (ui.Button2D.icons b)) ui.Button2D.next_icon b = Ok tt b.
Proof.
  intros icon_fnames b.
  assert (Hnd : NoDup (fst <$> icon_fnames)) by compute_done.
  assert (Hinit : ui.Button2D.__init__ icon_fnames = Some b)
    by (by vm_compute).
  split; [exact Hnd|]. split; [exact Hinit|].
  exact (next_icon_cycles icon_fnames b Hnd Hinit).
Defined.

Lemma Button2D_needs_png_witness :
  let icon_fnames := [("notes", chars "icons/notes.txt");
                      ("photo", chars "photo.Png")] in
  NoDup (fst <$> icon_fnames) /\
  (ui.Button2D.__init__ icon_fnames = None <->
   Forall (fun item => ui.Button2D.not_png item.2 = true) icon_fnames) /\
  (forall b name icon,
     ui.Button2D.__init__ icon_fnames = Some b ->
     ((name, icon) ∈ ui.Button2D.icons b <->
      (name, icon) ∈ icon_fnames /\ ui.Button2D.not_png icon = false)) /\
  (forall stem extension,
     "."%char ∉ extension ->
     ui.Button2D.not_png (stem ++ "."%char :: extension) =
       bool_decide (extension <> chars "png" /\ extension <> chars "PNG")).
Proof.
  intros icon_fnames.
  assert (Hnd : NoDup (fst <$> icon_fnames)) by compute_done.
  split; [exact Hnd|].
  exact (Button2D_needs_png icon_fnames Hnd).
Defined.

Lemma click_or_drag_witness :
  let evs := [ui.UI.KeyPressEvent; ui.UI.MouseMoveEvent;
              ui.UI.RightButtonPressEvent] in
  Forall (fun e => e <> ui.UI.LeftButtonPressEvent /\
                   e <> ui.UI.LeftButtonReleaseEvent) evs /\
  exists l,
    ui.UI.calls (ui.UI.run ui.UI.__init__
                   (ui.UI.LeftButtonPressEvent :: evs ++
                    [ui.UI.LeftButtonReleaseEvent]))
      = ui.UI.calls ui.UI.__init__ ++ ["on_left_mouse_button_pressed"] ++ l ++
        ["on_left_mouse_button_released"] /\
    ui.UI.left_button_state
      (ui.UI.run ui.UI.__init__
         (ui.UI.LeftButtonPressEvent :: evs ++ [ui.UI.LeftButtonReleaseEvent]))
      = "released" /\
    ("on_left_mouse_button_clicked" ∈ l <-> ui.UI.MouseMoveEvent ∉ evs).
Proof.
  intros evs.
  assert (Hevs : Forall (fun e => e <> ui.UI.LeftButtonPressEvent /\
                                  e <> ui.UI.LeftButtonReleaseEvent) evs)
    by (repeat constructor; discriminate).
  split; [exact Hevs|].
  exact (click_or_drag ui.UI.__init__ evs Hevs).
Defined.

Lemma width_set_text_wraps_witness :
  let b := ui.TextBox2D.__init__ 3 2 (chars "Enter Text") in
  let text0 := chars "abcdefg_" in
  (ui.TextBox2D.width b = 0%Z -> text0 <> [] ->
   ui.TextBox2D.width_set_text text0 b = None) /\
  (0 < ui.TextBox2D.width b)%Z /\ (newline ∉ text0) /\
  exists r,
    ui.TextBox2D.width_set_text text0 b = Some r /\
    filter (fun c => c <> newline) r = text0 /\
    (forall k c, r !! k = Some c ->
       (c = newline <->
        ((Z.of_nat k + 1) mod (ui.TextBox2D.width b + 1) = 0)%Z)) /\
    last r <> Some newline.
Proof.
  intros b text0.
  assert (Hw : (0 < ui.TextBox2D.width b)%Z) by (simpl; lia).
  assert (Htext : newline ∉ text0) by compute_done.
  split; [exact (proj1 (width_set_text_wraps b text0))|].
  split; [exact Hw|]. split; [exact Htext|].
  exact (proj2 (width_set_text_wraps b text0) Hw Htext).
Defined.

(** ** Concrete runs of the session *)

Lemma Demo_session_consistent : session_consistent (Demo.session 2).
Proof.
  assert (Hinit : @StreamlinesVizu.__init__ Demo.metric Demo.toolkit
                    Demo.four_segments None (Some 2%Z)
                  = Some (Demo.fresh_session 2)) by reflexivity.
  exact (@reachable_consistent Demo.metric Demo.toolkit _ _ _ _ Demo.events
           Hinit).
Qed.

Lemma select_previous_undoes_select_next_witness :
  let s := Demo.session 2 in
  let name := "/1/" in
  well_formed s /\
  StreamlinesVizu.selected_bundle s = Some name /\
  name ∈ StreamlinesVizu.keys s /\
  (exists s1 s2,
     @StreamlinesVizu.select_next Demo.metric Demo.toolkit s = Ok tt s1 /\
     @StreamlinesVizu.select_previous Demo.metric Demo.toolkit s1 = Ok tt s2 /\
     StreamlinesVizu.selected_bundle s2 = Some name /\
     StreamlinesVizu.keys s2 = StreamlinesVizu.keys s /\
     StreamlinesVizu.bundles s2 = StreamlinesVizu.bundles s) /\
  (exists s1 s2,
     @StreamlinesVizu.select_previous Demo.metric Demo.toolkit s = Ok tt s1 /\
     @StreamlinesVizu.select_next Demo.metric Demo.toolkit s1 = Ok tt s2 /\
     StreamlinesVizu.selected_bundle s2 = Some name /\
     StreamlinesVizu.keys s2 = StreamlinesVizu.keys s /\
     StreamlinesVizu.bundles s2 = StreamlinesVizu.bundles s).
Proof.
  intros s name.
  assert (Hwf : well_formed s)
    by (apply Demo_session_well_formed; by right; right).
  assert (Hsel : StreamlinesVizu.selected_bundle s = Some name) by compute_done.
  assert (Hin : name ∈ StreamlinesVizu.keys s) by compute_done.
  repeat (split; [assumption|]).
  exact (@select_previous_undoes_select_next Demo.metric Demo.toolkit s name
           Hwf Hsel Hin).
Defined.

Lemma reject_then_undo_witness :
  let s := Demo.session 2 in
  let name := "/1/" in
  well_formed s /\
  StreamlinesVizu.selected_bundle s = Some name /\
  name ∈ StreamlinesVizu.keys s /\
  maxlen (StreamlinesVizu.undo_memory s) <> Some 0 /\
  exists s1 s2,
    @StreamlinesVizu.dislike_bundle Demo.metric Demo.toolkit s = Ok tt s1 /\
    StreamlinesVizu.bundles s1 = delete name (StreamlinesVizu.bundles s) /\
    length (StreamlinesVizu.outliers s1) =
      length (StreamlinesVizu.outliers s) + size_of s name /\
    StreamlinesVizu.inliers s1 = StreamlinesVizu.inliers s /\
    @StreamlinesVizu.undo Demo.metric Demo.toolkit s1 = Ok tt s2 /\
    StreamlinesVizu.bundles s2 = StreamlinesVizu.bundles s /\
    StreamlinesVizu.keys s2 = StreamlinesVizu.keys s /\
    (forall r, contents (StreamlinesVizu.heap s2 !!! r) =
               contents (StreamlinesVizu.heap s !!! r)) /\
    StreamlinesVizu.inliers s2 = StreamlinesVizu.inliers s /\
    StreamlinesVizu.outliers s2 =
      (if decide (size_of s name = 0) then []
       else StreamlinesVizu.outliers s) /\
    StreamlinesVizu.selected_bundle s2 = Some name.
Proof.
  intros s name.
  assert (Hwf : well_formed s)
    by (apply Demo_session_well_formed; by right; right).
  assert (Hsel : StreamlinesVizu.selected_bundle s = Some name) by compute_done.
  assert (Hin : name ∈ StreamlinesVizu.keys s) by compute_done.
  assert (Hroom : maxlen (StreamlinesVizu.undo_memory s) <> Some 0)
    by (by vm_compute).
  repeat (split; [assumption|]).
  exact (@reject_then_undo Demo.metric Demo.toolkit s name Hwf Hsel Hin Hroom).
Defined.

Lemma verdict_moves_selection_witness :
  let s := Demo.session 2 in
  let name := "/1/" in
  well_formed s /\
  StreamlinesVizu.selected_bundle s = Some name /\
  name ∈ StreamlinesVizu.keys s /\
  exists c next s1,
    cycle_order s !! c = Some name /\
    cycle_order s !! ((c + 1) mod length (StreamlinesVizu.keys s)) = Some next /\
    @act Demo.metric Demo.toolkit accept s = Ok tt s1 /\
    StreamlinesVizu.selected_bundle s1 = Some next /\
    (next ∈ StreamlinesVizu.keys s1 <-> next <> name) /\
    (StreamlinesVizu.keys s = [name] ->
     next = name /\ StreamlinesVizu.keys s1 = [] /\
     StreamlinesVizu.bundles s1 = ∅ /\
     @StreamlinesVizu.select_next Demo.metric Demo.toolkit s1
       = Raise ValueError s1 /\
     @StreamlinesVizu.select_previous Demo.metric Demo.toolkit s1
       = Raise ValueError s1 /\
     @act Demo.metric Demo.toolkit accept s1 = Raise KeyError s1).
Proof.
  intros s name.
  assert (Hwf : well_formed s)
    by (apply Demo_session_well_formed; by right; right).
  assert (Hsel : StreamlinesVizu.selected_bundle s = Some name) by compute_done.
  assert (Hin : name ∈ StreamlinesVizu.keys s) by compute_done.
  repeat (split; [assumption|]).
  exact (@verdict_moves_selection Demo.metric Demo.toolkit accept s name
           Hwf Hsel Hin).
Defined.

Lemma select_unknown_name_witness :
  let s := Demo.session 2 in
  let name := "/7/" in
  StreamlinesVizu.bundles s !! name = None /\
  exists s',
    @StreamlinesVizu.select Demo.metric Demo.toolkit (Some name) s
      = Raise KeyError s' /\
    StreamlinesVizu.selected_bundle s' = Some name /\
    StreamlinesVizu.keys s' = StreamlinesVizu.keys s /\
    StreamlinesVizu.bundles s' = StreamlinesVizu.bundles s /\
    StreamlinesVizu.like_dislike_panel s' = StreamlinesVizu.like_dislike_panel s /\
    StreamlinesVizu.clustering_panel s' = StreamlinesVizu.clustering_panel s /\
    (forall r, contents (StreamlinesVizu.heap s' !!! r) =
               contents (StreamlinesVizu.heap s !!! r)).
Proof.
  intros s name.
  assert (Hname : StreamlinesVizu.bundles s !! name = None) by (by vm_compute).
  split; [exact Hname|].
  exact (@select_unknown_name Demo.metric Demo.toolkit s name Hname).
Defined.

Lemma toggle_hides_others_witness :
  let s := Demo.session 2 in
  let name := "/1/" in
  let r := 2 in
  StreamlinesVizu.selected_bundle s = Some name /\
  StreamlinesVizu.bundles s !! name = Some r /\
  StreamlinesVizu.last_bundles_visibility_state s = "dimmed" /\
  exists s1 s2,
    StreamlinesVizu.toggle_other_bundles_visibility s
      = Ok tt s1 /\
    StreamlinesVizu.last_bundles_visibility_state s1 = "hidden" /\
    (forall k r', StreamlinesVizu.bundles s !! k = Some r' -> r' <> r ->
       Bundle.actor_visible (StreamlinesVizu.heap s1 !!! r') = false) /\
    StreamlinesVizu.heap s1 !!! r = StreamlinesVizu.heap s !!! r /\
    StreamlinesVizu.toggle_other_bundles_visibility s1
      = Ok tt s2 /\
    StreamlinesVizu.last_bundles_visibility_state s2 = "dimmed" /\
    (forall k r', StreamlinesVizu.bundles s !! k = Some r' -> r' <> r ->
       Bundle.actor_visible (StreamlinesVizu.heap s2 !!! r') = true) /\
    StreamlinesVizu.heap s2 !!! r = StreamlinesVizu.heap s !!! r /\
    StreamlinesVizu.keys s2 = StreamlinesVizu.keys s /\
    StreamlinesVizu.bundles s2 = StreamlinesVizu.bundles s /\
    StreamlinesVizu.selected_bundle s2 = Some name.
Proof.
  intros s name r.
  assert (Hsel : StreamlinesVizu.selected_bundle s = Some name) by compute_done.
  assert (Hr : StreamlinesVizu.bundles s !! name = Some r) by (by vm_compute).
  assert (Hlast : StreamlinesVizu.last_bundles_visibility_state s = "dimmed")
    by (by vm_compute).
  repeat (split; [assumption|]).
  exact (toggle_hides_others s name r Hsel Hr Hlast).
Defined.

Lemma get_cluster_as_bundles_children_made_witness :
  let b := Demo.split_bundle in
  let cs := @QuickBundles.cluster Demo.metric (Finite 25) Demo.four_segments in
  Bundle.clusters b = Some cs /\
  (forall children b',
     @Bundle.get_cluster_as_bundles Demo.metric Demo.toolkit b = Ok children b' ->
     b' = b /\
     length children =
       (if decide (length cs = 1) then 1
        else length cs `min` length (Bundle.clusters_colors b)) /\
     forall i child, children !! i = Some child ->
       exists cluster,
         cs !! i = Some cluster /\
         rows (Bundle.streamlines b) (Cluster.indices cluster)
           = Some (Bundle.streamlines child) /\
         Bundle.centroid child = Some (Cluster.centroid cluster) /\
         Bundle.threshold_used child = Bundle.last_threshold b) /\
  (forall e b',
     @Bundle.get_cluster_as_bundles Demo.metric Demo.toolkit b = Raise e b' ->
     e = IndexError /\ b' = b /\
     ~ (indices_in_range b cs /\ no_empty_cluster cs)).
Proof.
  intros b cs.
  assert (Hcs : Bundle.clusters b = Some cs) by (by vm_compute).
  split; [exact Hcs|].
  exact (@get_cluster_as_bundles_children_made Demo.metric Demo.toolkit b cs Hcs).
Defined.

Lemma select_shows_bundle_witness :
  let s := Demo.session 2 in
  let name := "/0/" in
  let r := 1 in
  StreamlinesVizu.bundles s !! name = Some r /\
  (StreamlinesVizu.last_bundles_visibility_state s = "dimmed" \/
   StreamlinesVizu.last_bundles_visibility_state s = "hidden") /\
  exists s',
    @StreamlinesVizu.select Demo.metric Demo.toolkit (Some name) s = Ok tt s' /\
    StreamlinesVizu.selected_bundle s' = Some name /\
    StreamlinesVizu.like_dislike_panel s' = true /\
    StreamlinesVizu.clustering_panel s' = true /\
    StreamlinesVizu.keys s' = StreamlinesVizu.keys s /\
    StreamlinesVizu.bundles s' = StreamlinesVizu.bundles s /\
    Bundle.last_threshold (StreamlinesVizu.heap s' !!! r) =
      Some (@slider_value Demo.toolkit
              (StreamlinesVizu.default_clustering_threshold s)
              (Bundle.streamlines (StreamlinesVizu.heap s !!! r))) /\
    Bundle.clusters (StreamlinesVizu.heap s' !!! r) =
      Some (@QuickBundles.cluster Demo.metric
              (@slider_value Demo.toolkit
                 (StreamlinesVizu.default_clustering_threshold s)
                 (Bundle.streamlines (StreamlinesVizu.heap s !!! r)))
              (Bundle.streamlines (StreamlinesVizu.heap s !!! r))) /\
    Bundle.actor_visible (StreamlinesVizu.heap s' !!! r) = true /\
    (forall k r', StreamlinesVizu.bundles s !! k = Some r' -> r' <> r ->
       Bundle.actor_visible (StreamlinesVizu.heap s' !!! r') =
         bool_decide (StreamlinesVizu.last_bundles_visibility_state s = "dimmed")) /\
    (forall k r', StreamlinesVizu.selected_bundle s = Some k ->
       StreamlinesVizu.bundles s !! k = Some r' -> r' <> r ->
       Bundle.last_threshold (StreamlinesVizu.heap s' !!! r') = Some Infinity).
Proof.
  intros s name r.
  assert (Hr : StreamlinesVizu.bundles s !! name = Some r) by (by vm_compute).
  assert (Hlast : StreamlinesVizu.last_bundles_visibility_state s = "dimmed" \/
                  StreamlinesVizu.last_bundles_visibility_state s = "hidden")
    by (left; by vm_compute).
  repeat (split; [assumption|]).
  exact (@select_shows_bundle Demo.metric Demo.toolkit s name r Hr Hlast).
Defined.

Lemma slider_remembers_threshold_witness :
  let s := Demo.session 2 in
  let name := "/1/" in
  let other := "/0/" in
  let threshold := Finite 10 in
  StreamlinesVizu.selected_bundle s = Some name /\
  StreamlinesVizu.bundles s !! name = Some 2 /\
  StreamlinesVizu.bundles s !! other = Some 1 /\
  (StreamlinesVizu.last_bundles_visibility_state s = "dimmed" \/
   StreamlinesVizu.last_bundles_visibility_state s = "hidden") /\
  match StreamlinesVizu.last_threshold s with
  | None => true
  | Some t0 => Threshold_neqb t0 threshold
  end = true /\
  exists s1 s2,
    @StreamlinesVizu.disk_move_callback Demo.metric Demo.toolkit threshold s
      = Ok tt s1 /\
    StreamlinesVizu.last_threshold s1 = Some threshold /\
    Bundle.last_threshold (StreamlinesVizu.heap s1 !!! 2) = Some threshold /\
    Bundle.clusters (StreamlinesVizu.heap s1 !!! 2) =
      Some (@QuickBundles.cluster Demo.metric threshold
              (Bundle.streamlines (StreamlinesVizu.heap s !!! 2))) /\
    @StreamlinesVizu.disk_move_callback Demo.metric Demo.toolkit threshold s1
      = Ok tt s1 /\
    @StreamlinesVizu.select Demo.metric Demo.toolkit (Some other) s1
      = Ok tt s2 /\
    StreamlinesVizu.last_threshold s2 = Some threshold /\
    Bundle.last_threshold (StreamlinesVizu.heap s2 !!! 1) =
      Some (@slider_value Demo.toolkit
              (StreamlinesVizu.default_clustering_threshold s)
              (Bundle.streamlines (StreamlinesVizu.heap s !!! 1))) /\
    @StreamlinesVizu.disk_move_callback Demo.metric Demo.toolkit threshold s2
      = Ok tt s2.
Proof.
  intros s name other threshold.
  assert (Hsel : StreamlinesVizu.selected_bundle s = Some name) by compute_done.
  assert (Hr : StreamlinesVizu.bundles s !! name = Some 2) by (by vm_compute).
  assert (Hr' : StreamlinesVizu.bundles s !! other = Some 1) by (by vm_compute).
  assert (Hlast : StreamlinesVizu.last_bundles_visibility_state s = "dimmed" \/
                  StreamlinesVizu.last_bundles_visibility_state s = "hidden")
    by (left; by vm_compute).
  assert (Hchanged : match StreamlinesVizu.last_threshold s with
                     | None => true
                     | Some t0 => Threshold_neqb t0 threshold
                     end = true) by (by vm_compute).
  repeat (split; [assumption|]).
  exact (@slider_remembers_threshold Demo.metric Demo.toolkit s name other 2 1
           threshold Hsel Hr Hr' Hlast Hchanged).
Defined.

Lemma apply_replaces_parent_witness :
  let s := Demo.session 2 in
  let parent := "/1/" in
  let r := 2 in
  let result := @Bundle.get_cluster_as_bundles Demo.metric Demo.toolkit
                  (StreamlinesVizu.heap s !!! r) in
  let children := default [] (returned result) in
  let b := state_of result in
  session_consistent s /\
  StreamlinesVizu.selected_bundle s = Some parent /\
  StreamlinesVizu.bundles s !! parent = Some r /\
  result = Ok children b /\
  exists s',
    @StreamlinesVizu.apply_button_callback Demo.metric Demo.toolkit s
      = Ok tt s' /\
    StreamlinesVizu.selected_bundle s' = None /\
    registry_consistent s' /\
    (forall k, k ∈ StreamlinesVizu.keys s' <->
       (k ∈ StreamlinesVizu.keys s /\ k <> parent) \/
       (exists i, i < length children /\ k = child_name parent i)) /\
    (forall i child, children !! i = Some child ->
       exists ri,
         StreamlinesVizu.bundles s' !! child_name parent i = Some ri /\
         contents (StreamlinesVizu.heap s' !!! ri) = contents child) /\
    (forall k, k ∈ StreamlinesVizu.keys s -> k <> parent ->
       StreamlinesVizu.bundles s' !! k = StreamlinesVizu.bundles s !! k) /\
    StreamlinesVizu.bundles s' !! parent = None /\
    StreamlinesVizu.undo_memory s' = StreamlinesVizu.undo_memory s /\
    StreamlinesVizu.inliers s' = StreamlinesVizu.inliers s /\
    StreamlinesVizu.outliers s' = StreamlinesVizu.outliers s.
Proof.
  intros s parent r result children b.
  assert (Hs : session_consistent s) by exact Demo_session_consistent.
  assert (Hsel : StreamlinesVizu.selected_bundle s = Some parent)
    by compute_done.
  assert (Hr : StreamlinesVizu.bundles s !! parent = Some r) by (by vm_compute).
  assert (Hget : result = Ok children b) by (by vm_compute).
  repeat (split; [assumption|]).
  exact (@apply_replaces_parent Demo.metric Demo.toolkit s parent r children b
           Hs Hsel Hr Hget).
Defined.

Lemma centroids_toggle_switches_witness :
  let s := Demo.session 2 in
  StreamlinesVizu.centroids_toggle_button s = "streamlines" /\
  (forall k r, StreamlinesVizu.bundles s !! k = Some r ->
     is_Some (Bundle.clusters (StreamlinesVizu.heap s !!! r))) /\
  exists s1 s2,
    StreamlinesVizu.centroids_toggle_button_callback s
      = Ok tt s1 /\
    StreamlinesVizu.centroids_toggle_button s1 = "centroids" /\
    (forall k r, StreamlinesVizu.bundles s !! k = Some r ->
       flags (StreamlinesVizu.heap s1 !!! r) = (false, true) /\
       Bundle.actor_visible (StreamlinesVizu.heap s1 !!! r) = false /\
       Forall (fun a => Bundle.ca_visible a = true)
              (Bundle.centroid_actors (StreamlinesVizu.heap s1 !!! r))) /\
    StreamlinesVizu.centroids_toggle_button_callback s1
      = Ok tt s2 /\
    StreamlinesVizu.centroids_toggle_button s2 = "streamlines" /\
    (forall k r, StreamlinesVizu.bundles s !! k = Some r ->
       flags (StreamlinesVizu.heap s2 !!! r) = (true, false) /\
       Bundle.actor_visible (StreamlinesVizu.heap s2 !!! r) = true /\
       Forall (fun a => Bundle.ca_visible a = false)
              (Bundle.centroid_actors (StreamlinesVizu.heap s2 !!! r))) /\
    StreamlinesVizu.keys s2 = StreamlinesVizu.keys s /\
    StreamlinesVizu.bundles s2 = StreamlinesVizu.bundles s /\
    StreamlinesVizu.selected_bundle s2 = StreamlinesVizu.selected_bundle s.
Proof.
  intros s.
  assert (Hbutton : StreamlinesVizu.centroids_toggle_button s = "streamlines")
    by (by vm_compute).
  assert (Hclustered : forall k r, StreamlinesVizu.bundles s !! k = Some r ->
            is_Some (Bundle.clusters (StreamlinesVizu.heap s !!! r))).
  { assert (Hall : map_Forall
              (fun _ r => is_Some (Bundle.clusters (StreamlinesVizu.heap s !!! r)))
              (StreamlinesVizu.bundles s)) by compute_done.
    intros k r Hk. exact (Hall k r Hk). }
  split; [exact Hbutton|]. split; [exact Hclustered|].
  exact (centroids_toggle_switches s Hbutton Hclustered).
Defined.

Lemma Bundle_constructor_witness :
  Demo.four_segments <> [] /\
  exists b c,
    @Bundle.__init__ Demo.metric Demo.toolkit Demo.four_segments None
      (Some Infinity) None = Some b /\
    contents b = (Demo.four_segments, None, None, Some Infinity) /\
    flags b = (true, false) /\
    Bundle.actor_visible b = true /\
    Bundle.last_threshold b = Some Infinity /\
    Bundle.has_changed b = true /\
    Bundle.clusters b = Some [c] /\
    Cluster.indices c = seq 0 (length Demo.four_segments) /\
    Bundle.clusters_colors b = [Some (default (0, 0, 1)%Q None)] /\
    Bundle.streamlines_colors b =
      replicate (length Demo.four_segments) (1, 1, 1)%Q /\
    Bundle.centroid_actors b = [] /\
    Bundle.scalars b = Bundle.original_colors b.
Proof.
  assert (Hne : Demo.four_segments <> []) by done.
  split; [exact Hne|].
  exact (proj2 (@Bundle_constructor Demo.metric Demo.toolkit Demo.four_segments
                  None (Some Infinity) None) Hne).
Defined.
